(** * Chrono-Fling: the simulation core of [src/js/game.js]

    A shallow embedding of the game loop (physics integration, player state
    machine, obstacle recycling, wave, camera) and the proofs of its
    specified properties.

    Numbers.  Every JavaScript number of the program is a value of an abstract
    type [num] with the operations of the class [JSNumber].  Two instances are
    given: exact rational arithmetic ([Q], used for every property that needs
    algebra) and IEEE 754 binary64 ([float], the arithmetic the program runs
    with, used to evaluate the code bit for bit).  Properties that only depend
    on the control flow are proved for every instance.  The fling counter and
    the random counter are integers in the program and are [Z] and [nat] here.

    State.  The program keeps its state in module-level variables and in the
    objects they point to; [Game] gathers them in one record and every
    method is a function from [Game] to [Game].  The objects are never
    aliased (every vector that is stored is a fresh [Victor] or a clone), so
    values are enough.  [Math.random] reads the next value of an oracle kept
    in the state; [playSound] and [localStorage.setItem] append to a log.

    Rendering.  Fields that are written for the renderer and never read back
    by the simulation (rotation, tint, alpha, the text of labels, the stretch
    of the player sprite, the scale of the aim indicators and of the menu
    items) are left out.  The position of the aim indicators is read back by
    the camera and is kept. *)

From Stdlib Require Import ZArith QArith Qabs Qminmax Qround Lqa Lia List Bool.
From Stdlib Require Import Floats.
Import ListNotations.

Set Implicit Arguments.

(** ** JavaScript numbers *)

Class JSNumber (num : Type) : Type := {
  ofZ   : Z -> num;            (* an integer literal *)
  nadd  : num -> num -> num;   (* a + b *)
  nsub  : num -> num -> num;   (* a - b *)
  nmul  : num -> num -> num;   (* a * b *)
  ndiv  : num -> num -> num;   (* a / b *)
  nneg  : num -> num;          (* -a *)
  nabs  : num -> num;          (* Math.abs(a) *)
  nmin  : num -> num -> num;   (* Math.min(a, b) *)
  nceil : num -> num;          (* Math.ceil(a) *)
  nltb  : num -> num -> bool;  (* a < b *)
  nleb  : num -> num -> bool   (* a <= b *)
}.

Declare Scope num_scope.
Delimit Scope num_scope with num.
Infix "+" := nadd : num_scope.
Infix "-" := nsub : num_scope.
Infix "*" := nmul : num_scope.
Infix "/" := ndiv : num_scope.
Notation "- a" := (nneg a) : num_scope.
Infix "<?" := nltb (at level 70, no associativity) : num_scope.
Infix "<=?" := nleb (at level 70, no associativity) : num_scope.
Notation "a >? b" := (nltb b a) (at level 70, no associativity) : num_scope.
Notation "a >=? b" := (nleb b a) (at level 70, no associativity) : num_scope.

(** A decimal literal [n/d], such as [0.9 = 9/10]: in binary64 the quotient of
    two small integers is the double nearest to the decimal. *)
Definition decimal {num} `{JSNumber num} (n d : Z) : num := (ofZ n / ofZ d)%num.

(** *** Exact rationals *)

Definition Qltb (a b : Q) : bool :=
  match a ?= b with Lt => true | _ => false end.

#[export] Instance Q_JSNumber : JSNumber Q := {|
  ofZ := inject_Z;
  nadd := Qplus; nsub := Qminus; nmul := Qmult; ndiv := Qdiv;
  nneg := Qopp; nabs := Qabs; nmin := Qmin;
  nceil := fun a => inject_Z (Qceiling a);
  nltb := Qltb; nleb := Qle_bool
|}.

(** *** IEEE 754 binary64 *)

Definition float_ofZ (z : Z) : float :=
  match z with
  | Z0 => 0%float
  | Zpos _ => PrimFloat.of_uint63 (Uint63.of_Z z)
  | Zneg p => (- PrimFloat.of_uint63 (Uint63.of_Z (Zpos p)))%float
  end.

(** [Math.min]: NaN if either argument is NaN, and [-0] is below [+0]. *)
Definition float_min (a b : float) : float :=
  if PrimFloat.is_nan a then a
  else if PrimFloat.is_nan b then b
  else if (a <? b)%float then a
  else if (b <? a)%float then b
  else if PrimFloat.get_sign a then a else b.

(** [Math.ceil]: a finite double [(-1)^s * m * 2^e] with [e < 0] is rounded up
    to an integer; integers, zeros, infinities and NaN are returned as they
    are. *)
Definition float_ceil (f : float) : float :=
  match Prim2SF f with
  | S754_finite s m e =>
      if (0 <=? e)%Z then f
      else
        let q := (Zpos m / 2 ^ (- e))%Z in
        let r := (Zpos m mod 2 ^ (- e))%Z in
        if s then (- float_ofZ q)%float
        else float_ofZ (if (r =? 0)%Z then q else q + 1)%Z
  | _ => f
  end.

#[export] Instance float_JSNumber : JSNumber float := {|
  ofZ := float_ofZ;
  nadd := PrimFloat.add; nsub := PrimFloat.sub;
  nmul := PrimFloat.mul; ndiv := PrimFloat.div;
  nneg := PrimFloat.opp; nabs := PrimFloat.abs; nmin := float_min;
  nceil := float_ceil;
  nltb := PrimFloat.ltb; nleb := PrimFloat.leb
|}.

(** ** Victor: the 2D vectors of the program

    The library's methods mutate their receiver and return it; the program
    always calls them on a clone or on a vector nobody else holds, so each is
    a function to the new value. *)

Record Victor {num : Type} : Type := Vec { x : num; y : num }.
Arguments Victor : clear implicits.

Module Victor.
Section Defs.
Context {num : Type} `{JSNumber num}.
Local Open Scope num_scope.

Definition add (v w : Victor num) : Victor num := Vec (x v + x w) (y v + y w).
Definition subtract (v w : Victor num) : Victor num := Vec (x v - x w) (y v - y w).
Definition multiplyScalar (v : Victor num) (s : num) : Victor num := Vec (x v * s) (y v * s).
Definition lengthSq (v : Victor num) : num := x v * x v + y v * y v.
Definition distanceSq (v w : Victor num) : num :=
  let dx := x v - x w in
  let dy := y v - y w in
  dx * dx + dy * dy.

End Defs.
End Victor.

(** ** PIXI: the parts of the rendering library the simulation computes with *)

Module PIXI.

(** [PIXI.Rectangle] *)
Record Rectangle {num : Type} : Type :=
  mkRectangle { rect_x : num; rect_y : num; width : num; height : num }.
Arguments Rectangle : clear implicits.

(** [PIXI.Matrix]: the affine map [(px, py) |-> (a px + c py + tx, b px + d py + ty)] *)
Record Matrix {num : Type} : Type :=
  mkMatrix { m_a : num; m_b : num; m_c : num; m_d : num; m_tx : num; m_ty : num }.
Arguments Matrix : clear implicits.

(** [PIXI.Graphics], the display object the game objects extend: its
    [position] and its uniform [scale]. *)
Record Graphics {num : Type} : Type :=
  mkGraphics { position : Victor num; scale : num }.
Arguments Graphics : clear implicits.

Section Defs.
Context {num : Type} `{JSNumber num}.
Local Open Scope num_scope.

Definition left (r : Rectangle num) : num := rect_x r.
Definition right (r : Rectangle num) : num := rect_x r + width r.
Definition top (r : Rectangle num) : num := rect_y r.
Definition bottom (r : Rectangle num) : num := rect_y r + height r.

(** [Rectangle.contains(x, y)] *)
Definition contains (r : Rectangle num) (px py : num) : bool :=
  if (width r <=? ofZ 0) || (height r <=? ofZ 0) then false
  else if (px >=? rect_x r) && (px <? rect_x r + width r) then
    if (py >=? rect_y r) && (py <? rect_y r + height r) then true else false
  else false.

Definition set_rect_y (v : num) (r : Rectangle num) : Rectangle num :=
  mkRectangle (rect_x r) v (width r) (height r).

Definition identity : Matrix num :=
  mkMatrix (ofZ 1) (ofZ 0) (ofZ 0) (ofZ 1) (ofZ 0) (ofZ 0).

Definition translate (m : Matrix num) (dx dy : num) : Matrix num :=
  mkMatrix (m_a m) (m_b m) (m_c m) (m_d m) (m_tx m + dx) (m_ty m + dy).

Definition scaleBy (m : Matrix num) (sx sy : num) : Matrix num :=
  mkMatrix (m_a m * sx) (m_b m * sy) (m_c m * sx) (m_d m * sy)
           (m_tx m * sx) (m_ty m * sy).

(** [Matrix.applyInverse(pos)] *)
Definition applyInverse (m : Matrix num) (pos : Victor num) : Victor num :=
  let id := ofZ 1 / (m_a m * m_d m + m_c m * - m_b m) in
  Vec (m_d m * id * x pos + - m_c m * id * y pos
         + (m_ty m * m_c m - m_tx m * m_d m) * id)
      (m_a m * id * y pos + - m_b m * id * x pos
         + (- m_ty m * m_a m + m_tx m * m_b m) * id).

Definition set_position (p : Victor num) (g : Graphics num) : Graphics num :=
  mkGraphics p (scale g).
Definition set_scale (s : num) (g : Graphics num) : Graphics num :=
  mkGraphics (position g) s.

End Defs.
End PIXI.

(** ** Utility *)

Section Utility.
Context {num : Type} `{JSNumber num}.
Local Open Scope num_scope.

Definition lerp (min max progress : num) : num := min + (max - min) * progress.

Definition lerp2D (min max : Victor num) (progress : num) : Victor num :=
  Victor.add min (Victor.multiplyScalar (Victor.subtract max min) progress).

Definition isColliding (p1 : Victor num) (r1 : num) (p2 : Victor num) (r2 : num) : bool :=
  let radiusTotal := r1 + r2 in
  Victor.distanceSq p1 p2 <? radiusTotal * radiusTotal.

Definition isCircleCollidingWithPoint (position : Victor num) (radius : num)
    (targetPoint : Victor num) : bool :=
  Victor.distanceSq position targetPoint <? radius * radius.

End Utility.

(** ** The objects of the game *)

Module PLAYER_STATE.
Inductive t : Set := Dead | Idle | Aiming | Tutorial.
End PLAYER_STATE.

Module SCENE_ID.
Inductive t : Set := Menu | Game.
End SCENE_ID.

Module SFX_ID.
Inductive t : Set := Select | Swipe | Back | Aim | Fling | Orb | Spike | Death.
End SFX_ID.

Section Objects.
Context {num : Type}.

(** [class PhysicsObject extends PIXI.Graphics] *)
Record PhysicsObject : Type := mkPhysicsObject {
  graphics : PIXI.Graphics num;
  baseColliderRadius : num;
  colliderRadius : num;
  vectorPosition : Victor num;
  velocity : Victor num;
  momentOfAcceleration : Victor num
}.

(** [class Player extends PhysicsObject].  [aimingIndicatorList] holds the
    positions of the aim indicators, [aimingIndicator_visible] the visibility
    of their container, [aimingNumber_text] the number the middle one shows. *)
Record Player : Type := mkPlayer {
  body : PhysicsObject;
  playerState : PLAYER_STATE.t;
  flings : Z;
  flingForce : Victor num;
  aimingIndicatorList : list (Victor num);
  aimingIndicator_visible : bool;
  aimingNumber_text : Z
}.

(** [class Camera] *)
Record Camera : Type := mkCamera {
  position : Victor num;
  zoom : num;
  matrix : PIXI.Matrix num;
  boundingRectangle : PIXI.Rectangle num;
  nextCameraBound : PIXI.Rectangle num;
  xBounds : Victor num
}.

(** [class Wave extends PIXI.Graphics]: its PIXI position ([this.y] is
    [this.position.y]) and its collider *)
Record Wave : Type := mkWave {
  wave_position : Victor num;
  bounds : PIXI.Rectangle num
}.

(** The variables of the physics manager *)
Record PhysicsManager : Type := mkPhysicsManager {
  currentGameSpeed : num;
  targetGameSpeed : num;
  timeSpeed : num
}.

(** The variables of the input manager *)
Record InputManager : Type := mkInputManager {
  mouseClientPosition : Victor num;
  mouseCanvasPosition : Victor num;
  mouseWorldPosition : Victor num;
  mouseDown : bool;
  mouseDownCanvasPosition : Victor num;
  mouseUpCanvasPosition : Victor num
}.

(** What the program reaches outside itself: the page offset of the canvas
    ([APP_CLIENT_POSITION], set once by [init]), the values written to
    [localStorage] under [LS_HIGHEST_DEATH] (latest first), the sounds played
    (in order), the values [Math.random] will return and how many were
    drawn. *)
Record Host : Type := mkHost {
  APP_CLIENT_POSITION : Victor num;
  localStorage : list num;
  played : list SFX_ID.t;
  entropy : nat -> num;
  drawn : nat
}.

(** The whole state: the module-level variables of [game.js] *)
Record Game : Type := mkGame {
  CAMERA : Camera;
  WAVE : Wave;
  PLAYER : Player;
  ORBS : list PhysicsObject;
  SPIKES : list PhysicsObject;
  physics : PhysicsManager;
  input : InputManager;
  currentScene : SCENE_ID.t;
  lastDeathHeight : num;
  highestDeathHeight : num;
  host : Host
}.

(** *** Assignments to one field *)

Definition set_graphics (v : PIXI.Graphics num) (o : PhysicsObject) : PhysicsObject :=
  mkPhysicsObject v (baseColliderRadius o) (colliderRadius o) (vectorPosition o)
    (velocity o) (momentOfAcceleration o).
Definition set_baseColliderRadius (v : num) (o : PhysicsObject) : PhysicsObject :=
  mkPhysicsObject (graphics o) v (colliderRadius o) (vectorPosition o)
    (velocity o) (momentOfAcceleration o).
Definition set_colliderRadius (v : num) (o : PhysicsObject) : PhysicsObject :=
  mkPhysicsObject (graphics o) (baseColliderRadius o) v (vectorPosition o)
    (velocity o) (momentOfAcceleration o).
Definition set_vectorPosition (v : Victor num) (o : PhysicsObject) : PhysicsObject :=
  mkPhysicsObject (graphics o) (baseColliderRadius o) (colliderRadius o) v
    (velocity o) (momentOfAcceleration o).
Definition set_velocity (v : Victor num) (o : PhysicsObject) : PhysicsObject :=
  mkPhysicsObject (graphics o) (baseColliderRadius o) (colliderRadius o)
    (vectorPosition o) v (momentOfAcceleration o).
Definition set_momentOfAcceleration (v : Victor num) (o : PhysicsObject) : PhysicsObject :=
  mkPhysicsObject (graphics o) (baseColliderRadius o) (colliderRadius o)
    (vectorPosition o) (velocity o) v.

Definition set_body (v : PhysicsObject) (p : Player) : Player :=
  mkPlayer v (playerState p) (flings p) (flingForce p) (aimingIndicatorList p)
    (aimingIndicator_visible p) (aimingNumber_text p).
Definition set_playerState (v : PLAYER_STATE.t) (p : Player) : Player :=
  mkPlayer (body p) v (flings p) (flingForce p) (aimingIndicatorList p)
    (aimingIndicator_visible p) (aimingNumber_text p).
Definition set_flings (v : Z) (p : Player) : Player :=
  mkPlayer (body p) (playerState p) v (flingForce p) (aimingIndicatorList p)
    (aimingIndicator_visible p) (aimingNumber_text p).
Definition set_flingForce (v : Victor num) (p : Player) : Player :=
  mkPlayer (body p) (playerState p) (flings p) v (aimingIndicatorList p)
    (aimingIndicator_visible p) (aimingNumber_text p).
Definition set_aimingIndicatorList (v : list (Victor num)) (p : Player) : Player :=
  mkPlayer (body p) (playerState p) (flings p) (flingForce p) v
    (aimingIndicator_visible p) (aimingNumber_text p).
Definition set_aimingIndicator_visible (v : bool) (p : Player) : Player :=
  mkPlayer (body p) (playerState p) (flings p) (flingForce p)
    (aimingIndicatorList p) v (aimingNumber_text p).
Definition set_aimingNumber_text (v : Z) (p : Player) : Player :=
  mkPlayer (body p) (playerState p) (flings p) (flingForce p)
    (aimingIndicatorList p) (aimingIndicator_visible p) v.

Definition set_position (v : Victor num) (c : Camera) : Camera :=
  mkCamera v (zoom c) (matrix c) (boundingRectangle c) (nextCameraBound c) (xBounds c).
Definition set_zoom (v : num) (c : Camera) : Camera :=
  mkCamera (position c) v (matrix c) (boundingRectangle c) (nextCameraBound c) (xBounds c).
Definition set_matrix (v : PIXI.Matrix num) (c : Camera) : Camera :=
  mkCamera (position c) (zoom c) v (boundingRectangle c) (nextCameraBound c) (xBounds c).
Definition set_boundingRectangle (v : PIXI.Rectangle num) (c : Camera) : Camera :=
  mkCamera (position c) (zoom c) (matrix c) v (nextCameraBound c) (xBounds c).
Definition set_nextCameraBound (v : PIXI.Rectangle num) (c : Camera) : Camera :=
  mkCamera (position c) (zoom c) (matrix c) (boundingRectangle c) v (xBounds c).

Definition set_wave_position (v : Victor num) (w : Wave) : Wave :=
  mkWave v (bounds w).
Definition set_bounds (v : PIXI.Rectangle num) (w : Wave) : Wave :=
  mkWave (wave_position w) v.

Definition set_currentGameSpeed (v : num) (m : PhysicsManager) : PhysicsManager :=
  mkPhysicsManager v (targetGameSpeed m) (timeSpeed m).
Definition set_targetGameSpeed (v : num) (m : PhysicsManager) : PhysicsManager :=
  mkPhysicsManager (currentGameSpeed m) v (timeSpeed m).
Definition set_timeSpeed (v : num) (m : PhysicsManager) : PhysicsManager :=
  mkPhysicsManager (currentGameSpeed m) (targetGameSpeed m) v.

Definition set_localStorage (v : list num) (h : Host) : Host :=
  mkHost (APP_CLIENT_POSITION h) v (played h) (entropy h) (drawn h).
Definition set_played (v : list SFX_ID.t) (h : Host) : Host :=
  mkHost (APP_CLIENT_POSITION h) (localStorage h) v (entropy h) (drawn h).
Definition set_drawn (v : nat) (h : Host) : Host :=
  mkHost (APP_CLIENT_POSITION h) (localStorage h) (played h) (entropy h) v.

Definition set_CAMERA (v : Camera) (g : Game) : Game :=
  mkGame v (WAVE g) (PLAYER g) (ORBS g) (SPIKES g) (physics g) (input g)
    (currentScene g) (lastDeathHeight g) (highestDeathHeight g) (host g).
Definition set_WAVE (v : Wave) (g : Game) : Game :=
  mkGame (CAMERA g) v (PLAYER g) (ORBS g) (SPIKES g) (physics g) (input g)
    (currentScene g) (lastDeathHeight g) (highestDeathHeight g) (host g).
Definition set_PLAYER (v : Player) (g : Game) : Game :=
  mkGame (CAMERA g) (WAVE g) v (ORBS g) (SPIKES g) (physics g) (input g)
    (currentScene g) (lastDeathHeight g) (highestDeathHeight g) (host g).
Definition set_ORBS (v : list PhysicsObject) (g : Game) : Game :=
  mkGame (CAMERA g) (WAVE g) (PLAYER g) v (SPIKES g) (physics g) (input g)
    (currentScene g) (lastDeathHeight g) (highestDeathHeight g) (host g).
Definition set_SPIKES (v : list PhysicsObject) (g : Game) : Game :=
  mkGame (CAMERA g) (WAVE g) (PLAYER g) (ORBS g) v (physics g) (input g)
    (currentScene g) (lastDeathHeight g) (highestDeathHeight g) (host g).
Definition set_physics (v : PhysicsManager) (g : Game) : Game :=
  mkGame (CAMERA g) (WAVE g) (PLAYER g) (ORBS g) (SPIKES g) v (input g)
    (currentScene g) (lastDeathHeight g) (highestDeathHeight g) (host g).
Definition set_input (v : InputManager) (g : Game) : Game :=
  mkGame (CAMERA g) (WAVE g) (PLAYER g) (ORBS g) (SPIKES g) (physics g) v
    (currentScene g) (lastDeathHeight g) (highestDeathHeight g) (host g).
Definition set_currentScene (v : SCENE_ID.t) (g : Game) : Game :=
  mkGame (CAMERA g) (WAVE g) (PLAYER g) (ORBS g) (SPIKES g) (physics g) (input g)
    v (lastDeathHeight g) (highestDeathHeight g) (host g).
Definition set_lastDeathHeight (v : num) (g : Game) : Game :=
  mkGame (CAMERA g) (WAVE g) (PLAYER g) (ORBS g) (SPIKES g) (physics g) (input g)
    (currentScene g) v (highestDeathHeight g) (host g).
Definition set_highestDeathHeight (v : num) (g : Game) : Game :=
  mkGame (CAMERA g) (WAVE g) (PLAYER g) (ORBS g) (SPIKES g) (physics g) (input g)
    (currentScene g) (lastDeathHeight g) v (host g).
Definition set_host (v : Host) (g : Game) : Game :=
  mkGame (CAMERA g) (WAVE g) (PLAYER g) (ORBS g) (SPIKES g) (physics g) (input g)
    (currentScene g) (lastDeathHeight g) (highestDeathHeight g) v.

End Objects.

Arguments PhysicsObject : clear implicits.
Arguments Player : clear implicits.
Arguments Camera : clear implicits.
Arguments Wave : clear implicits.
Arguments PhysicsManager : clear implicits.
Arguments InputManager : clear implicits.
Arguments Host : clear implicits.
Arguments Game : clear implicits.

(** ** Constants, randomness, sound *)

Section Globals.
Context {num : Type} `{JSNumber num}.
Local Open Scope num_scope.

Definition ORB_BOOST_MULTIPLIER : num := decimal 12 10.
Definition AIMING_BALLS_AMOUNT : num := ofZ 4.
Definition INV_TOTAL_AIM_INDICATORS : num := ofZ 1 / (AIMING_BALLS_AMOUNT + ofZ 1).
Definition FLING_FORCE_MIN : num := ofZ 3500.
Definition STARTING_FLINGS : Z := 5.
Definition WAVE_SPEED : num := ofZ 200.
Definition APP_SIZE : Victor num := Vec (ofZ 500) (ofZ 750).
Definition CAMERA_POSITION_DEFAULT : Victor num := Vec (x APP_SIZE * decimal 5 10) (ofZ 0).
Definition CAMERA_ZOOM_DEFAULT : num := ofZ 1.
Definition CAMERA_ZOOM_AIMING : num := CAMERA_ZOOM_DEFAULT * decimal 15 10.
Definition CAMERA_EASING_FACTOR : num := decimal 1 10.
Definition CAMERA_AIMING_EASING_FACTOR : num := decimal 5 100.
Definition CAMERA_SPEEDING_EASING_FACTOR : num := decimal 3 10.
Definition FRICTION : num := decimal 9 10.
Definition GRAVITY : Victor num := Vec (ofZ 0) (ofZ 100000).
Definition TIME_EASING_FACTOR : num := decimal 1 10.
Definition MENU_TRANSITION_HEIGHT : num := ofZ (-1000).

(** [playSound(soundID)] *)
Definition playSound (soundID : SFX_ID.t) (g : Game num) : Game num :=
  set_host (set_played (played (host g) ++ [soundID]) (host g)) g.

(** [Math.random()]: the next value of the oracle *)
Definition Math_random (g : Game num) : num * Game num :=
  (entropy (host g) (drawn (host g)),
   set_host (set_drawn (S (drawn (host g))) (host g)) g).

Definition random (max : num) (g : Game num) : num * Game num :=
  let (r, g) := Math_random g in (r * max, g).

Definition randomRange (min max : num) (g : Game num) : num * Game num :=
  let (r, g) := random (max - min) g in (r + min, g).

Definition randomRange2D (bounds : PIXI.Rectangle num) (g : Game num)
  : Victor num * Game num :=
  let (rx, g) := randomRange (PIXI.rect_x bounds) (PIXI.right bounds) g in
  let (ry, g) := randomRange (PIXI.rect_y bounds) (PIXI.bottom bounds) g in
  (Vec rx ry, g).

(** [for (const o of list) body(o)], where the body may change [o] and the
    rest of the state, but not the other members of the list. *)
Fixpoint forEach (body : PhysicsObject num -> Game num -> PhysicsObject num * Game num)
    (l : list (PhysicsObject num)) (g : Game num)
  : list (PhysicsObject num) * Game num :=
  match l with
  | [] => ([], g)
  | o :: rest =>
      let (o', g) := body o g in
      let (rest', g) := forEach body rest g in
      (o' :: rest', g)
  end.

End Globals.

(** ** class PhysicsObject *)

Module PhysicsObject.
Section Defs.
Context {num : Type} `{JSNumber num}.
Local Open Scope num_scope.

Definition updatePosition (this : PhysicsObject num) : PhysicsObject num :=
  set_graphics
    (PIXI.set_position (Vec (x (vectorPosition this)) (y (vectorPosition this)))
       (graphics this)) this.

(** [update()], with the global [timeSpeed] as an argument *)
Definition update (timeSpeed : num) (this : PhysicsObject num) : PhysicsObject num :=
  let this := set_velocity
    (Victor.add (velocity this)
       (Victor.multiplyScalar (momentOfAcceleration this) timeSpeed)) this in
  let this := set_vectorPosition
    (Victor.add (vectorPosition this)
       (Victor.multiplyScalar (velocity this) timeSpeed)) this in
  let this := set_velocity
    (Victor.subtract (velocity this)
       (Victor.multiplyScalar (velocity this) (FRICTION * timeSpeed))) this in
  let this := set_momentOfAcceleration (Vec (ofZ 0) (ofZ 0)) this in
  updatePosition this.

Definition isColliding (this other : PhysicsObject num) : bool :=
  isColliding (vectorPosition this) (colliderRadius this)
              (vectorPosition other) (colliderRadius other).

Definition isCollidingWithPoint (this : PhysicsObject num) (point : Victor num) : bool :=
  isCircleCollidingWithPoint (vectorPosition this) (colliderRadius this) point.

Definition setScale (scale : num) (this : PhysicsObject num) : PhysicsObject num :=
  let this := set_graphics (PIXI.set_scale scale (graphics this)) this in
  set_colliderRadius (baseColliderRadius this * scale) this.

Definition getScale (this : PhysicsObject num) : num := PIXI.scale (graphics this).

(** The constructor, followed by what the constructors of [Obstacle] and
    [Player] do to the collider: [baseColliderRadius = colliderRadius;
    setScale(1)]. *)
Definition new (vectorPosition : Victor num) (colliderRadius : num) : PhysicsObject num :=
  let this := mkPhysicsObject (PIXI.mkGraphics (Vec (ofZ 0) (ofZ 0)) (ofZ 1))
                (ofZ 1) (ofZ 1) vectorPosition
                (Vec (ofZ 0) (ofZ 0)) (Vec (ofZ 0) (ofZ 0)) in
  let this := set_baseColliderRadius colliderRadius this in
  setScale (ofZ 1) this.

End Defs.
End PhysicsObject.

(** ** class Obstacle, class Orb, class Spike

    [this.respawn(...)] inside [Obstacle] is a call of the subclass's method:
    the methods of [Obstacle] that make it take the override as an argument.
    An obstacle lives in a list of the state; a method returns the new
    obstacle and the new state. *)

Module Obstacle.
Section Defs.
Context {num : Type} `{JSNumber num}.
Local Open Scope num_scope.

Definition method : Type :=
  PIXI.Rectangle num -> PhysicsObject num -> Game num -> PhysicsObject num * Game num.

(** [respawn(bounds, scaleMin, scaleMax)] *)
Definition respawn (bounds : PIXI.Rectangle num) (scaleMin scaleMax : num)
    (this : PhysicsObject num) (g : Game num) : PhysicsObject num * Game num :=
  let (p, g) := randomRange2D bounds g in
  let this := set_vectorPosition p this in
  let this := PhysicsObject.updatePosition this in
  let (s, g) := randomRange scaleMin scaleMax g in
  (PhysicsObject.setScale s this, g).

(** [update()] *)
Definition update (this_respawn : method)
    (this : PhysicsObject num) (g : Game num) : PhysicsObject num * Game num :=
  let this := PhysicsObject.updatePosition this in
  if y (vectorPosition this) >? y (wave_position (WAVE g)) + ofZ 100
  then this_respawn (nextCameraBound (CAMERA g)) this g
  else (this, g).

(** [destroy(bounds, particleEffect)]; both particle effects are empty. *)
Definition destroy (this_respawn : method) : method :=
  fun bounds this g => this_respawn bounds this g.

End Defs.
End Obstacle.

Module Orb.
Section Defs.
Context {num : Type} `{JSNumber num}.

Definition respawn : Obstacle.method :=
  fun bounds this g => Obstacle.respawn bounds (decimal 5 10) (ofZ 1) this g.

Definition destroy : Obstacle.method :=
  fun bounds this g =>
    let (this, g) := Obstacle.destroy respawn bounds this g in
    (this, playSound SFX_ID.Orb g).

Definition update : PhysicsObject num -> Game num -> PhysicsObject num * Game num :=
  Obstacle.update respawn.

(** [new Orb()] with the default arguments *)
Definition new : PhysicsObject num :=
  let visualRadius := ofZ 20 in
  PhysicsObject.new (Vec (ofZ 0) (ofZ 0)) (visualRadius * ofZ 2)%num.

End Defs.
End Orb.

Module Spike.
Section Defs.
Context {num : Type} `{JSNumber num}.

(** The rotation [random(TWO_PI)] is only drawn: nothing reads it back. *)
Definition respawn : Obstacle.method :=
  fun bounds this g =>
    let (this, g) := Obstacle.respawn bounds (decimal 5 10) (ofZ 1) this g in
    let (_, g) := Math_random g in
    (this, g).

Definition destroy : Obstacle.method :=
  fun bounds this g =>
    let (this, g) := Obstacle.destroy respawn bounds this g in
    (this, playSound SFX_ID.Spike (playSound SFX_ID.Orb g)).

Definition update : PhysicsObject num -> Game num -> PhysicsObject num * Game num :=
  Obstacle.update respawn.

(** [new Spike()] with the default arguments *)
Definition new : PhysicsObject num :=
  let scaleAmount := ofZ 75 in
  PhysicsObject.new (Vec (ofZ 0) (ofZ 0)) (scaleAmount * decimal 3 10)%num.

End Defs.
End Spike.

(** ** class Camera *)

Module Camera.
Section Defs.
Context {num : Type} `{JSNumber num}.
Local Open Scope num_scope.

Definition new (xBounds : Victor num) : Camera num :=
  mkCamera (Vec (ofZ 0) (ofZ 0)) (ofZ 1) PIXI.identity
    (PIXI.mkRectangle (ofZ 0) (ofZ 0) (ofZ 0) (ofZ 0))
    (PIXI.mkRectangle (ofZ 0) (ofZ 0) (ofZ 0) (ofZ 0)) xBounds.

Definition easeTo (targetPosition : Victor num) (targetZoom easingFactor : num)
    (this : Camera num) : Camera num :=
  let this := set_position (lerp2D (position this) targetPosition easingFactor) this in
  set_zoom (lerp (zoom this) targetZoom easingFactor) this.

Definition canvasToWorld (this : Camera num) (canvasPosition : Victor num) : Victor num :=
  PIXI.applyInverse (matrix this) canvasPosition.

(** [computeBoundingRectangle()]; the [CAMERA] it reads is [this], the only
    camera of the program. *)
Definition computeBoundingRectangle (this : Camera num) : Camera num :=
  let topLeft := canvasToWorld this (Vec (ofZ 0) (ofZ 0)) in
  let bottomRight := canvasToWorld this (Vec (x APP_SIZE) (y APP_SIZE)) in
  let this := set_boundingRectangle
    (PIXI.mkRectangle (x topLeft) (y topLeft)
       (x bottomRight - x topLeft) (y bottomRight - y topLeft)) this in
  let next := boundingRectangle this in
  set_nextCameraBound (PIXI.set_rect_y (PIXI.rect_y next - PIXI.height next) next) this.

Definition computeMatrix (this : Camera num) : Camera num :=
  let this := set_matrix
    (PIXI.translate
       (PIXI.scaleBy
          (PIXI.translate PIXI.identity (- x (position this)) (- y (position this)))
          (zoom this) (zoom this))
       (x APP_SIZE * decimal 5 10) (y APP_SIZE * decimal 5 10)) this in
  computeBoundingRectangle this.

(** [update()] *)
Definition update (this : Camera num) : Camera num :=
  let this := computeMatrix this in
  let overlapLeft := PIXI.left (boundingRectangle this) - x (xBounds this) in
  let overlapRight := PIXI.right (boundingRectangle this) - y (xBounds this) in
  if overlapLeft <? ofZ 0 then
    let this := set_position
      (Vec (x (position this) - overlapLeft) (y (position this))) this in
    computeMatrix this
  else if overlapRight >? ofZ 0 then
    let this := set_position
      (Vec (x (position this) - overlapRight) (y (position this))) this in
    computeMatrix this
  else this.

End Defs.
End Camera.

(** ** Death heights and the menu *)

Section Managers.
Context {num : Type} `{JSNumber num}.
Local Open Scope num_scope.

(** [saveHighestsDeath(height)] *)
Definition saveHighestsDeath (height : num) (g : Game num) : Game num :=
  let g := set_highestDeathHeight height g in
  set_host (set_localStorage (highestDeathHeight g :: localStorage (host g)) (host g)) g.

(** [recordDeathHeight(newHeight)] *)
Definition recordDeathHeight (newHeight : num) (g : Game num) : Game num :=
  let g := set_lastDeathHeight newHeight g in
  if newHeight >? highestDeathHeight g then saveHighestsDeath newHeight g else g.

(** [loadHighestDeath()]: the stored text is the number last written. *)
Definition loadHighestDeath (g : Game num) : Game num :=
  match localStorage (host g) with
  | saved :: _ => set_highestDeathHeight saved g
  | [] => g
  end.

Definition switchToScene (sceneID : SCENE_ID.t) (g : Game num) : Game num :=
  set_currentScene sceneID g.

(** [resetMenu()] *)
Definition resetMenu (g : Game num) : Game num :=
  let g := set_CAMERA (set_zoom CAMERA_ZOOM_DEFAULT (CAMERA g)) g in
  set_CAMERA (set_position CAMERA_POSITION_DEFAULT (CAMERA g)) g.

(** [transitionToMenu()] *)
Definition transitionToMenu (g : Game num) : Game num :=
  let g := resetMenu g in
  let g := set_CAMERA
    (set_position
       (Vec (x (position (CAMERA g)))
            (y CAMERA_POSITION_DEFAULT + MENU_TRANSITION_HEIGHT)) (CAMERA g)) g in
  switchToScene SCENE_ID.Menu g.

(** [updatePhysicsManager()], with [APP.ticker.elapsedMS] as an argument *)
Definition updatePhysicsManager (elapsedMS : num) (g : Game num) : Game num :=
  let m := physics g in
  let m := set_currentGameSpeed
    (lerp (currentGameSpeed m) (targetGameSpeed m) TIME_EASING_FACTOR) m in
  let m := set_timeSpeed (currentGameSpeed m * elapsedMS * decimal 1 1000) m in
  set_physics m g.

End Managers.

(** ** class Wave *)

Module Wave.
Section Defs.
Context {num : Type} `{JSNumber num}.
Local Open Scope num_scope.

(** [reset()] *)
Definition reset (this : Wave num) : Wave num :=
  set_wave_position (Vec (ofZ 0) (y CAMERA_POSITION_DEFAULT + ofZ 300)) this.

(** The constructor: [reset()], then the collider at the position, as wide
    as the canvas and twice as high. *)
Definition new : Wave num :=
  let this := reset (mkWave (Vec (ofZ 0) (ofZ 0))
                       (PIXI.mkRectangle (ofZ 0) (ofZ 0) (ofZ 0) (ofZ 0))) in
  set_bounds (PIXI.mkRectangle (x (wave_position this)) (y (wave_position this))
                (x APP_SIZE) (y APP_SIZE * ofZ 2)) this.

(** [update()] *)
Definition update (g : Game num) : Game num :=
  let this := WAVE g in
  let this := set_wave_position
    (Vec (x (wave_position this))
         (y (wave_position this) - WAVE_SPEED * timeSpeed (physics g))) this in
  let this :=
    match playerState (PLAYER g) with
    | PLAYER_STATE.Aiming => this
    | _ => set_wave_position
             (Vec (x (wave_position this))
                  (nmin (y (wave_position this))
                        (PIXI.bottom (boundingRectangle (CAMERA g)) + ofZ 100))) this
    end in
  let this := set_bounds (PIXI.set_rect_y (y (wave_position this)) (bounds this)) this in
  set_WAVE this g.

(** [isColliding(point)] *)
Definition isColliding (this : Wave num) (point : Victor num) : bool :=
  PIXI.contains (bounds this) (x point) (y point).

End Defs.
End Wave.

(** ** class Player *)

Module Player.
Section Defs.
Context {num : Type} `{JSNumber num}.
Local Open Scope num_scope.

(** [setFlingAmount(amount)] *)
Definition setFlingAmount (amount : Z) (this : Player num) : Player num :=
  let amount := if (amount <? 0)%Z then 0%Z else amount in
  let this := set_flings amount this in
  set_aimingNumber_text amount this.

(** The constructor with the default arguments *)
Definition new : Player num :=
  let scaleAmount := ofZ 20 in
  mkPlayer (PhysicsObject.new CAMERA_POSITION_DEFAULT (scaleAmount * decimal 5 10))
    PLAYER_STATE.Dead 0%Z (Vec (ofZ 0) (ofZ 0))
    (repeat (Vec (ofZ 0) (ofZ 0)) 5) false 0%Z.

(** [reset()] *)
Definition reset (this : Player num) : Player num :=
  let this := set_playerState PLAYER_STATE.Tutorial this in
  let this := set_body (set_vectorPosition CAMERA_POSITION_DEFAULT (body this)) this in
  let this := set_body (set_velocity (Vec (ofZ 0) (ofZ 0)) (body this)) this in
  let this := setFlingAmount STARTING_FLINGS this in
  set_flingForce (Vec (ofZ 0) (ofZ 0)) this.

(** [bounce(bound)] *)
Definition bounce (bound : num) (g : Game num) : Game num :=
  let this := PLAYER g in
  let this := set_body
    (set_vectorPosition (Vec bound (y (vectorPosition (body this)))) (body this)) this in
  let this := set_body
    (set_velocity (Vec (x (velocity (body this)) * ofZ (-1))
                       (y (velocity (body this)))) (body this)) this in
  playSound SFX_ID.Back (set_PLAYER this g).

(** [onAim()] *)
Definition onAim (g : Game num) : Game num :=
  match playerState (PLAYER g) with
  | PLAYER_STATE.Dead => g
  | _ =>
      let g := playSound SFX_ID.Aim g in
      let g := set_physics (set_targetGameSpeed (decimal 2 100) (physics g)) g in
      let g := set_PLAYER (set_aimingIndicator_visible true (PLAYER g)) g in
      set_PLAYER (set_playerState PLAYER_STATE.Aiming (PLAYER g)) g
  end.

(** [updateAimingIndicator()]: the positions of the indicators, and whether
    the fling is invalid. *)
Definition updateAimingIndicator (this : Player num) : Player num * bool :=
  let aimingVector := Victor.multiplyScalar (flingForce this) (decimal 7 10) in
  let place (i : nat) : Victor num :=
    let lerpAmount := INV_TOTAL_AIM_INDICATORS * ofZ (Z.of_nat i + 1) in
    lerp2D (Vec (ofZ 0) (ofZ 0)) aimingVector lerpAmount in
  let this := set_aimingIndicatorList
    (map place (seq 0 (length (aimingIndicatorList this)))) this in
  let isInvalid :=
    (Victor.lengthSq (flingForce this) <? FLING_FORCE_MIN) || (flings this =? 0)%Z in
  (this, isInvalid).

(** [whenAim()] *)
Definition whenAim (g : Game num) : Game num :=
  let this := set_flingForce
    (Victor.subtract (mouseDownCanvasPosition (input g))
                     (mouseCanvasPosition (input g))) (PLAYER g) in
  let g := set_PLAYER this g in
  let g := set_CAMERA
    (Camera.easeTo
       (Victor.add (last (aimingIndicatorList this) (Vec (ofZ 0) (ofZ 0)))
                   (vectorPosition (body this)))
       CAMERA_ZOOM_AIMING CAMERA_AIMING_EASING_FACTOR (CAMERA g)) g in
  let (this, _) := updateAimingIndicator (PLAYER g) in
  set_PLAYER this g.

(** [exitAiming()] *)
Definition exitAiming (g : Game num) : Game num :=
  let g := set_PLAYER (set_aimingIndicator_visible false (PLAYER g)) g in
  let g := set_physics (set_currentGameSpeed (decimal 5 10) (physics g)) g in
  set_physics (set_targetGameSpeed (ofZ 1) (physics g)) g.

(** [onDeath()] *)
Definition onDeath (g : Game num) : Game num :=
  let g := set_PLAYER (set_playerState PLAYER_STATE.Dead (PLAYER g)) g in
  let g := exitAiming g in
  let this := PLAYER g in
  let g := set_PLAYER
    (set_body (set_velocity (Vec (ofZ 0) (y (velocity (body this)))) (body this)) this) g in
  let g := playSound SFX_ID.Death g in
  recordDeathHeight
    (nceil (y (vectorPosition (body (PLAYER g))) * - decimal 1 10) + ofZ 100) g.

(** One round of the loop over [ORBS] in [checkCollisions()] *)
Definition hitOrb (orb : PhysicsObject num) (g : Game num)
  : PhysicsObject num * Game num :=
  let this := PLAYER g in
  if PhysicsObject.isColliding (body this) orb then
    let this := set_body
      (set_velocity
         (Vec (- x (velocity (body this)))
              (- nabs (y (velocity (body this))) * ORB_BOOST_MULTIPLIER))
         (body this)) this in
    let this := setFlingAmount (flings this + 1) this in
    let g := set_PLAYER this g in
    Orb.destroy (nextCameraBound (CAMERA g)) orb g
  else (orb, g).

(** One round of the loop over [SPIKES] in [checkCollisions()] *)
Definition hitSpike (spike : PhysicsObject num) (g : Game num)
  : PhysicsObject num * Game num :=
  let this := PLAYER g in
  if PhysicsObject.isColliding (body this) spike then
    let this := set_body
      (set_velocity
         (Victor.multiplyScalar (velocity (body this)) (- decimal 5 10))
         (body this)) this in
    let this := setFlingAmount (flings this - 1) this in
    let g := set_PLAYER this g in
    Spike.destroy (nextCameraBound (CAMERA g)) spike g
  else (spike, g).

(** [checkCollisions()] *)
Definition checkCollisions (g : Game num) : Game num :=
  let (orbs, g) := forEach hitOrb (ORBS g) g in
  let g := set_ORBS orbs g in
  let (spikes, g) := forEach hitSpike (SPIKES g) g in
  set_SPIKES spikes g.

(** [whenAlive()] *)
Definition whenAlive (g : Game num) : Game num :=
  if Wave.isColliding (WAVE g) (vectorPosition (body (PLAYER g)))
  then onDeath g
  else checkCollisions g.

(** [onFling()] *)
Definition onFling (g : Game num) : Game num :=
  match playerState (PLAYER g) with
  | PLAYER_STATE.Aiming =>
      let g := exitAiming g in
      let g := set_PLAYER (set_playerState PLAYER_STATE.Idle (PLAYER g)) g in
      let this := PLAYER g in
      if (Victor.lengthSq (flingForce this) <? FLING_FORCE_MIN) || (flings this =? 0)%Z
      then playSound SFX_ID.Spike g
      else
        let this := setFlingAmount (flings this - 1) this in
        let g := playSound SFX_ID.Fling (set_PLAYER this g) in
        let this := PLAYER g in
        set_PLAYER
          (set_body
             (set_velocity (Victor.multiplyScalar (flingForce this) (ofZ 5)) (body this))
             this) g
  | _ => g
  end.

(** [whenDead()] *)
Definition whenDead (g : Game num) : Game num :=
  if y (wave_position (WAVE g)) <? PIXI.top (boundingRectangle (CAMERA g))
  then transitionToMenu g
  else g.

(** [whenTutorial()] *)
Definition whenTutorial (g : Game num) : Game num :=
  let g := set_physics (set_targetGameSpeed (ofZ 0) (physics g)) g in
  set_physics (set_currentGameSpeed (ofZ 0) (physics g)) g.

(** The [switch] of [update()] *)
Definition dispatch (g : Game num) : Game num :=
  match playerState (PLAYER g) with
  | PLAYER_STATE.Dead => whenDead g
  | PLAYER_STATE.Idle => whenAlive g
  | PLAYER_STATE.Aiming => whenAim (whenAlive g)
  | PLAYER_STATE.Tutorial => whenTutorial g
  end.

(** "Apply gravity" in [update()] *)
Definition applyGravity (g : Game num) : Game num :=
  let this := PLAYER g in
  set_PLAYER
    (set_body
       (set_momentOfAcceleration
          (Victor.add (momentOfAcceleration (body this))
             (Victor.multiplyScalar GRAVITY (timeSpeed (physics g))))
          (body this)) this) g.

(** "Bounce off the walls" in [update()] *)
Definition bounceOffWalls (g : Game num) : Game num :=
  let px := x (vectorPosition (body (PLAYER g))) in
  let r := boundingRectangle (CAMERA g) in
  if px <? PIXI.left r then bounce (PIXI.left r) g
  else if px >? PIXI.right r then bounce (PIXI.right r) g
  else g.

(** [update()] *)
Definition update (g : Game num) : Game num :=
  let g := dispatch g in
  let g := applyGravity g in
  let g := bounceOffWalls g in
  set_PLAYER
    (set_body (PhysicsObject.update (timeSpeed (physics g)) (body (PLAYER g)))
       (PLAYER g)) g.

End Defs.
End Player.

(** ** Object manager, input manager, scenes, the game loop *)

Section Loop.
Context {num : Type} `{JSNumber num}.
Local Open Scope num_scope.

(** The [do ... while] of [resetObjects]: respawn until the obstacle keeps
    clear of the player.  The loop has no bound in the program; [fuel] bounds
    the number of rounds here, and [None] means that it was not enough. *)
Fixpoint respawnClear (fuel : nat) (respawn : Obstacle.method)
    (bounds : PIXI.Rectangle num) (personalSpace : num)
    (obstacle : PhysicsObject num) (g : Game num)
  : option (PhysicsObject num * Game num) :=
  match fuel with
  | O => None
  | S fuel =>
      let (obstacle, g) := respawn bounds obstacle g in
      if isColliding (vectorPosition obstacle) (colliderRadius obstacle)
           (vectorPosition (body (PLAYER g))) personalSpace
      then respawnClear fuel respawn bounds personalSpace obstacle g
      else Some (obstacle, g)
  end.

Fixpoint forEachClear (fuel : nat) (respawn : Obstacle.method)
    (bounds : PIXI.Rectangle num) (personalSpace : num)
    (l : list (PhysicsObject num)) (g : Game num)
  : option (list (PhysicsObject num) * Game num) :=
  match l with
  | [] => Some ([], g)
  | o :: rest =>
      match respawnClear fuel respawn bounds personalSpace o g with
      | None => None
      | Some (o', g) =>
          match forEachClear fuel respawn bounds personalSpace rest g with
          | None => None
          | Some (rest', g) => Some (o' :: rest', g)
          end
      end
  end.

(** [resetObjects(bounds)]; [OBSTACLES] lists the orbs, then the spikes. *)
Definition resetObjects (fuel : nat) (bounds : PIXI.Rectangle num) (g : Game num)
  : option (Game num) :=
  let personalSpace := colliderRadius (body (PLAYER g)) * ofZ 10 in
  match forEachClear fuel Orb.respawn bounds personalSpace (ORBS g) g with
  | None => None
  | Some (orbs, g) =>
      let g := set_ORBS orbs g in
      match forEachClear fuel Spike.respawn bounds personalSpace (SPIKES g) g with
      | None => None
      | Some (spikes, g) => Some (set_SPIKES spikes g)
      end
  end.

(** [updateObjects()]; [OBJECTS] lists the orbs, the spikes, then the player. *)
Definition updateObjects (g : Game num) : Game num :=
  let (orbs, g) := forEach Orb.update (ORBS g) g in
  let g := set_ORBS orbs g in
  let (spikes, g) := forEach Spike.update (SPIKES g) g in
  let g := set_SPIKES spikes g in
  let g := Player.update g in
  Wave.update g.

(** [document.onpointermove] *)
Definition onpointermove (clientX clientY : num) (g : Game num) : Game num :=
  let i := input g in
  let mouseClientPosition := Vec clientX clientY in
  set_input
    (mkInputManager mouseClientPosition
       (Victor.subtract mouseClientPosition (APP_CLIENT_POSITION (host g)))
       (mouseWorldPosition i) (mouseDown i)
       (mouseDownCanvasPosition i) (mouseUpCanvasPosition i)) g.

(** [APP.view.onpointerdown] *)
Definition onpointerdown (clientX clientY : num) (g : Game num) : Game num :=
  let i := input g in
  let g := set_input
    (mkInputManager (mouseClientPosition i) (mouseCanvasPosition i)
       (mouseWorldPosition i) true
       (Victor.subtract (Vec clientX clientY) (APP_CLIENT_POSITION (host g)))
       (mouseUpCanvasPosition i)) g in
  Player.onAim g.

(** [document.onpointerup] *)
Definition onpointerup (clientX clientY : num) (g : Game num) : Game num :=
  let i := input g in
  let g := set_input
    (mkInputManager (mouseClientPosition i) (mouseCanvasPosition i)
       (mouseWorldPosition i) false
       (mouseDownCanvasPosition i)
       (Victor.subtract (Vec clientX clientY) (APP_CLIENT_POSITION (host g)))) g in
  Player.onFling g.

(** [updateInputManager()] *)
Definition updateInputManager (g : Game num) : Game num :=
  let i := input g in
  set_input
    (mkInputManager (mouseClientPosition i) (mouseCanvasPosition i)
       (Camera.canvasToWorld (CAMERA g) (mouseCanvasPosition i)) (mouseDown i)
       (mouseDownCanvasPosition i) (mouseUpCanvasPosition i)) g.

(** [updateMenu()] *)
Definition updateMenu (g : Game num) : Game num :=
  let g := set_CAMERA
    (Camera.easeTo CAMERA_POSITION_DEFAULT CAMERA_ZOOM_DEFAULT
       CAMERA_AIMING_EASING_FACTOR (CAMERA g)) g in
  let g := set_CAMERA (Camera.update (CAMERA g)) g in
  updateInputManager g.

(** [updateGame()] *)
Definition updateGame (elapsedMS : num) (g : Game num) : Game num :=
  let easeFactor :=
    if Victor.lengthSq (velocity (body (PLAYER g))) >? ofZ 6000000
    then CAMERA_SPEEDING_EASING_FACTOR else CAMERA_EASING_FACTOR in
  let g := set_CAMERA
    (Camera.easeTo (vectorPosition (body (PLAYER g))) CAMERA_ZOOM_DEFAULT
       easeFactor (CAMERA g)) g in
  let g := set_CAMERA (Camera.update (CAMERA g)) g in
  let g := updateInputManager g in
  let g := updatePhysicsManager elapsedMS g in
  updateObjects g.

(** [resetGame()] *)
Definition resetGame (fuel : nat) (g : Game num) : option (Game num) :=
  let g := set_PLAYER (Player.reset (PLAYER g)) g in
  let g := set_CAMERA (set_zoom CAMERA_ZOOM_DEFAULT (CAMERA g)) g in
  let g := set_CAMERA (set_position CAMERA_POSITION_DEFAULT (CAMERA g)) g in
  let g := set_CAMERA (Camera.computeMatrix (CAMERA g)) g in
  match resetObjects fuel (boundingRectangle (CAMERA g)) g with
  | None => None
  | Some g => Some (set_WAVE (Wave.reset (WAVE g)) g)
  end.

(** [transitionToGame()] *)
Definition transitionToGame (fuel : nat) (g : Game num) : option (Game num) :=
  match resetGame fuel g with
  | None => None
  | Some g => Some (switchToScene SCENE_ID.Game g)
  end.

(** [update()], the game loop *)
Definition update (elapsedMS : num) (g : Game num) : Game num :=
  match currentScene g with
  | SCENE_ID.Menu => updateMenu g
  | SCENE_ID.Game => updateGame elapsedMS g
  end.

(** The state when [start()] returns: the objects of [initializeOjects(10, 7)],
    the camera as [resetMenu()] leaves it, the menu scene.  [clientPosition]
    is the page offset of the canvas, [stored] what [localStorage] holds. *)
Definition start (clientPosition : Victor num) (stored : list num)
    (entropy : nat -> num) : Game num :=
  let zero := Vec (ofZ 0) (ofZ 0) in
  let g := mkGame (Camera.new (Vec (ofZ 0) (x APP_SIZE))) Wave.new Player.new
             (repeat Orb.new 10) (repeat Spike.new 7)
             (mkPhysicsManager (ofZ 1) (ofZ 1) (ofZ 1))
             (mkInputManager zero zero zero false zero zero)
             SCENE_ID.Menu (ofZ 0) (ofZ 0)
             (mkHost clientPosition stored [] entropy 0) in
  let g := loadHighestDeath g in
  let g := resetMenu g in
  switchToScene SCENE_ID.Menu g.

(** *** What the host can do to the program *)

Inductive Event : Type :=
| pointermove (clientX clientY : num)   (* the pointer moves, anywhere *)
| pointerdown (clientX clientY : num)   (* a press on the canvas *)
| pointerup (clientX clientY : num)     (* a release, anywhere *)
| clickPlay                             (* the "Play" menu item is clicked *)
| clickLink                             (* another menu item is clicked *)
| overMenuItem                          (* the pointer enters a menu item *)
| tick (elapsedMS : num).               (* the ticker calls [update] *)

(** One event.  [fuel] bounds the rounds of the loops of [resetObjects]. *)
Definition step (fuel : nat) (e : Event) (g : Game num) : option (Game num) :=
  match e with
  | pointermove cx cy => Some (onpointermove cx cy g)
  | pointerdown cx cy => Some (onpointerdown cx cy g)
  | pointerup cx cy => Some (onpointerup cx cy g)
  | clickPlay =>
      match transitionToGame fuel g with
      | None => None
      | Some g => Some (playSound SFX_ID.Select g)
      end
  | clickLink => Some (playSound SFX_ID.Select g)
  | overMenuItem => Some (playSound SFX_ID.Swipe g)
  | tick elapsedMS => Some (update elapsedMS g)
  end.

(** A run *)
Fixpoint run (fuel : nat) (es : list Event) (g : Game num) : option (Game num) :=
  match es with
  | [] => Some g
  | e :: es =>
      match step fuel e g with
      | None => None
      | Some g => run fuel es g
      end
  end.

(** The states the program can be in *)
Inductive reachable : Game num -> Prop :=
| reachable_start clientPosition stored entropy :
    reachable (start clientPosition stored entropy)
| reachable_step fuel e g g' :
    reachable g -> step fuel e g = Some g' -> reachable g'.

End Loop.

(** * Properties *)

(** ** Releasing a fling *)

Section Fling.
Context {num : Type} `{JSNumber num}.
Local Open Scope num_scope.

(** The test of [onFling()] that cancels the fling *)
Definition flingInvalid (this : Player num) : bool :=
  (Victor.lengthSq (flingForce this) <? FLING_FORCE_MIN) || (flings this =? 0)%Z.

(** A release is cancelled when it leaves the velocity and the count as they were. *)
Definition cancelled (g g' : Game num) : Prop :=
  velocity (body (PLAYER g')) = velocity (body (PLAYER g)) /\
  flings (PLAYER g') = flings (PLAYER g).

Lemma setFlingAmount_flings (amount : Z) (this : Player num) :
  flings (Player.setFlingAmount amount this) = Z.max 0 amount.
Proof.
  unfold Player.setFlingAmount; cbn.
  destruct (Z.ltb_spec amount 0); lia.
Qed.

Lemma onFling_invalid (g : Game num) :
  playerState (PLAYER g) = PLAYER_STATE.Aiming ->
  flingInvalid (PLAYER g) = true ->
  Player.onFling g =
    playSound SFX_ID.Spike
      (set_PLAYER (set_playerState PLAYER_STATE.Idle (PLAYER (Player.exitAiming g)))
         (Player.exitAiming g)).
Proof.
  intros Hs Hi. unfold Player.onFling. rewrite Hs.
  unfold flingInvalid in Hi. cbn in *. now rewrite Hi.
Qed.

Lemma onFling_valid (g : Game num) :
  playerState (PLAYER g) = PLAYER_STATE.Aiming ->
  flingInvalid (PLAYER g) = false ->
  playerState (PLAYER (Player.onFling g)) = PLAYER_STATE.Idle /\
  flings (PLAYER (Player.onFling g)) = Z.max 0 (flings (PLAYER g) - 1) /\
  velocity (body (PLAYER (Player.onFling g))) =
    Victor.multiplyScalar (flingForce (PLAYER g)) (ofZ 5) /\
  played (host (Player.onFling g)) = played (host g) ++ [SFX_ID.Fling].
Proof.
  intros Hs Hi. unfold Player.onFling. rewrite Hs.
  unfold flingInvalid in Hi. cbn in *. rewrite Hi. cbn.
  repeat split. destruct (Z.ltb_spec (flings (PLAYER g) - 1) 0); cbn; lia.
Qed.

End Fling.

Section FlingRelease.
Context {num : Type} `{JSNumber num}.
Local Open Scope num_scope.

(** C1 (amended).  A release received while the player is [Aiming] always
    leaves the player [Idle]; it is cancelled (velocity and fling count left
    as they were, the "invalid" cue [Spike] played) exactly when
    [|flingForce|^2 < FLING_FORCE_MIN] or [flings == 0].  Whenever the
    comparison [|flingForce|^2 < FLING_FORCE_MIN] is false, which includes
    [|flingForce|^2 == 3500] as well as [3501], and [flings >= 1], the release
    is valid: the count goes down by exactly 1, the velocity becomes
    [flingForce * 5] and the cue [Fling] is played. *)
Theorem onFling_cancelled_iff_invalid (g : Game num) :
  playerState (PLAYER g) = PLAYER_STATE.Aiming ->
  let this := PLAYER g in
  let g' := Player.onFling g in
  playerState (PLAYER g') = PLAYER_STATE.Idle /\
  (cancelled g g' <->
     (Victor.lengthSq (flingForce this) <? FLING_FORCE_MIN) = true \/ flings this = 0%Z) /\
  (cancelled g g' -> played (host g') = played (host g) ++ [SFX_ID.Spike]) /\
  ((Victor.lengthSq (flingForce this) <? FLING_FORCE_MIN) = false ->
   (1 <= flings this)%Z ->
   flings (PLAYER g') = (flings this - 1)%Z /\
   velocity (body (PLAYER g')) = Victor.multiplyScalar (flingForce this) (ofZ 5) /\
   played (host g') = played (host g) ++ [SFX_ID.Fling]).
Proof.
  intros Hs this g'. subst this g'.
  assert (Hinv : flingInvalid (PLAYER g) = true <->
                 (Victor.lengthSq (flingForce (PLAYER g)) <? FLING_FORCE_MIN) = true \/
                 flings (PLAYER g) = 0%Z).
  { unfold flingInvalid. rewrite orb_true_iff, Z.eqb_eq. reflexivity. }
  destruct (flingInvalid (PLAYER g)) eqn:Hi.
  - (* cancelled *)
    destruct Hinv as [Hinv _]. specialize (Hinv eq_refl).
    rewrite (onFling_invalid g Hs Hi).
    assert (Hc : cancelled g
              (playSound SFX_ID.Spike
                 (set_PLAYER
                    (set_playerState PLAYER_STATE.Idle (PLAYER (Player.exitAiming g)))
                    (Player.exitAiming g)))) by (split; reflexivity).
    split; [reflexivity|]. split; [tauto|]. split; [reflexivity|].
    intros Hlt Hge. destruct Hinv as [Hlt' | Hz]; [congruence | lia].
  - (* valid *)
    destruct (onFling_valid g Hs Hi) as (Hst & Hfl & Hv & Hp).
    assert (Hnot : ~ ((Victor.lengthSq (flingForce (PLAYER g)) <? FLING_FORCE_MIN) = true \/
                      flings (PLAYER g) = 0%Z)).
    { intros Hor. apply Hinv in Hor. discriminate. }
    assert (Hnc : ~ cancelled g (Player.onFling g)).
    { intros [_ Hc]. rewrite Hfl in Hc. lia. }
    split; [assumption|]. split; [tauto|]. split; [tauto|].
    intros _ Hge. rewrite Hfl. repeat split; try assumption. lia.
Qed.

End FlingRelease.

(** The claim, as it was stated: a release at exactly the threshold is invalid. *)
Definition invalid_at_threshold {num : Type} `{JSNumber num} : Prop :=
  forall g : Game num,
    playerState (PLAYER g) = PLAYER_STATE.Aiming ->
    Victor.lengthSq (flingForce (PLAYER g)) = FLING_FORCE_MIN ->
    cancelled g (Player.onFling g).

(** A session in binary64: "Play", a press at [(0, 59.16079783099616)] with
    the pointer then at the origin of the canvas, and one frame.  The drag
    vector has squared length exactly 3500. *)
Definition threshold_session : option (Game float) :=
  run 3 [clickPlay; pointerdown 0 0x1.d949505f8b2b8p+5; pointermove 0 0; tick 16]%float
    (start (Vec 0 0)%float [] (fun _ => 0.125%float)).

Definition at_threshold : Game float :=
  match threshold_session with
  | Some g => g
  | None => start (Vec 0 0)%float [] (fun _ => 0.125%float)
  end.

(** C1, counterexample: the session above reaches a state where the player
    is aiming with [|flingForce|^2 == FLING_FORCE_MIN] and 5 flings; the
    release is not cancelled (the count drops to 4 and the velocity becomes
    [flingForce * 5]), so the claimed rule fails. *)
Lemma release_at_threshold_is_valid :
  threshold_session = Some at_threshold /\
  playerState (PLAYER at_threshold) = PLAYER_STATE.Aiming /\
  Victor.lengthSq (flingForce (PLAYER at_threshold)) = FLING_FORCE_MIN /\
  flings (PLAYER at_threshold) = 5%Z /\
  flings (PLAYER (onpointerup 0%float 0%float at_threshold)) = 4%Z /\
  velocity (body (PLAYER (Player.onFling at_threshold))) =
    Victor.multiplyScalar (flingForce (PLAYER at_threshold)) 5%float /\
  ~ cancelled at_threshold (Player.onFling at_threshold) /\
  ~ @invalid_at_threshold float _.
Proof.
  assert (Hn : ~ cancelled at_threshold (Player.onFling at_threshold)).
  { intros [_ Hc]. vm_compute in Hc. discriminate Hc. }
  split; [vm_compute; reflexivity|].
  split; [vm_compute; reflexivity|].
  split; [vm_compute; reflexivity|].
  split; [vm_compute; reflexivity|].
  split; [vm_compute; reflexivity|].
  split; [vm_compute; reflexivity|].
  split; [exact Hn|].
  intros Hall. apply Hn. apply Hall; vm_compute; reflexivity.
Qed.

(** The amended rule at the threshold itself *)
Lemma onFling_cancelled_iff_invalid_witness :
  let g := at_threshold in
  let g' := Player.onFling g in
  (Victor.lengthSq (flingForce (PLAYER g)) <? FLING_FORCE_MIN)%num = false /\
  (1 <= flings (PLAYER g))%Z /\
  playerState (PLAYER g') = PLAYER_STATE.Idle /\
  (cancelled g g' <->
     (Victor.lengthSq (flingForce (PLAYER g)) <? FLING_FORCE_MIN)%num = true \/
     flings (PLAYER g) = 0%Z) /\
  (cancelled g g' -> played (host g') = played (host g) ++ [SFX_ID.Spike]) /\
  ((Victor.lengthSq (flingForce (PLAYER g)) <? FLING_FORCE_MIN)%num = false ->
   (1 <= flings (PLAYER g))%Z ->
   flings (PLAYER g') = (flings (PLAYER g) - 1)%Z /\
   velocity (body (PLAYER g')) = Victor.multiplyScalar (flingForce (PLAYER g)) (ofZ 5) /\
   played (host g') = played (host g) ++ [SFX_ID.Fling]).
Proof.
  split; [vm_compute; reflexivity|].
  split; [vm_compute; discriminate|].
  apply (@onFling_cancelled_iff_invalid float _ at_threshold).
  vm_compute; reflexivity.
Defined.

(** ** Exact arithmetic: the comparisons of the [Q] instance *)

Lemma Qltb_true (a b : Q) : Qltb a b = true <-> a < b.
Proof.
  unfold Qltb. rewrite Qlt_alt. destruct (a ?= b); split; congruence.
Qed.

Lemma Qltb_false (a b : Q) : Qltb a b = false <-> b <= a.
Proof.
  unfold Qltb. rewrite Qle_alt.
  rewrite <- (Qcompare_antisym a b).
  destruct (a ?= b); cbn; split; congruence.
Qed.

Lemma Qle_bool_false (a b : Q) : Qle_bool a b = false <-> b < a.
Proof.
  split; intros Hf.
  - apply Qnot_le_lt. intros Hle. apply Qle_bool_iff in Hle. congruence.
  - destruct (Qle_bool a b) eqn:E; [|reflexivity].
    apply Qle_bool_iff in E. apply Qlt_not_le in Hf. contradiction.
Qed.

(** Unfolds the operations of the [Q] instance and the decimal constants. *)
Ltac unfold_num :=
  cbv [decimal ofZ nadd nsub nmul ndiv nneg nabs nmin nceil nltb nleb Q_JSNumber
       FRICTION GRAVITY WAVE_SPEED ORB_BOOST_MULTIPLIER FLING_FORCE_MIN APP_SIZE
       CAMERA_POSITION_DEFAULT CAMERA_ZOOM_DEFAULT CAMERA_ZOOM_AIMING
       CAMERA_EASING_FACTOR CAMERA_AIMING_EASING_FACTOR
       CAMERA_SPEEDING_EASING_FACTOR TIME_EASING_FACTOR MENU_TRANSITION_HEIGHT] in *.

(** ** The integration step *)

(** C5.  One tick of [PhysicsObject.update] with time step [t], in exact
    arithmetic: the velocity first gains [momentOfAcceleration * t]; the
    position then moves by that updated velocity times [t]; the friction
    [FRICTION * t], with [FRICTION = 0.9], is then taken off the updated velocity; the
    pending acceleration is reset to zero.  Nothing else of the object takes
    part, so position and velocity after a sequence of ticks are a function
    of the initial object and of the time steps. *)
Theorem update_integrates_in_order (t : Q) (o : PhysicsObject Q) :
  let o' := PhysicsObject.update t o in
  let v1x := x (velocity o) + x (momentOfAcceleration o) * t in
  let v1y := y (velocity o) + y (momentOfAcceleration o) * t in
  x (vectorPosition o') == x (vectorPosition o) + v1x * t /\
  y (vectorPosition o') == y (vectorPosition o) + v1y * t /\
  x (velocity o') == v1x - v1x * (FRICTION * t) /\
  y (velocity o') == v1y - v1y * (FRICTION * t) /\
  FRICTION == 9 # 10 /\
  momentOfAcceleration o' = Vec 0 0 /\
  PIXI.position (graphics o') = vectorPosition o' /\
  colliderRadius o' = colliderRadius o /\
  baseColliderRadius o' = baseColliderRadius o.
Proof.
  cbv [PhysicsObject.update PhysicsObject.updatePosition Victor.add
       Victor.subtract Victor.multiplyScalar]; cbn.
  unfold_num.
  repeat split; try reflexivity; try (cbn; field).
Qed.

(** ** What a method leaves alone *)

Section Frames.
Context {num : Type} `{JSNumber num}.
Local Open Scope num_scope.

(** [g'] differs from [g] in the host's logs and counters at most. *)
Definition hostOnly (g g' : Game num) : Prop := exists h, g' = set_host h g.

Lemma hostOnly_refl (g : Game num) : hostOnly g g.
Proof. exists (host g). now destruct g. Qed.

Lemma hostOnly_trans (g1 g2 g3 : Game num) :
  hostOnly g1 g2 -> hostOnly g2 g3 -> hostOnly g1 g3.
Proof. intros [h1 ->] [h2 ->]. now exists h2. Qed.

Lemma playSound_hostOnly (s : SFX_ID.t) (g : Game num) : hostOnly g (playSound s g).
Proof. eexists; reflexivity. Qed.


Lemma Orb_respawn_hostOnly bounds (o : PhysicsObject num) (g : Game num) :
  hostOnly g (snd (Orb.respawn bounds o g)).
Proof. eexists; reflexivity. Qed.

Lemma Spike_respawn_hostOnly bounds (o : PhysicsObject num) (g : Game num) :
  hostOnly g (snd (Spike.respawn bounds o g)).
Proof. eexists; reflexivity. Qed.

Lemma Orb_destroy_hostOnly bounds (o : PhysicsObject num) (g : Game num) :
  hostOnly g (snd (Orb.destroy bounds o g)).
Proof. eexists; reflexivity. Qed.

Lemma Spike_destroy_hostOnly bounds (o : PhysicsObject num) (g : Game num) :
  hostOnly g (snd (Spike.destroy bounds o g)).
Proof. eexists; reflexivity. Qed.

Lemma Obstacle_update_hostOnly (respawn : Obstacle.method) :
  (forall b o g, hostOnly g (snd (respawn b o g))) ->
  forall o g, hostOnly g (snd (Obstacle.update respawn o g)).
Proof.
  intros Hr o g. unfold Obstacle.update.
  destruct (_ >? _); [apply Hr | apply hostOnly_refl].
Qed.

(** A property of the state that every round of a loop keeps holds after the loop. *)
Lemma forEach_preserves (P : Game num -> Prop)
    (body : PhysicsObject num -> Game num -> PhysicsObject num * Game num) :
  (forall o g, P g -> P (snd (body o g))) ->
  forall l g, P g -> P (snd (forEach body l g)).
Proof.
  intros Hb l. induction l as [|o l IH]; intros g Hg; cbn; [assumption|].
  specialize (Hb o g Hg). destruct (body o g) as [o' g1]. cbn in Hb.
  specialize (IH g1 Hb). destruct (forEach body l g1) as [l' g2]. exact IH.
Qed.

Lemma forEach_hostOnly
    (body : PhysicsObject num -> Game num -> PhysicsObject num * Game num) :
  (forall o g, hostOnly g (snd (body o g))) ->
  forall l g, hostOnly g (snd (forEach body l g)).
Proof.
  intros Hb l g. apply (forEach_preserves (hostOnly g)); [|apply hostOnly_refl].
  intros o g1 H1. eapply hostOnly_trans; [exact H1 | apply Hb].
Qed.

Lemma forEach_length
    (body : PhysicsObject num -> Game num -> PhysicsObject num * Game num) l g :
  length (fst (forEach body l g)) = length l.
Proof.
  revert g. induction l as [|o l IH]; intros g; cbn; [reflexivity|].
  destruct (body o g) as [o' g1]. specialize (IH g1).
  destruct (forEach body l g1) as [l' g2]. cbn in *. now rewrite IH.
Qed.

End Frames.

(** ** Gravity *)

Section PlayerFrames.
Context {num : Type} `{JSNumber num}.
Local Open Scope num_scope.

(** What the collision reactions, death and the per-state handlers leave
    alone: everything but the player's velocity, fling count and its display,
    the aiming data, the time scales, the camera's easing, the scene, the
    recorded heights, the obstacles and the host's logs. *)
Definition keepsPhysics (g g' : Game num) : Prop :=
  WAVE g' = WAVE g /\
  input g' = input g /\
  timeSpeed (physics g') = timeSpeed (physics g) /\
  boundingRectangle (CAMERA g') = boundingRectangle (CAMERA g) /\
  nextCameraBound (CAMERA g') = nextCameraBound (CAMERA g) /\
  xBounds (CAMERA g') = xBounds (CAMERA g) /\
  vectorPosition (body (PLAYER g')) = vectorPosition (body (PLAYER g)) /\
  momentOfAcceleration (body (PLAYER g')) = momentOfAcceleration (body (PLAYER g)) /\
  colliderRadius (body (PLAYER g')) = colliderRadius (body (PLAYER g)) /\
  baseColliderRadius (body (PLAYER g')) = baseColliderRadius (body (PLAYER g)) /\
  entropy (host g') = entropy (host g) /\
  APP_CLIENT_POSITION (host g') = APP_CLIENT_POSITION (host g).

Lemma keepsPhysics_refl g : keepsPhysics g g.
Proof. repeat split. Qed.

Lemma keepsPhysics_trans g1 g2 g3 :
  keepsPhysics g1 g2 -> keepsPhysics g2 g3 -> keepsPhysics g1 g3.
Proof.
  unfold keepsPhysics. intros H1 H2.
  decompose [and] H1. decompose [and] H2.
  repeat split; congruence.
Qed.

Lemma hostOnly_keepsPhysics g g' :
  hostOnly g g' ->
  entropy (host g') = entropy (host g) ->
  APP_CLIENT_POSITION (host g') = APP_CLIENT_POSITION (host g) ->
  keepsPhysics g g'.
Proof. intros [h ->] He Ha. repeat split; assumption. Qed.

Lemma hitOrb_keepsPhysics o g : keepsPhysics g (snd (Player.hitOrb o g)).
Proof.
  unfold Player.hitOrb. destruct (PhysicsObject.isColliding _ _);
    [|apply keepsPhysics_refl].
  repeat split.
Qed.

Lemma hitSpike_keepsPhysics o g : keepsPhysics g (snd (Player.hitSpike o g)).
Proof.
  unfold Player.hitSpike. destruct (PhysicsObject.isColliding _ _);
    [|apply keepsPhysics_refl].
  repeat split.
Qed.

Lemma forEach_keepsPhysics
    (body : PhysicsObject num -> Game num -> PhysicsObject num * Game num) :
  (forall o g, keepsPhysics g (snd (body o g))) ->
  forall l g, keepsPhysics g (snd (forEach body l g)).
Proof.
  intros Hb l g. apply (forEach_preserves (keepsPhysics g)); [|apply keepsPhysics_refl].
  intros o g1 H1. eapply keepsPhysics_trans; [exact H1 | apply Hb].
Qed.

Lemma checkCollisions_keepsPhysics g : keepsPhysics g (Player.checkCollisions g).
Proof.
  unfold Player.checkCollisions.
  pose proof (forEach_keepsPhysics Player.hitOrb hitOrb_keepsPhysics (ORBS g) g) as H1.
  destruct (forEach Player.hitOrb (ORBS g) g) as [orbs g1]. cbn in H1.
  pose proof (forEach_keepsPhysics Player.hitSpike hitSpike_keepsPhysics
                (SPIKES (set_ORBS orbs g1)) (set_ORBS orbs g1)) as H2.
  destruct (forEach Player.hitSpike _ _) as [spikes g2]. cbn in H2.
  eapply keepsPhysics_trans; [exact H1|].
  eapply keepsPhysics_trans; [|eapply keepsPhysics_trans; [exact H2|]]; repeat split.
Qed.

Lemma onDeath_keepsPhysics g : keepsPhysics g (Player.onDeath g).
Proof.
  unfold Player.onDeath, recordDeathHeight.
  match goal with |- context [if ?c then _ else _] => destruct c end; repeat split.
Qed.

Lemma whenAlive_keepsPhysics g : keepsPhysics g (Player.whenAlive g).
Proof.
  unfold Player.whenAlive. destruct (Wave.isColliding _ _);
    [apply onDeath_keepsPhysics | apply checkCollisions_keepsPhysics].
Qed.

Lemma whenAim_keepsPhysics g : keepsPhysics g (Player.whenAim g).
Proof. repeat split. Qed.

Lemma whenDead_keepsPhysics g : keepsPhysics g (Player.whenDead g).
Proof. unfold Player.whenDead. destruct (_ <? _); repeat split. Qed.

Lemma dispatch_keepsPhysics g : keepsPhysics g (Player.dispatch g).
Proof.
  unfold Player.dispatch. destruct (playerState (PLAYER g)).
  - apply whenDead_keepsPhysics.
  - apply whenAlive_keepsPhysics.
  - eapply keepsPhysics_trans; [apply whenAlive_keepsPhysics | apply whenAim_keepsPhysics].
  - repeat split.
Qed.

End PlayerFrames.

Section Modes.
Context {num : Type} `{JSNumber num}.
Local Open Scope num_scope.

(** What the collision reactions leave alone besides [keepsPhysics]: the
    state of the player, the scene, the aiming data, the time scales, the
    camera and the recorded heights. *)
Definition keepsMode (g g' : Game num) : Prop :=
  playerState (PLAYER g') = playerState (PLAYER g) /\
  currentScene g' = currentScene g /\
  flingForce (PLAYER g') = flingForce (PLAYER g) /\
  aimingIndicatorList (PLAYER g') = aimingIndicatorList (PLAYER g) /\
  aimingIndicator_visible (PLAYER g') = aimingIndicator_visible (PLAYER g) /\
  physics g' = physics g /\
  CAMERA g' = CAMERA g /\
  lastDeathHeight g' = lastDeathHeight g /\
  highestDeathHeight g' = highestDeathHeight g /\
  localStorage (host g') = localStorage (host g).

Lemma keepsMode_refl g : keepsMode g g.
Proof. repeat split. Qed.

Lemma keepsMode_trans g1 g2 g3 :
  keepsMode g1 g2 -> keepsMode g2 g3 -> keepsMode g1 g3.
Proof.
  unfold keepsMode. intros H1 H2.
  decompose [and] H1. decompose [and] H2.
  repeat split; congruence.
Qed.

Lemma hitOrb_keepsMode o g : keepsMode g (snd (Player.hitOrb o g)).
Proof.
  unfold Player.hitOrb. destruct (PhysicsObject.isColliding _ _);
    [|apply keepsMode_refl].
  repeat split.
Qed.

Lemma hitSpike_keepsMode o g : keepsMode g (snd (Player.hitSpike o g)).
Proof.
  unfold Player.hitSpike. destruct (PhysicsObject.isColliding _ _);
    [|apply keepsMode_refl].
  repeat split.
Qed.

Lemma forEach_keepsMode
    (body : PhysicsObject num -> Game num -> PhysicsObject num * Game num) :
  (forall o g, keepsMode g (snd (body o g))) ->
  forall l g, keepsMode g (snd (forEach body l g)).
Proof.
  intros Hb l g. apply (forEach_preserves (keepsMode g)); [|apply keepsMode_refl].
  intros o g1 H1. eapply keepsMode_trans; [exact H1 | apply Hb].
Qed.

Lemma checkCollisions_keepsMode g : keepsMode g (Player.checkCollisions g).
Proof.
  unfold Player.checkCollisions.
  pose proof (forEach_keepsMode Player.hitOrb hitOrb_keepsMode (ORBS g) g) as H1.
  destruct (forEach Player.hitOrb (ORBS g) g) as [orbs g1]. cbn in H1.
  pose proof (forEach_keepsMode Player.hitSpike hitSpike_keepsMode
                (SPIKES (set_ORBS orbs g1)) (set_ORBS orbs g1)) as H2.
  destruct (forEach Player.hitSpike _ _) as [spikes g2]. cbn in H2.
  eapply keepsMode_trans; [exact H1|].
  eapply keepsMode_trans; [|eapply keepsMode_trans; [exact H2|]]; repeat split.
Qed.

(** *** The fling count is never negative *)

Definition flingsOk (g : Game num) : Prop := (0 <= flings (PLAYER g))%Z.

Lemma setFlingAmount_nonneg (amount : Z) (this : Player num) :
  (0 <= flings (Player.setFlingAmount amount this))%Z.
Proof. rewrite setFlingAmount_flings. lia. Qed.

Lemma hitOrb_flingsOk o g : flingsOk g -> flingsOk (snd (Player.hitOrb o g)).
Proof.
  unfold Player.hitOrb, flingsOk. intros Hg.
  destruct (PhysicsObject.isColliding _ _); [|exact Hg].
  cbn. destruct (Z.ltb_spec (flings (PLAYER g) + 1) 0); cbn; lia.
Qed.

Lemma hitSpike_flingsOk o g : flingsOk g -> flingsOk (snd (Player.hitSpike o g)).
Proof.
  unfold Player.hitSpike, flingsOk. intros Hg.
  destruct (PhysicsObject.isColliding _ _); [|exact Hg].
  cbn. destruct (Z.ltb_spec (flings (PLAYER g) - 1) 0); cbn; lia.
Qed.

Lemma checkCollisions_flingsOk g : flingsOk g -> flingsOk (Player.checkCollisions g).
Proof.
  intros Hg. unfold Player.checkCollisions.
  pose proof (forEach_preserves flingsOk Player.hitOrb hitOrb_flingsOk (ORBS g) g Hg) as H1.
  destruct (forEach Player.hitOrb (ORBS g) g) as [orbs g1]. cbn in H1.
  pose proof (forEach_preserves flingsOk Player.hitSpike hitSpike_flingsOk
                (SPIKES (set_ORBS orbs g1)) (set_ORBS orbs g1) H1) as H2.
  destruct (forEach Player.hitSpike _ _) as [spikes g2]. exact H2.
Qed.

Lemma onDeath_flings g : flings (PLAYER (Player.onDeath g)) = flings (PLAYER g).
Proof.
  unfold Player.onDeath, recordDeathHeight.
  match goal with |- context [if ?c then _ else _] => destruct c end; reflexivity.
Qed.

Lemma dispatch_flingsOk g : flingsOk g -> flingsOk (Player.dispatch g).
Proof.
  intros Hg.
  assert (Ha : flingsOk (Player.whenAlive g)).
  { unfold Player.whenAlive. destruct (Wave.isColliding _ _).
    - unfold flingsOk. now rewrite onDeath_flings.
    - now apply checkCollisions_flingsOk. }
  unfold Player.dispatch. destruct (playerState (PLAYER g)).
  - unfold Player.whenDead. destruct (_ <? _); exact Hg.
  - exact Ha.
  - exact Ha.
  - exact Hg.
Qed.

(** What [update()] does after the [switch]: the player's body changes, a
    bounce is heard, nothing else. *)
Lemma Player_update_shape g :
  exists b h,
    Player.update g =
      set_host h (set_PLAYER (set_body b (PLAYER (Player.dispatch g))) (Player.dispatch g)).
Proof.
  exists (body (PLAYER (Player.update g))), (host (Player.update g)).
  unfold Player.update, Player.bounceOffWalls.
  destruct (_ <? _); [|destruct (_ >? _)]; reflexivity.
Qed.

(** The obstacles of [g'] and the host's logs may differ from those of [g]. *)
Definition obstaclesOnly (g g' : Game num) : Prop :=
  exists orbs spikes h, g' = set_SPIKES spikes (set_ORBS orbs (set_host h g)).

Lemma updateObjects_shape g :
  exists g1, obstaclesOnly g g1 /\ updateObjects g = Wave.update (Player.update g1).
Proof.
  unfold updateObjects.
  pose proof (forEach_hostOnly Orb.update
                (Obstacle_update_hostOnly Orb.respawn Orb_respawn_hostOnly) (ORBS g) g) as H1.
  destruct (forEach Orb.update (ORBS g) g) as [orbs g1]. cbn in H1.
  destruct H1 as [h1 ->].
  pose proof (forEach_hostOnly Spike.update
                (Obstacle_update_hostOnly Spike.respawn Spike_respawn_hostOnly)
                (SPIKES (set_ORBS orbs (set_host h1 g))) (set_ORBS orbs (set_host h1 g))) as H2.
  destruct (forEach Spike.update _ _) as [spikes g2]. cbn in H2.
  destruct H2 as [h2 ->].
  eexists. split; [|reflexivity].
  exists orbs, spikes, h2. reflexivity.
Qed.

End Modes.

Section Steps.
Context {num : Type} `{JSNumber num}.
Local Open Scope num_scope.

Lemma respawnClear_hostOnly (respawn : Obstacle.method) :
  (forall b o g, hostOnly g (snd (respawn b o g))) ->
  forall fuel bounds space o g o' g',
    respawnClear fuel respawn bounds space o g = Some (o', g') -> hostOnly g g'.
Proof.
  intros Hr fuel. induction fuel as [|fuel IH]; intros bounds space o g o' g' Hs;
    cbn in Hs; [discriminate|].
  specialize (Hr bounds o g). destruct (respawn bounds o g) as [o1 g1]. cbn in Hr.
  destruct (isColliding _ _ _ _).
  - eapply hostOnly_trans; [exact Hr | eapply IH; exact Hs].
  - now inversion Hs; subst.
Qed.

Lemma forEachClear_hostOnly (respawn : Obstacle.method) :
  (forall b o g, hostOnly g (snd (respawn b o g))) ->
  forall fuel bounds space l g l' g',
    forEachClear fuel respawn bounds space l g = Some (l', g') -> hostOnly g g'.
Proof.
  intros Hr fuel bounds space l.
  induction l as [|o l IH]; intros g l' g' Hs; cbn in Hs.
  - inversion Hs; subst. apply hostOnly_refl.
  - destruct (respawnClear fuel respawn bounds space o g) as [[o1 g1]|] eqn:E1;
      [|discriminate].
    destruct (forEachClear fuel respawn bounds space l g1) as [[l2 g2]|] eqn:E2;
      [|discriminate].
    inversion Hs; subst.
    eapply hostOnly_trans;
      [eapply respawnClear_hostOnly; eassumption | eapply IH; eassumption].
Qed.

Lemma resetObjects_obstaclesOnly fuel bounds g g' :
  resetObjects fuel bounds g = Some g' -> obstaclesOnly g g'.
Proof.
  unfold resetObjects. intros Hs.
  destruct (forEachClear fuel Orb.respawn _ _ (ORBS g) g) as [[orbs g1]|] eqn:E1;
    [|discriminate].
  apply (forEachClear_hostOnly Orb.respawn Orb_respawn_hostOnly) in E1.
  destruct E1 as [h1 ->].
  destruct (forEachClear fuel Spike.respawn _ _ _ _) as [[spikes g2]|] eqn:E2;
    [|discriminate].
  apply (forEachClear_hostOnly Spike.respawn Spike_respawn_hostOnly) in E2.
  destruct E2 as [h2 ->]. inversion Hs; subst.
  exists orbs, spikes, h2. reflexivity.
Qed.

(** What "Play" does to the state, when the placing of the obstacles ends *)
Lemma transitionToGame_shape fuel g g' :
  transitionToGame fuel g = Some g' ->
  PLAYER g' = Player.reset (PLAYER g) /\
  currentScene g' = SCENE_ID.Game /\
  WAVE g' = Wave.reset (WAVE g) /\
  physics g' = physics g /\
  input g' = input g /\
  lastDeathHeight g' = lastDeathHeight g /\
  highestDeathHeight g' = highestDeathHeight g /\
  CAMERA g' =
    Camera.computeMatrix
      (set_position CAMERA_POSITION_DEFAULT (set_zoom CAMERA_ZOOM_DEFAULT (CAMERA g))).
Proof.
  unfold transitionToGame, resetGame. intros Hs.
  destruct (resetObjects fuel _ _) as [g1|] eqn:E; [|discriminate].
  apply resetObjects_obstaclesOnly in E. destruct E as (orbs & spikes & h & ->).
  inversion Hs; subst. repeat split.
Qed.

(** What a frame of the game scene does before the player and the wave are
    updated: camera, pointer and time, then the obstacles. *)
Lemma updateGame_shape elapsedMS g :
  exists g1,
    updateGame elapsedMS g = Wave.update (Player.update g1) /\
    PLAYER g1 = PLAYER g /\
    currentScene g1 = currentScene g /\
    WAVE g1 = WAVE g /\
    mouseDownCanvasPosition (input g1) = mouseDownCanvasPosition (input g) /\
    mouseCanvasPosition (input g1) = mouseCanvasPosition (input g) /\
    mouseUpCanvasPosition (input g1) = mouseUpCanvasPosition (input g) /\
    lastDeathHeight g1 = lastDeathHeight g /\
    highestDeathHeight g1 = highestDeathHeight g /\
    physics g1 = physics (updatePhysicsManager elapsedMS g) /\
    xBounds (CAMERA g1) = xBounds (CAMERA g).
Proof.
  unfold updateGame.
  match goal with |- context [updateObjects ?g0] =>
    destruct (updateObjects_shape g0) as (g1 & (orbs & spikes & h & ->) & Hu)
  end.
  eexists. split; [exact Hu|].
  cbn. repeat split.
  unfold Camera.update.
  repeat match goal with |- context [if ?c then _ else _] => destruct c end;
    reflexivity.
Qed.

End Steps.

Section Invariants.
Context {num : Type} `{JSNumber num}.
Local Open Scope num_scope.

Lemma run_reachable fuel es (g g' : Game num) :
  reachable g -> run fuel es g = Some g' -> reachable g'.
Proof.
  revert g. induction es as [|e es IH]; intros g Hg Hr; cbn in Hr.
  - now inversion Hr; subst.
  - destruct (step fuel e g) as [g1|] eqn:E; [|discriminate].
    eapply IH; [|exact Hr]. eapply reachable_step; eassumption.
Qed.

Lemma onDeath_playerState g :
  playerState (PLAYER (Player.onDeath g)) = PLAYER_STATE.Dead.
Proof.
  unfold Player.onDeath, recordDeathHeight.
  match goal with |- context [if ?c then _ else _] => destruct c end; reflexivity.
Qed.

(** The [switch] of [Player.update] keeps the state of the player or kills it;
    in the tutorial it only stops time. *)
Lemma dispatch_playerState g :
  playerState (PLAYER (Player.dispatch g)) = playerState (PLAYER g) \/
  playerState (PLAYER (Player.dispatch g)) = PLAYER_STATE.Dead.
Proof.
  assert (Ha : playerState (PLAYER (Player.whenAlive g)) = playerState (PLAYER g) \/
               playerState (PLAYER (Player.whenAlive g)) = PLAYER_STATE.Dead).
  { unfold Player.whenAlive. destruct (Wave.isColliding _ _).
    - right. apply onDeath_playerState.
    - left. apply checkCollisions_keepsMode. }
  unfold Player.dispatch. destruct (playerState (PLAYER g)) eqn:E.
  - unfold Player.whenDead. destruct (_ <? _); left; cbn; assumption.
  - exact Ha.
  - exact Ha.
  - left. exact E.
Qed.

Lemma update_playerState elapsedMS g :
  playerState (PLAYER (update elapsedMS g)) = playerState (PLAYER g) \/
  playerState (PLAYER (update elapsedMS g)) = PLAYER_STATE.Dead.
Proof.
  unfold update. destruct (currentScene g).
  - left. reflexivity.
  - destruct (updateGame_shape elapsedMS g) as (g1 & -> & Hp & _).
    destruct (Player_update_shape g1) as (b & h & ->).
    rewrite <- Hp. apply dispatch_playerState.
Qed.

(** A frame in the tutorial: the player stays in the tutorial, the scene
    stays, both time scales are 0 afterwards. *)
Lemma update_in_tutorial elapsedMS g :
  playerState (PLAYER g) = PLAYER_STATE.Tutorial ->
  currentScene g = SCENE_ID.Game ->
  playerState (PLAYER (update elapsedMS g)) = PLAYER_STATE.Tutorial /\
  currentScene (update elapsedMS g) = SCENE_ID.Game /\
  currentGameSpeed (physics (update elapsedMS g)) = ofZ 0 /\
  targetGameSpeed (physics (update elapsedMS g)) = ofZ 0.
Proof.
  intros Ht Hs. unfold update. rewrite Hs.
  destruct (updateGame_shape elapsedMS g) as (g1 & -> & Hp & Hsc & _).
  destruct (Player_update_shape g1) as (b & h & ->).
  unfold Player.dispatch. rewrite Hp, Ht. cbn.
  rewrite Hp, Ht, Hsc, Hs. repeat split.
Qed.

(** In a reachable state the player is in the tutorial only in the game scene. *)
Definition tutorialInGame (g : Game num) : Prop :=
  playerState (PLAYER g) = PLAYER_STATE.Tutorial -> currentScene g = SCENE_ID.Game.

Lemma onFling_flingsOk g : flingsOk g -> flingsOk (Player.onFling g).
Proof.
  unfold flingsOk, Player.onFling. intros Hg.
  destruct (playerState (PLAYER g)); try exact Hg.
  cbn. destruct (_ || _); cbn; [exact Hg|].
  destruct (Z.ltb_spec (flings (PLAYER g) - 1) 0); cbn; lia.
Qed.

Lemma onFling_playerState g :
  playerState (PLAYER (Player.onFling g)) =
    match playerState (PLAYER g) with
    | PLAYER_STATE.Aiming => PLAYER_STATE.Idle
    | s => s
    end /\
  currentScene (Player.onFling g) = currentScene g.
Proof.
  unfold Player.onFling. destruct (playerState (PLAYER g)) eqn:E; auto.
  cbn. destruct (_ || _); cbn; auto.
Qed.

Lemma onAim_playerState g :
  playerState (PLAYER (Player.onAim g)) =
    match playerState (PLAYER g) with
    | PLAYER_STATE.Dead => PLAYER_STATE.Dead
    | _ => PLAYER_STATE.Aiming
    end.
Proof. unfold Player.onAim. destruct (playerState (PLAYER g)) eqn:E; auto. Qed.

Lemma update_flingsOk elapsedMS g : flingsOk g -> flingsOk (update elapsedMS g).
Proof.
  intros Hg. unfold update. destruct (currentScene g); [exact Hg|].
  destruct (updateGame_shape elapsedMS g) as (g1 & -> & Hp & _).
  destruct (Player_update_shape g1) as (b & h & ->).
  apply dispatch_flingsOk. unfold flingsOk. now rewrite Hp.
Qed.

Lemma step_flingsOk fuel e g g' :
  step fuel e g = Some g' -> flingsOk g -> flingsOk g'.
Proof.
  destruct e; cbn; intros Hs Hg;
    [injection Hs as <- | injection Hs as <- | injection Hs as <- |
    | injection Hs as <- | injection Hs as <- | injection Hs as <-].
  - exact Hg.
  - unfold onpointerdown, Player.onAim, flingsOk. cbn.
    destruct (playerState (PLAYER g)); exact Hg.
  - unfold onpointerup. apply onFling_flingsOk. exact Hg.
  - destruct (transitionToGame fuel g) as [g1|] eqn:E; [|discriminate].
    injection Hs as <-.
    apply transitionToGame_shape in E. destruct E as (Hp & _).
    unfold flingsOk. cbn. rewrite Hp. cbn. unfold STARTING_FLINGS. lia.
  - exact Hg.
  - exact Hg.
  - now apply update_flingsOk.
Qed.

Lemma reachable_flingsOk g : reachable g -> flingsOk g.
Proof.
  induction 1 as [c s en | fuel e g g' _ IH Hs].
  - unfold flingsOk, start, loadHighestDeath. destruct s; cbn; lia.
  - eapply step_flingsOk; eassumption.
Qed.

Lemma step_tutorialInGame fuel e g g' :
  step fuel e g = Some g' -> tutorialInGame g -> tutorialInGame g'.
Proof.
  unfold tutorialInGame.
  destruct e; cbn; intros Hs Hg;
    [injection Hs as <- | injection Hs as <- | injection Hs as <- |
    | injection Hs as <- | injection Hs as <- | injection Hs as <-].
  - exact Hg.
  - unfold onpointerdown. rewrite onAim_playerState. cbn.
    destruct (playerState (PLAYER g)); discriminate.
  - unfold onpointerup.
    match goal with |- context [Player.onFling ?g0] =>
      destruct (onFling_playerState g0) as [-> ->] end.
    cbn. destruct (playerState (PLAYER g)); try discriminate; exact Hg.
  - destruct (transitionToGame fuel g) as [g1|] eqn:E; [|discriminate].
    injection Hs as <-.
    apply transitionToGame_shape in E. destruct E as (_ & Hsc & _).
    intros _. exact Hsc.
  - exact Hg.
  - exact Hg.
  - intros Ht.
    destruct (update_playerState elapsedMS g) as [Hk | Hd];
      [|rewrite Hd in Ht; discriminate].
    rewrite Hk in Ht.
    apply update_in_tutorial; auto.
Qed.

Lemma reachable_tutorialInGame g : reachable g -> tutorialInGame g.
Proof.
  induction 1 as [c s en | fuel e g g' _ IH Hs].
  - unfold tutorialInGame, start, loadHighestDeath. destruct s; cbn; discriminate.
  - eapply step_tutorialInGame; eassumption.
Qed.

End Invariants.

(** ** The fling count and the tutorial *)

Section FlingCount.
Context {num : Type} `{JSNumber num}.
Local Open Scope num_scope.

(** C7.  In every state the program can reach, by any sequence of pointer
    events, menu clicks and frames, the fling count of the player is not
    negative.  Every write goes through [setFlingAmount], which clamps at 0:
    a spike reaction leaves [max 0 (flings - 1)], and after the reactions to
    any list of spikes the count is still not negative. *)
Theorem flings_never_negative (g : Game num) :
  reachable g ->
  (0 <= flings (PLAYER g))%Z /\
  (forall amount (this : Player num), (0 <= flings (Player.setFlingAmount amount this))%Z) /\
  (forall spike,
     PhysicsObject.isColliding (body (PLAYER g)) spike = true ->
     flings (PLAYER (snd (Player.hitSpike spike g))) = Z.max 0 (flings (PLAYER g) - 1)) /\
  (forall spikes,
     (0 <= flings (PLAYER (snd (forEach Player.hitSpike spikes g))))%Z).
Proof.
  intros Hr. pose proof (reachable_flingsOk Hr) as Hg.
  split; [exact Hg|]. split; [apply setFlingAmount_nonneg|]. split.
  - intros spike Hc. unfold Player.hitSpike. rewrite Hc. cbn.
    destruct (Z.ltb_spec (flings (PLAYER g) - 1) 0); cbn; lia.
  - intros spikes.
    apply (forEach_preserves flingsOk Player.hitSpike (@hitSpike_flingsOk _ _)).
    exact Hg.
Qed.

(** C10.  [onAim] is guarded against the state [Dead] only: from any other
    state it leads to [Aiming].  In a reachable state where the player is in
    the tutorial, a press on the canvas starts aiming; every frame keeps the
    player in the tutorial and leaves both the current and the target time
    scale at 0; and an event after which the player is no longer in the
    tutorial is a press on the canvas. *)
Theorem tutorial_left_only_by_aim_start (g : Game num) :
  reachable g ->
  playerState (PLAYER g) = PLAYER_STATE.Tutorial ->
  (forall g0 : Game num,
     playerState (PLAYER (Player.onAim g0)) =
       match playerState (PLAYER g0) with
       | PLAYER_STATE.Dead => PLAYER_STATE.Dead
       | _ => PLAYER_STATE.Aiming
       end) /\
  (forall clientX clientY,
     playerState (PLAYER (onpointerdown clientX clientY g)) = PLAYER_STATE.Aiming) /\
  (forall elapsedMS,
     playerState (PLAYER (update elapsedMS g)) = PLAYER_STATE.Tutorial /\
     currentGameSpeed (physics (update elapsedMS g)) = ofZ 0 /\
     targetGameSpeed (physics (update elapsedMS g)) = ofZ 0) /\
  (forall fuel e g',
     step fuel e g = Some g' ->
     playerState (PLAYER g') <> PLAYER_STATE.Tutorial ->
     exists clientX clientY,
       e = pointerdown clientX clientY /\
       playerState (PLAYER g') = PLAYER_STATE.Aiming).
Proof.
  intros Hr Ht. pose proof (reachable_tutorialInGame Hr Ht) as Hsc.
  split; [apply onAim_playerState|].
  assert (Hdown : forall cx cy,
             playerState (PLAYER (onpointerdown cx cy g)) = PLAYER_STATE.Aiming).
  { intros cx cy. unfold onpointerdown. rewrite onAim_playerState. cbn.
    now rewrite Ht. }
  split; [exact Hdown|]. split.
  - intros ms. destruct (@update_in_tutorial _ _ ms g Ht Hsc) as (H1 & _ & H3 & H4).
    auto.
  - intros fuel e g' Hs Hn. destruct e; cbn in Hs.
    + injection Hs as <-. now elim Hn.
    + injection Hs as <-. eexists; eexists; split; [reflexivity | apply Hdown].
    + injection Hs as <-. elim Hn. unfold onpointerup.
      match goal with |- context [Player.onFling ?g0] =>
        destruct (onFling_playerState g0) as [-> _] end.
      cbn. now rewrite Ht.
    + destruct (transitionToGame fuel g) as [g1|] eqn:E; [|discriminate].
      injection Hs as <-. apply transitionToGame_shape in E.
      destruct E as (Hp & _). elim Hn. cbn. now rewrite Hp.
    + injection Hs as <-. now elim Hn.
    + injection Hs as <-. now elim Hn.
    + injection Hs as <-. elim Hn. apply (@update_in_tutorial _ _ elapsedMS g Ht Hsc).
Qed.

End FlingCount.

(** A session in exact arithmetic: "Play", then one frame of 16 ms. *)
Definition after_play : Game Q :=
  match run 3 [clickPlay; tick (16 # 1)] (start (Vec 0 0) [] (fun _ => 1 # 8)) with
  | Some g => g
  | None => start (Vec 0 0) [] (fun _ => 1 # 8)
  end.

Lemma after_play_reachable : reachable after_play.
Proof.
  apply (@run_reachable Q _ 3%nat [clickPlay; tick (16 # 1)]
           (start (Vec 0 0) [] (fun _ => 1 # 8))).
  - apply reachable_start.
  - vm_compute. reflexivity.
Qed.

Lemma flings_never_negative_witness :
  flings (PLAYER after_play) = 5%Z /\
  flings (PLAYER (snd (forEach Player.hitSpike
                         (repeat (body (PLAYER after_play)) 7) after_play))) = 0%Z /\
  (0 <= flings (PLAYER after_play))%Z /\
  (forall amount (this : Player Q), (0 <= flings (Player.setFlingAmount amount this))%Z) /\
  (forall spike,
     PhysicsObject.isColliding (body (PLAYER after_play)) spike = true ->
     flings (PLAYER (snd (Player.hitSpike spike after_play))) =
       Z.max 0 (flings (PLAYER after_play) - 1)) /\
  (forall spikes,
     (0 <= flings (PLAYER (snd (forEach Player.hitSpike spikes after_play))))%Z).
Proof.
  split; [vm_compute; reflexivity|].
  split; [vm_compute; reflexivity|].
  apply (@flings_never_negative Q _ after_play).
  exact after_play_reachable.
Defined.

Lemma tutorial_left_only_by_aim_start_witness :
  playerState (PLAYER after_play) = PLAYER_STATE.Tutorial /\
  (forall g0 : Game Q,
     playerState (PLAYER (Player.onAim g0)) =
       match playerState (PLAYER g0) with
       | PLAYER_STATE.Dead => PLAYER_STATE.Dead
       | _ => PLAYER_STATE.Aiming
       end) /\
  (forall clientX clientY,
     playerState (PLAYER (onpointerdown clientX clientY after_play)) =
       PLAYER_STATE.Aiming) /\
  (forall elapsedMS,
     playerState (PLAYER (update elapsedMS after_play)) = PLAYER_STATE.Tutorial /\
     currentGameSpeed (physics (update elapsedMS after_play)) = ofZ 0 /\
     targetGameSpeed (physics (update elapsedMS after_play)) = ofZ 0) /\
  (forall fuel e g',
     step fuel e after_play = Some g' ->
     playerState (PLAYER g') <> PLAYER_STATE.Tutorial ->
     exists clientX clientY,
       e = pointerdown clientX clientY /\
       playerState (PLAYER g') = PLAYER_STATE.Aiming).
Proof.
  split; [vm_compute; reflexivity|].
  apply (@tutorial_left_only_by_aim_start Q _ after_play).
  - exact after_play_reachable.
  - vm_compute; reflexivity.
Defined.

(** ** Death *)


(** ** The wave *)

Lemma Wave_update_clamped (g : Game Q) :
  playerState (PLAYER g) <> PLAYER_STATE.Aiming ->
  y (wave_position (WAVE (Wave.update g))) <=
    PIXI.bottom (boundingRectangle (CAMERA g)) + 100.
Proof.
  intros Hn. unfold Wave.update.
  destruct (playerState (PLAYER g)); try (now elim Hn); cbn; apply Q.le_min_r.
Qed.

Lemma Wave_update_collider {num : Type} `{JSNumber num} (g : Game num) :
  PIXI.rect_y (bounds (WAVE (Wave.update g))) = y (wave_position (WAVE (Wave.update g))) /\
  PLAYER (Wave.update g) = PLAYER g /\
  CAMERA (Wave.update g) = CAMERA g.
Proof. repeat split. Qed.

(** C3.  When the player is not [Aiming], [Wave.update] leaves the top edge
    of the wave at most 100 below the bottom of the camera's bounding
    rectangle, and it always leaves the collider's [y] equal to the wave's
    [y].  The same holds after a whole frame of the game scene, for the
    bounding rectangle that frame computed. *)
Theorem wave_catches_up (g : Game Q) :
  playerState (PLAYER g) <> PLAYER_STATE.Aiming ->
  (y (wave_position (WAVE (Wave.update g))) <=
     PIXI.bottom (boundingRectangle (CAMERA g)) + 100 /\
   PIXI.rect_y (bounds (WAVE (Wave.update g))) =
     y (wave_position (WAVE (Wave.update g)))) /\
  (forall elapsedMS,
     currentScene g = SCENE_ID.Game ->
     let g' := update elapsedMS g in
     y (wave_position (WAVE g')) <= PIXI.bottom (boundingRectangle (CAMERA g')) + 100 /\
     PIXI.rect_y (bounds (WAVE g')) = y (wave_position (WAVE g'))).
Proof.
  intros Hn. split.
  - split; [now apply Wave_update_clamped | apply Wave_update_collider].
  - intros ms Hs g'. subst g'. unfold update. rewrite Hs.
    destruct (updateGame_shape ms g) as (g1 & -> & Hp & _).
    split; [|apply Wave_update_collider].
    destruct (Wave_update_collider (Player.update g1)) as (_ & _ & ->).
    apply Wave_update_clamped.
    destruct (Player_update_shape g1) as (b & h & ->). cbn.
    destruct (dispatch_playerState g1) as [-> | ->]; [now rewrite Hp | discriminate].
Qed.

Lemma wave_catches_up_witness :
  playerState (PLAYER after_play) <> PLAYER_STATE.Aiming /\
  currentScene after_play = SCENE_ID.Game /\
  (y (wave_position (WAVE (Wave.update after_play))) <=
     PIXI.bottom (boundingRectangle (CAMERA after_play)) + 100 /\
   PIXI.rect_y (bounds (WAVE (Wave.update after_play))) =
     y (wave_position (WAVE (Wave.update after_play)))) /\
  (forall elapsedMS,
     currentScene after_play = SCENE_ID.Game ->
     let g' := update elapsedMS after_play in
     y (wave_position (WAVE g')) <= PIXI.bottom (boundingRectangle (CAMERA g')) + 100 /\
     PIXI.rect_y (bounds (WAVE g')) = y (wave_position (WAVE g'))).
Proof.
  split; [vm_compute; discriminate|].
  split; [vm_compute; reflexivity|].
  apply (@wave_catches_up after_play).
  vm_compute; discriminate.
Defined.

(** ** Gravity and time dilation *)

Section PendingAcceleration.
Context {num : Type} `{JSNumber num}.
Local Open Scope num_scope.

(** Between two frames the player has no pending acceleration. *)
Definition noPending (g : Game num) : Prop :=
  momentOfAcceleration (body (PLAYER g)) = Vec (ofZ 0) (ofZ 0).

Lemma Player_update_noPending g : noPending (Player.update g).
Proof.
  unfold noPending, Player.update, Player.bounceOffWalls.
  destruct (_ <? _); [|destruct (_ >? _)]; reflexivity.
Qed.

Lemma step_noPending fuel e g g' :
  step fuel e g = Some g' -> noPending g -> noPending g'.
Proof.
  unfold noPending.
  destruct e; cbn; intros Hs Hg;
    [injection Hs as <- | injection Hs as <- | injection Hs as <- |
    | injection Hs as <- | injection Hs as <- | injection Hs as <-].
  - exact Hg.
  - unfold onpointerdown, Player.onAim. cbn.
    destruct (playerState (PLAYER g)); exact Hg.
  - unfold onpointerup, Player.onFling. cbn.
    destruct (playerState (PLAYER g)); try exact Hg.
    cbn. destruct (_ || _); exact Hg.
  - destruct (transitionToGame fuel g) as [g1|] eqn:E; [|discriminate].
    injection Hs as <-. apply transitionToGame_shape in E.
    destruct E as (Hp & _). cbn. rewrite Hp. exact Hg.
  - exact Hg.
  - exact Hg.
  - unfold update. destruct (currentScene g); [exact Hg|].
    destruct (updateGame_shape elapsedMS g) as (g1 & -> & _).
    apply (Player_update_noPending g1).
Qed.

Lemma reachable_noPending g : reachable g -> noPending g.
Proof.
  induction 1 as [c s en | fuel e g g' _ IH Hs].
  - unfold noPending, start, loadHighestDeath. destruct s; reflexivity.
  - eapply step_noPending; eassumption.
Qed.

End PendingAcceleration.



(** ** The camera *)

Lemma computeMatrix_matrix (c : Camera Q) :
  matrix (Camera.computeMatrix c) =
    PIXI.mkMatrix (1 * zoom c) (0 * zoom c) (0 * zoom c) (1 * zoom c)
      ((0 + - x (position c)) * zoom c + 500 * (5 / 10))
      ((0 + - y (position c)) * zoom c + 750 * (5 / 10)) /\
  position (Camera.computeMatrix c) = position c /\
  zoom (Camera.computeMatrix c) = zoom c /\
  xBounds (Camera.computeMatrix c) = xBounds c.
Proof. repeat split. Qed.

(** [applyInverse] for a uniform scaling followed by a translation *)
Lemma applyInverse_zoom (z tx ty : Q) (p : Victor Q) :
  ~ z == 0 ->
  x (PIXI.applyInverse (PIXI.mkMatrix (1 * z) (0 * z) (0 * z) (1 * z) tx ty) p)
    == (x p - tx) / z /\
  y (PIXI.applyInverse (PIXI.mkMatrix (1 * z) (0 * z) (0 * z) (1 * z) tx ty) p)
    == (y p - ty) / z.
Proof.
  intros Hz. unfold PIXI.applyInverse.
  cbv [x y PIXI.m_a PIXI.m_b PIXI.m_c PIXI.m_d PIXI.m_tx PIXI.m_ty].
  unfold_num. split; field; exact Hz.
Qed.

Lemma computeMatrix_boundingRectangle (c : Camera Q) :
  let m := matrix (Camera.computeMatrix c) in
  let topLeft := PIXI.applyInverse m (Vec 0 0) in
  let bottomRight := PIXI.applyInverse m (Vec 500 750) in
  boundingRectangle (Camera.computeMatrix c) =
    PIXI.mkRectangle (x topLeft) (y topLeft)
      (x bottomRight - x topLeft) (y bottomRight - y topLeft) /\
  nextCameraBound (Camera.computeMatrix c) =
    PIXI.mkRectangle (x topLeft) (y topLeft - (y bottomRight - y topLeft))
      (x bottomRight - x topLeft) (y bottomRight - y topLeft).
Proof. split; reflexivity. Qed.

(** The view of a camera with a zoom other than 0: centred on the position,
    [APP_SIZE / zoom] wide and high; the next bound is the view moved up by
    its height. *)
Lemma computeMatrix_view (c : Camera Q) :
  ~ zoom c == 0 ->
  let c' := Camera.computeMatrix c in
  let r := boundingRectangle c' in
  PIXI.left r == x (position c) - 250 / zoom c /\
  PIXI.right r == x (position c) + 250 / zoom c /\
  PIXI.top r == y (position c) - 375 / zoom c /\
  PIXI.bottom r == y (position c) + 375 / zoom c /\
  PIXI.width r == 500 / zoom c /\
  PIXI.height r == 750 / zoom c /\
  PIXI.rect_x (nextCameraBound c') == PIXI.rect_x r /\
  PIXI.rect_y (nextCameraBound c') == PIXI.rect_y r - PIXI.height r /\
  PIXI.width (nextCameraBound c') == PIXI.width r /\
  PIXI.height (nextCameraBound c') == PIXI.height r.
Proof.
  intros Hz. cbv zeta.
  destruct (computeMatrix_boundingRectangle c) as [-> ->].
  destruct (computeMatrix_matrix c) as (-> & _).
  set (tx := (0 + - x (position c)) * zoom c + 500 * (5 / 10)).
  set (ty := (0 + - y (position c)) * zoom c + 750 * (5 / 10)).
  destruct (applyInverse_zoom tx ty (Vec 0 0) Hz) as [H1 H2].
  destruct (applyInverse_zoom tx ty (Vec 500 750) Hz) as [H3 H4].
  unfold PIXI.left, PIXI.right, PIXI.top, PIXI.bottom.
  cbv [PIXI.rect_x PIXI.rect_y PIXI.width PIXI.height].
  unfold_num. cbv [x y] in H1, H2, H3, H4.
  rewrite H1, H2, H3, H4. subst tx ty.
  repeat split; field; exact Hz.
Qed.

(** The view after the position was moved left by [d] *)
Lemma clamp_view (c0 : Camera Q) (d : Q) :
  ~ zoom c0 == 0 ->
  let c1 := Camera.computeMatrix
              (set_position (Vec (x (position c0) - d) (y (position c0))) c0) in
  PIXI.left (boundingRectangle c1) == x (position c0) - d - 250 / zoom c0 /\
  PIXI.right (boundingRectangle c1) == x (position c0) - d + 250 / zoom c0 /\
  zoom c1 = zoom c0 /\
  xBounds c1 = xBounds c0 /\
  y (position c1) = y (position c0).
Proof.
  intros Hz. cbv zeta.
  set (c1 := set_position (Vec (x (position c0) - d) (y (position c0))) c0).
  assert (Hz1 : ~ zoom c1 == 0) by exact Hz.
  pose proof (computeMatrix_view c1 Hz1) as V. cbv zeta in V.
  destruct V as (Hl & Hr & _).
  destruct (computeMatrix_matrix c1) as (_ & Hp & Hzm & Hxb).
  rewrite Hl, Hr, Hp, Hzm, Hxb.
  repeat split; reflexivity.
Qed.

(** [update()] after its first [computeMatrix()] *)
Definition clamped {num : Type} `{JSNumber num} (this : Camera num) : Camera num :=
  let overlapLeft := (PIXI.left (boundingRectangle this) - x (xBounds this))%num in
  let overlapRight := (PIXI.right (boundingRectangle this) - y (xBounds this))%num in
  if (overlapLeft <? ofZ 0)%num then
    Camera.computeMatrix
      (set_position (Vec (x (position this) - overlapLeft)%num (y (position this))) this)
  else if (overlapRight >? ofZ 0)%num then
    Camera.computeMatrix
      (set_position (Vec (x (position this) - overlapRight)%num (y (position this))) this)
  else this.

Lemma Camera_update_clamped {num : Type} `{JSNumber num} (c : Camera num) :
  Camera.update c = clamped (Camera.computeMatrix c).
Proof. reflexivity. Qed.

Lemma clamped_view (c0 : Camera Q) (px z : Q) :
  0 < z ->
  zoom c0 = z ->
  PIXI.left (boundingRectangle c0) == px - 250 / z ->
  PIXI.right (boundingRectangle c0) == px + 250 / z ->
  x (position c0) = px ->
  let r := boundingRectangle (clamped c0) in
  let lo := x (xBounds c0) in
  let hi := y (xBounds c0) in
  (500 / z <= hi - lo -> lo <= PIXI.left r /\ PIXI.right r <= hi) /\
  (PIXI.left (boundingRectangle c0) < lo ->
   PIXI.left r == lo /\ PIXI.right r == lo + 500 / z) /\
  (lo <= PIXI.left (boundingRectangle c0) -> hi < PIXI.right (boundingRectangle c0) ->
   PIXI.right r == hi /\ PIXI.left r == hi - 500 / z) /\
  (lo <= PIXI.left (boundingRectangle c0) -> PIXI.right (boundingRectangle c0) <= hi ->
   clamped c0 = c0) /\
  zoom (clamped c0) = z /\
  y (position (clamped c0)) = y (position c0).
Proof.
  intros Hz Hzm Hl Hr Hp. cbv zeta.
  assert (Hz' : ~ z == 0) by (intros E; rewrite E in Hz; now apply Qlt_irrefl in Hz).
  assert (Hz0 : ~ zoom c0 == 0) by (rewrite Hzm; exact Hz').
  assert (Hw : 0 < 250 / z).
  { apply Qlt_shift_div_l; [exact Hz | ring_simplify; reflexivity]. }
  assert (Hw2 : 500 / z == 2 * (250 / z)) by (field; exact Hz').
  unfold clamped.
  destruct (nltb (nsub (PIXI.left (boundingRectangle c0)) (x (xBounds c0))) (ofZ 0))
    eqn:E1.
  - apply Qltb_true in E1.
    destruct (clamp_view c0
                (nsub (PIXI.left (boundingRectangle c0)) (x (xBounds c0))) Hz0)
      as (Cl & Cr & Cz & Cx & Cy).
    cbv zeta in Cl, Cr, Cz, Cx, Cy.
    cbv [nsub ofZ Q_JSNumber inject_Z] in *.
    rewrite Cl, Cr, Cz, Cy, Hzm, Hp.
    repeat split; intros; try reflexivity; try lra.
  - apply Qltb_false in E1.
    destruct (nltb (ofZ 0) (nsub (PIXI.right (boundingRectangle c0)) (y (xBounds c0))))
      eqn:E2.
    + apply Qltb_true in E2.
      destruct (clamp_view c0
                  (nsub (PIXI.right (boundingRectangle c0)) (y (xBounds c0))) Hz0)
        as (Cl & Cr & Cz & Cx & Cy).
      cbv zeta in Cl, Cr, Cz, Cx, Cy.
      cbv [nsub ofZ Q_JSNumber inject_Z] in *.
      rewrite Cl, Cr, Cz, Cy, Hzm, Hp.
      repeat split; intros; try reflexivity; try lra.
    + apply Qltb_false in E2.
      cbv [nsub ofZ Q_JSNumber inject_Z] in *.
      repeat split; intros; try reflexivity; try assumption; try lra.
Qed.



(** The game's camera ([xBounds = (0, 500)]) at [position] with [zoom] *)
Definition camera_at (position : Victor Q) (zoom : Q) : Camera Q :=
  set_zoom zoom (set_position position (Camera.new (Vec 0 500))).



(** ** Collisions with orbs and spikes *)

Section CollisionLoops.
Context {num : Type} `{JSNumber num}.
Local Open Scope num_scope.







(** A round of either loop changes the player and the host's logs only. *)
Definition playerAndHostOnly (g g' : Game num) : Prop :=
  exists p h, g' = set_host h (set_PLAYER p g).

Lemma playerAndHostOnly_refl g : playerAndHostOnly g g.
Proof. exists (PLAYER g), (host g). now destruct g. Qed.


Lemma hitOrb_playerAndHostOnly o g : playerAndHostOnly g (snd (Player.hitOrb o g)).
Proof.
  unfold Player.hitOrb. destruct (PhysicsObject.isColliding _ _);
    [|apply playerAndHostOnly_refl].
  eexists; eexists; reflexivity.
Qed.

Lemma hitSpike_playerAndHostOnly o g : playerAndHostOnly g (snd (Player.hitSpike o g)).
Proof.
  unfold Player.hitSpike. destruct (PhysicsObject.isColliding _ _);
    [|apply playerAndHostOnly_refl].
  eexists; eexists; reflexivity.
Qed.



End CollisionLoops.

(** [Math.random] returns a number in [0, 1). *)
Definition unitInterval (entropy : nat -> Q) : Prop :=
  forall n, 0 <= entropy n /\ entropy n < 1.

(** A respawn puts the obstacle inside the bounds and draws a scale between
    the two limits; the collider follows the scale. *)
Lemma respawn_in_bounds (bounds : PIXI.Rectangle Q) (scaleMin scaleMax : Q)
    (o : PhysicsObject Q) (g : Game Q) :
  unitInterval (entropy (host g)) ->
  0 <= PIXI.width bounds -> 0 <= PIXI.height bounds -> scaleMin <= scaleMax ->
  let o' := fst (Obstacle.respawn bounds scaleMin scaleMax o g) in
  let g' := snd (Obstacle.respawn bounds scaleMin scaleMax o g) in
  (PIXI.left bounds <= x (vectorPosition o') /\
   x (vectorPosition o') <= PIXI.right bounds) /\
  (PIXI.top bounds <= y (vectorPosition o') /\
   y (vectorPosition o') <= PIXI.bottom bounds) /\
  (scaleMin <= PIXI.scale (graphics o') /\ PIXI.scale (graphics o') <= scaleMax) /\
  colliderRadius o' = baseColliderRadius o * PIXI.scale (graphics o') /\
  PIXI.position (graphics o') = vectorPosition o' /\
  velocity o' = velocity o /\
  drawn (host g') = (drawn (host g) + 3)%nat /\
  played (host g') = played (host g).
Proof.
  intros Hu Hw Hh Hs. cbv zeta.
  unfold Obstacle.respawn, randomRange2D, randomRange, random, Math_random,
    PhysicsObject.setScale, PhysicsObject.updatePosition,
    PIXI.left, PIXI.right, PIXI.top, PIXI.bottom.
  cbn.
  destruct (Hu (drawn (host g))) as [A1 A2].
  destruct (Hu (S (drawn (host g)))) as [B1 B2].
  destruct (Hu (S (S (drawn (host g))))) as [C1 C2].
  set (r1 := entropy (host g) (drawn (host g))) in *.
  set (r2 := entropy (host g) (S (drawn (host g)))) in *.
  set (r3 := entropy (host g) (S (S (drawn (host g))))) in *.
  set (w := PIXI.width bounds) in *. set (h := PIXI.height bounds) in *.
  set (bx := PIXI.rect_x bounds). set (by_ := PIXI.rect_y bounds).
  repeat split; try reflexivity; try nra; try lia.
Qed.


(** The state after "Play" and one frame, with the player moving at
    [(10, -50)] and the first orb and the first spike moved onto it. *)
Definition on_an_orb : Game Q :=
  let here := vectorPosition (body (PLAYER after_play)) in
  let moving :=
    set_body (set_velocity (Vec 10 (-50)) (body (PLAYER after_play)))
      (PLAYER after_play) in
  let onto (l : list (PhysicsObject Q)) :=
    match l with
    | o :: rest => set_vectorPosition here o :: rest
    | [] => []
    end in
  set_PLAYER moving
    (set_SPIKES (onto (SPIKES after_play)) (set_ORBS (onto (ORBS after_play)) after_play)).


(** ** The force of a fling *)

Section FlingForce.
Context {num : Type} `{JSNumber num}.
Local Open Scope num_scope.

(** A frame of the game scene with the player aiming samples the drag. *)
Lemma update_samples_flingForce elapsedMS (g : Game num) :
  currentScene g = SCENE_ID.Game ->
  playerState (PLAYER g) = PLAYER_STATE.Aiming ->
  flingForce (PLAYER (update elapsedMS g)) =
    Victor.subtract (mouseDownCanvasPosition (input g)) (mouseCanvasPosition (input g)).
Proof.
  intros Hs Ha. unfold update. rewrite Hs.
  destruct (updateGame_shape elapsedMS g) as (g1 & -> & Hp & _ & _ & Hd & Hm & _).
  destruct (Player_update_shape g1) as (b & h & ->).
  unfold Player.dispatch. rewrite Hp, Ha.
  destruct (whenAlive_keepsPhysics g1) as (_ & Hi & _).
  cbn. now rewrite Hi, Hd, Hm.
Qed.

(** C4 (amended).  The force of a fling is the field [flingForce], which
    [whenAim] sets at every frame in which the player is aiming to
    [mouseDownCanvasPosition - mouseCanvasPosition], the press position minus
    the pointer position last received before that frame.  A release latches
    its position in [mouseUpCanvasPosition] and nothing reads it: whatever
    the release position, the player ends the same, and on a valid fling the
    velocity is the [flingForce] of the last aiming frame times 5. *)
Theorem fling_uses_last_sampled_force (g : Game num) :
  playerState (PLAYER g) = PLAYER_STATE.Aiming ->
  (forall elapsedMS,
     currentScene g = SCENE_ID.Game ->
     flingForce (PLAYER (update elapsedMS g)) =
       Victor.subtract (mouseDownCanvasPosition (input g))
                       (mouseCanvasPosition (input g))) /\
  (forall clientX clientY,
     let g' := onpointerup clientX clientY g in
     mouseUpCanvasPosition (input g') =
       Victor.subtract (Vec clientX clientY) (APP_CLIENT_POSITION (host g)) /\
     PLAYER g' = PLAYER (Player.onFling g) /\
     flingForce (PLAYER g') = flingForce (PLAYER g) /\
     (flingInvalid (PLAYER g) = false ->
      velocity (body (PLAYER g')) =
        Victor.multiplyScalar (flingForce (PLAYER g)) (ofZ 5))).
Proof.
  intros Ha. split.
  - intros ms Hs. now apply update_samples_flingForce.
  - intros cx cy. cbv zeta.
    assert (Hp : PLAYER (onpointerup cx cy g) = PLAYER (Player.onFling g)).
    { unfold onpointerup, Player.onFling. cbn. rewrite Ha. cbn.
      destruct (_ || _); reflexivity. }
    split; [|split; [exact Hp|]].
    + unfold onpointerup, Player.onFling. cbn. rewrite Ha. cbn.
      destruct (_ || _); reflexivity.
    + rewrite Hp. split.
      * unfold Player.onFling. rewrite Ha. cbn. destruct (_ || _); reflexivity.
      * intros Hv. apply (onFling_valid g Ha Hv).
Qed.

End FlingForce.

(** The claim, as it was stated: a valid fling released at [(clientX,
    clientY)] gives the velocity (press position - release position) * 5. *)
Definition fling_from_release_position {num : Type} `{JSNumber num} : Prop :=
  forall (g : Game num) (clientX clientY : num),
    playerState (PLAYER g) = PLAYER_STATE.Aiming ->
    flingInvalid (PLAYER g) = false ->
    let g' := onpointerup clientX clientY g in
    velocity (body (PLAYER g')) =
      Victor.multiplyScalar
        (Victor.subtract (mouseDownCanvasPosition (input g'))
                         (mouseUpCanvasPosition (input g'))) (ofZ 5).

(** A session in binary64: "Play", a press at (100, 100), a drag to
    (100, 40), one frame, a further drag to (100, 0). *)
Definition dragged_on : Game float :=
  match run 3 [clickPlay; pointerdown 100 100; pointermove 100 40; tick 16;
               pointermove 100 0]%float
          (start (Vec 0 0)%float [] (fun _ => 0.125%float)) with
  | Some g => g
  | None => start (Vec 0 0)%float [] (fun _ => 0.125%float)
  end.

(** C4, counterexample: released at (100, 0), the session above flings the
    player with velocity [(0, 300)], five times the drag [(0, 60)] the last
    frame saw, not five times press minus release, [(0, 500)].  Released at
    once after the press, with no frame in between, the same drag is
    cancelled: the force is still the [(0, 0)] of the reset. *)
Lemma fling_ignores_release_position :
  let g := dragged_on in
  let g' := onpointerup 100%float 0%float g in
  (playerState (PLAYER g) = PLAYER_STATE.Aiming /\
   flingInvalid (PLAYER g) = false /\
   mouseDownCanvasPosition (input g') = Vec 100%float 100%float /\
   mouseUpCanvasPosition (input g') = Vec 100%float 0%float /\
   flingForce (PLAYER g) = Vec 0%float 60%float /\
   velocity (body (PLAYER g')) = Vec 0%float 300%float /\
   Victor.multiplyScalar
     (Victor.subtract (mouseDownCanvasPosition (input g'))
                      (mouseUpCanvasPosition (input g'))) 5%float
     = Vec 0%float 500%float) /\
  option_map (fun g => (flings (PLAYER g), played (host g)))
    (run 3 [clickPlay; pointerdown 100 100; pointermove 100 40; pointerup 100 40]%float
       (start (Vec 0 0)%float [] (fun _ => 0.125%float)))
    = Some (5%Z, [SFX_ID.Select; SFX_ID.Aim; SFX_ID.Spike]) /\
  ~ @fling_from_release_position float _.
Proof.
  cbv zeta.
  split; [|split].
  - split; [vm_compute; reflexivity|].
    split; [vm_compute; reflexivity|].
    split; [vm_compute; reflexivity|].
    split; [vm_compute; reflexivity|].
    split; [vm_compute; reflexivity|].
    split; vm_compute; reflexivity.
  - vm_compute; reflexivity.
  - intros Hall.
    specialize (Hall dragged_on 100%float 0%float).
    cbv zeta in Hall.
    assert (Hne : velocity (body (PLAYER (onpointerup 100%float 0%float dragged_on))) <>
                  Victor.multiplyScalar
                    (Victor.subtract
                       (mouseDownCanvasPosition
                          (input (onpointerup 100%float 0%float dragged_on)))
                       (mouseUpCanvasPosition
                          (input (onpointerup 100%float 0%float dragged_on))))
                    (ofZ 5)).
    { vm_compute. discriminate. }
    apply Hne, Hall; vm_compute; reflexivity.
Qed.

Lemma fling_uses_last_sampled_force_witness :
  let g := dragged_on in
  currentScene g = SCENE_ID.Game /\
  flingInvalid (PLAYER g) = false /\
  (forall elapsedMS,
     currentScene g = SCENE_ID.Game ->
     flingForce (PLAYER (update elapsedMS g)) =
       Victor.subtract (mouseDownCanvasPosition (input g))
                       (mouseCanvasPosition (input g))) /\
  (forall clientX clientY,
     let g' := onpointerup clientX clientY g in
     mouseUpCanvasPosition (input g') =
       Victor.subtract (Vec clientX clientY) (APP_CLIENT_POSITION (host g)) /\
     PLAYER g' = PLAYER (Player.onFling g) /\
     flingForce (PLAYER g') = flingForce (PLAYER g) /\
     (flingInvalid (PLAYER g) = false ->
      velocity (body (PLAYER g')) =
        Victor.multiplyScalar (flingForce (PLAYER g)) (ofZ 5))).
Proof.
  split; [vm_compute; reflexivity|].
  split; [vm_compute; reflexivity|].
  apply (@fling_uses_last_sampled_force float _ dragged_on).
  vm_compute; reflexivity.
Defined.

(** * Further properties of the code *)

(** ** Circles *)

Lemma Qltb_compat (a a' b b' : Q) : a == a' -> b == b' -> Qltb a b = Qltb a' b'.
Proof. intros Ha Hb. unfold Qltb. now rewrite Ha, Hb. Qed.

(** The overlap test of two circles does not depend on their order and is
    strict: it holds exactly when the squared distance of the centres is
    below the square of the sum of the radii, so circles that touch do not
    collide.  The test of a circle against a point is the test against a
    circle of radius 0. *)
Theorem isColliding_symmetric_strict (p1 p2 : Victor Q) (r1 r2 : Q) :
  isColliding p1 r1 p2 r2 = isColliding p2 r2 p1 r1 /\
  (isColliding p1 r1 p2 r2 = true <->
   Victor.distanceSq p1 p2 < (r1 + r2) * (r1 + r2)) /\
  (isColliding p1 r1 p2 r2 = false <->
   (r1 + r2) * (r1 + r2) <= Victor.distanceSq p1 p2) /\
  isCircleCollidingWithPoint p1 r1 p2 = isColliding p1 r1 p2 0 /\
  Victor.distanceSq p1 p2 ==
    (x p1 - x p2) * (x p1 - x p2) + (y p1 - y p2) * (y p1 - y p2).
Proof.
  unfold isColliding, isCircleCollidingWithPoint, Victor.distanceSq.
  cbv [nltb nadd nsub nmul Q_JSNumber].
  split; [apply Qltb_compat; ring|].
  split; [apply Qltb_true|].
  split; [apply Qltb_false|].
  split; [apply Qltb_compat; ring | reflexivity].
Qed.

(** ** Easing *)

Fixpoint Qpow (q : Q) (n : nat) : Q :=
  match n with
  | O => 1
  | S n => q * Qpow q n
  end.

Lemma lerp_remaining (a b t : Q) : b - lerp a b t == (1 - t) * (b - a).
Proof. unfold lerp. cbv [nadd nsub nmul Q_JSNumber]. ring. Qed.

Lemma easeTo_step (c : Camera Q) (target : Victor Q) (tz f : Q) :
  let c' := Camera.easeTo target tz f c in
  x target - x (position c') == (1 - f) * (x target - x (position c)) /\
  y target - y (position c') == (1 - f) * (y target - y (position c)) /\
  tz - zoom c' == (1 - f) * (tz - zoom c) /\
  matrix c' = matrix c /\
  boundingRectangle c' = boundingRectangle c /\
  nextCameraBound c' = nextCameraBound c /\
  xBounds c' = xBounds c.
Proof.
  cbv zeta. unfold Camera.easeTo, lerp2D, lerp, Victor.add, Victor.subtract,
    Victor.multiplyScalar. cbn. cbv [nadd nsub nmul Q_JSNumber].
  repeat split; ring.
Qed.

Lemma Qpow_unit (q : Q) (n : nat) : 0 <= q -> q <= 1 -> 0 <= Qpow q n /\ Qpow q n <= 1.
Proof.
  intros H0 H1. induction n as [|n [IH0 IH1]]; cbn [Qpow].
  - split; [discriminate | apply Qle_refl].
  - split; [apply Qmult_le_0_compat; assumption|]. nra.
Qed.

(** [easeTo] moves the position and the zoom of the camera by the fraction
    [easingFactor] of what separates them from the target: after [n] calls
    with the same target the remaining offset is [(1 - easingFactor)^n]
    times the initial one, a factor between 0 and 1 when the easing factor
    is (the camera does not overshoot).  The matrix and the bounding
    rectangles are not touched: they wait for [update()]. *)
Theorem Camera_easeTo_decays (c : Camera Q) (target : Victor Q)
    (targetZoom easingFactor : Q) (n : nat) :
  let c' := Nat.iter n (Camera.easeTo target targetZoom easingFactor) c in
  x target - x (position c') ==
    Qpow (1 - easingFactor) n * (x target - x (position c)) /\
  y target - y (position c') ==
    Qpow (1 - easingFactor) n * (y target - y (position c)) /\
  targetZoom - zoom c' == Qpow (1 - easingFactor) n * (targetZoom - zoom c) /\
  (0 <= easingFactor -> easingFactor <= 1 ->
   0 <= Qpow (1 - easingFactor) n /\ Qpow (1 - easingFactor) n <= 1) /\
  matrix c' = matrix c /\
  boundingRectangle c' = boundingRectangle c /\
  nextCameraBound c' = nextCameraBound c /\
  xBounds c' = xBounds c.
Proof.
  cbv zeta. induction n as [|n IH].
  - cbn. repeat split; try ring; try discriminate.
  - destruct IH as (Hx & Hy & Hz & _ & Hm & Hb & Hn & Hxb).
    cbn [Nat.iter Qpow].
    set (c1 := Nat.iter n (Camera.easeTo target targetZoom easingFactor) c) in *.
    destruct (easeTo_step c1 target targetZoom easingFactor)
      as (Sx & Sy & Sz & Sm & Sb & Sn & Sxb).
    cbv zeta in Sx, Sy, Sz, Sm, Sb, Sn, Sxb.
    split; [etransitivity; [exact Sx | rewrite Hx; ring]|].
    split; [etransitivity; [exact Sy | rewrite Hy; ring]|].
    split; [etransitivity; [exact Sz | rewrite Hz; ring]|].
    split; [intros H0 H1; apply (Qpow_unit (S n)); lra|].
    split; [exact (eq_trans Sm Hm)|].
    split; [exact (eq_trans Sb Hb)|].
    split; [exact (eq_trans Sn Hn) | exact (eq_trans Sxb Hxb)].
Qed.

(** ** The camera's frame of reference *)


(** After [computeMatrix()], [canvasToWorld] maps a point of the canvas to
    the camera position plus the offset of the point from the centre of the
    canvas divided by the zoom; the centre of the canvas shows the camera
    position. *)
Theorem canvasToWorld_centred (c : Camera Q) (p : Victor Q) :
  ~ zoom c == 0 ->
  let c' := Camera.computeMatrix c in
  x (Camera.canvasToWorld c' p) == x (position c) + (x p - 250) / zoom c /\
  y (Camera.canvasToWorld c' p) == y (position c) + (y p - 375) / zoom c /\
  x (Camera.canvasToWorld c' (Vec 250 375)) == x (position c) /\
  y (Camera.canvasToWorld c' (Vec 250 375)) == y (position c).
Proof.
  intros Hz. cbv zeta. unfold Camera.canvasToWorld.
  destruct (computeMatrix_matrix c) as (-> & _).
  set (tx := (0 + - x (position c)) * zoom c + 500 * (5 / 10)).
  set (ty := (0 + - y (position c)) * zoom c + 750 * (5 / 10)).
  destruct (applyInverse_zoom tx ty p Hz) as [H1 H2].
  destruct (applyInverse_zoom tx ty (Vec 250 375) Hz) as [H3 H4].
  rewrite H1, H2, H3, H4. subst tx ty. cbv [x y].
  repeat split; field; exact Hz.
Qed.

Lemma canvasToWorld_centred_witness :
  let c := camera_at (Vec 250 0) (3 # 2) in
  let c' := Camera.computeMatrix c in
  let p := Vec 100 75 in
  ~ zoom c == 0 /\
  x (Camera.canvasToWorld c' p) == 150 /\
  y (Camera.canvasToWorld c' p) == -200 /\
  x (Camera.canvasToWorld c' p) == x (position c) + (x p - 250) / zoom c /\
  y (Camera.canvasToWorld c' p) == y (position c) + (y p - 375) / zoom c /\
  x (Camera.canvasToWorld c' (Vec 250 375)) == x (position c) /\
  y (Camera.canvasToWorld c' (Vec 250 375)) == y (position c).
Proof.
  split; [vm_compute; discriminate|].
  split; [vm_compute; reflexivity|].
  split; [vm_compute; reflexivity|].
  apply (@canvasToWorld_centred (camera_at (Vec 250 0) (3 # 2)) (Vec 100 75)).
  vm_compute; discriminate.
Defined.


(** ** What a frame does to the camera and to the time scales *)

Section FrameShapes.
Context {num : Type} `{JSNumber num}.
Local Open Scope num_scope.

(** The camera [transitionToMenu] leaves *)
Definition menuCamera (c : Camera num) : Camera num :=
  set_position
    (Vec (x CAMERA_POSITION_DEFAULT) (y CAMERA_POSITION_DEFAULT + MENU_TRANSITION_HEIGHT))
    (set_position CAMERA_POSITION_DEFAULT (set_zoom CAMERA_ZOOM_DEFAULT c)).

(** The time scales [exitAiming] and [whenTutorial] leave *)
Definition exitAimingSpeeds (m : PhysicsManager num) : PhysicsManager num :=
  set_targetGameSpeed (ofZ 1) (set_currentGameSpeed (decimal 5 10) m).
Definition tutorialSpeeds (m : PhysicsManager num) : PhysicsManager num :=
  set_currentGameSpeed (ofZ 0) (set_targetGameSpeed (ofZ 0) m).

Lemma onDeath_camera_physics g :
  CAMERA (Player.onDeath g) = CAMERA g /\
  physics (Player.onDeath g) = exitAimingSpeeds (physics g).
Proof.
  unfold Player.onDeath, recordDeathHeight.
  match goal with |- context [if ?c then _ else _] => destruct c end;
    split; reflexivity.
Qed.

Lemma whenAlive_camera_physics g :
  CAMERA (Player.whenAlive g) = CAMERA g /\
  (physics (Player.whenAlive g) = physics g \/
   physics (Player.whenAlive g) = exitAimingSpeeds (physics g)).
Proof.
  unfold Player.whenAlive. destruct (Wave.isColliding _ _).
  - destruct (onDeath_camera_physics g) as [-> ->]. auto.
  - destruct (checkCollisions_keepsMode g) as (_ & _ & _ & _ & _ & -> & -> & _). auto.
Qed.

(** The [switch] of [Player.update] leaves the camera as it is, eases it
    towards the aiming zoom, or hands it to the menu; it leaves the time
    scales as they are, or as [exitAiming] or [whenTutorial] set them. *)
Lemma dispatch_camera_physics g :
  (CAMERA (Player.dispatch g) = CAMERA g \/
   (exists target,
      CAMERA (Player.dispatch g) =
        Camera.easeTo target CAMERA_ZOOM_AIMING CAMERA_AIMING_EASING_FACTOR (CAMERA g)) \/
   CAMERA (Player.dispatch g) = menuCamera (CAMERA g)) /\
  (physics (Player.dispatch g) = physics g \/
   physics (Player.dispatch g) = exitAimingSpeeds (physics g) \/
   physics (Player.dispatch g) = tutorialSpeeds (physics g)).
Proof.
  destruct (whenAlive_camera_physics g) as [Hc Hp].
  unfold Player.dispatch. destruct (playerState (PLAYER g)).
  - unfold Player.whenDead. destruct (_ <? _); split; auto.
  - rewrite Hc. split; [auto | tauto].
  - split.
    + right; left. eexists. cbn. rewrite Hc. reflexivity.
    + change (physics (Player.whenAim (Player.whenAlive g)))
        with (physics (Player.whenAlive g)). tauto.
  - split; auto.
Qed.

(** [g'] differs from [g] in the number of random values drawn at most. *)
Definition drawsOnly (g g' : Game num) : Prop :=
  exists n, g' = set_host (set_drawn n (host g)) g.

Lemma drawsOnly_refl g : drawsOnly g g.
Proof. exists (drawn (host g)). destruct g as [? ? ? ? ? ? ? ? ? ? []]. reflexivity. Qed.

Lemma drawsOnly_trans g1 g2 g3 : drawsOnly g1 g2 -> drawsOnly g2 g3 -> drawsOnly g1 g3.
Proof. intros [n1 ->] [n2 ->]. now exists n2. Qed.

Lemma Orb_update_drawsOnly o g : drawsOnly g (snd (Orb.update o g)).
Proof.
  unfold Orb.update, Obstacle.update.
  destruct (_ >? _); [eexists; reflexivity | apply drawsOnly_refl].
Qed.

Lemma Spike_update_drawsOnly o g : drawsOnly g (snd (Spike.update o g)).
Proof.
  unfold Spike.update, Obstacle.update.
  destruct (_ >? _); [eexists; reflexivity | apply drawsOnly_refl].
Qed.

Lemma forEach_drawsOnly
    (body : PhysicsObject num -> Game num -> PhysicsObject num * Game num) :
  (forall o g, drawsOnly g (snd (body o g))) ->
  forall l g, drawsOnly g (snd (forEach body l g)).
Proof.
  intros Hb l g. apply (forEach_preserves (drawsOnly g)); [|apply drawsOnly_refl].
  intros o g1 H1. eapply drawsOnly_trans; [exact H1 | apply Hb].
Qed.

(** [updateObjects]: the obstacles are updated (some are respawned, which
    draws random values), then the player, then the wave. *)
Lemma updateObjects_shape_draws g :
  exists orbs spikes n,
    length orbs = length (ORBS g) /\ length spikes = length (SPIKES g) /\
    updateObjects g =
      Wave.update
        (Player.update
           (set_SPIKES spikes (set_ORBS orbs (set_host (set_drawn n (host g)) g)))).
Proof.
  unfold updateObjects.
  pose proof (forEach_drawsOnly Orb.update Orb_update_drawsOnly (ORBS g) g) as H1.
  pose proof (forEach_length Orb.update (ORBS g) g) as L1.
  destruct (forEach Orb.update (ORBS g) g) as [orbs g1]. cbn in H1, L1.
  destruct H1 as [n1 ->].
  match goal with |- context [forEach Spike.update ?l ?g0] =>
    pose proof (forEach_drawsOnly Spike.update Spike_update_drawsOnly l g0) as H2;
    pose proof (forEach_length Spike.update l g0) as L2;
    destruct (forEach Spike.update l g0) as [spikes g2]
  end.
  cbn in H2, L2. destruct H2 as [n2 ->].
  exists orbs, spikes, n2. repeat split; assumption.
Qed.

(** A frame of the game scene, with what it does to camera and time before
    the player is updated *)
Lemma updateGame_shape_camera elapsedMS g :
  exists g1 easeFactor,
    updateGame elapsedMS g = Wave.update (Player.update g1) /\
    (easeFactor = CAMERA_SPEEDING_EASING_FACTOR \/ easeFactor = CAMERA_EASING_FACTOR) /\
    CAMERA g1 =
      Camera.update
        (Camera.easeTo (vectorPosition (body (PLAYER g))) CAMERA_ZOOM_DEFAULT
           easeFactor (CAMERA g)) /\
    physics g1 = physics (updatePhysicsManager elapsedMS g) /\
    PLAYER g1 = PLAYER g /\
    WAVE g1 = WAVE g /\
    currentScene g1 = currentScene g /\
    lastDeathHeight g1 = lastDeathHeight g /\
    highestDeathHeight g1 = highestDeathHeight g /\
    localStorage (host g1) = localStorage (host g) /\
    played (host g1) = played (host g) /\
    length (ORBS g1) = length (ORBS g) /\
    length (SPIKES g1) = length (SPIKES g).
Proof.
  unfold updateGame.
  match goal with |- context [updateObjects ?g0] =>
    destruct (updateObjects_shape_draws g0) as (orbs & spikes & n & L1 & L2 & Hu)
  end.
  eexists.
  exists (if Victor.lengthSq (velocity (body (PLAYER g))) >? ofZ 6000000
          then CAMERA_SPEEDING_EASING_FACTOR else CAMERA_EASING_FACTOR).
  split; [exact Hu|].
  split; [destruct (_ >? _); auto|].
  repeat split; assumption.
Qed.

End FrameShapes.

(** ** The view and the time scales in the states the game reaches *)

(** The zoom is between the default and the aiming zoom, the horizontal
    bounds are those of the canvas, the view lies within them. *)
Definition cameraOk (c : Camera Q) : Prop :=
  (1 <= zoom c /\ zoom c <= 3 # 2) /\
  (x (xBounds c) == 0 /\ y (xBounds c) == 500) /\
  (0 <= PIXI.left (boundingRectangle c) /\ PIXI.right (boundingRectangle c) <= 500).

Definition speedsOk (m : PhysicsManager Q) : Prop :=
  (0 <= currentGameSpeed m /\ currentGameSpeed m <= 1) /\
  (targetGameSpeed m == 0 \/ targetGameSpeed m == 1 # 50 \/ targetGameSpeed m == 1).

Lemma easeTo_cameraOk (c : Camera Q) (target : Victor Q) (tz f : Q) :
  cameraOk c -> 1 <= tz -> tz <= 3 # 2 -> 0 <= f -> f <= 1 ->
  cameraOk (Camera.easeTo target tz f c).
Proof.
  intros ((Z1 & Z2) & HB & HV) T1 T2 F1 F2.
  destruct (easeTo_step c target tz f) as (_ & _ & Sz & _ & Sb & _ & Sxb).
  cbv zeta in Sz, Sb, Sxb.
  unfold cameraOk. rewrite Sb, Sxb.
  split; [|split; assumption].
  set (z' := zoom (Camera.easeTo target tz f c)) in *.
  split; nra.
Qed.

Lemma update_xBounds {num : Type} `{JSNumber num} (c : Camera num) :
  xBounds (Camera.update c) = xBounds c.
Proof.
  rewrite Camera_update_clamped. unfold clamped.
  destruct (_ <? _)%num; [|destruct (_ <? _)%num]; reflexivity.
Qed.

(** [update()] with a view no wider than the bounds *)
Lemma update_narrow_view (c : Camera Q) :
  0 < zoom c ->
  (500 / zoom c <= y (xBounds c) - x (xBounds c) ->
   x (xBounds c) <= PIXI.left (boundingRectangle (Camera.update c)) /\
   PIXI.right (boundingRectangle (Camera.update c)) <= y (xBounds c)) /\
  zoom (Camera.update c) = zoom c.
Proof.
  intros Hz.
  assert (Hz' : ~ zoom c == 0) by (intros E; rewrite E in Hz; now apply Qlt_irrefl in Hz).
  pose proof (computeMatrix_view c Hz') as V. cbv zeta in V.
  destruct V as (Hl & Hr & _).
  destruct (computeMatrix_matrix c) as (_ & Hp & Hzm & Hxb).
  rewrite (Camera_update_clamped c).
  pose proof (@clamped_view (Camera.computeMatrix c) (x (position c)) (zoom c)
                Hz Hzm Hl Hr (f_equal x Hp)) as K.
  cbv zeta in K. rewrite Hxb in K.
  destruct K as (K1 & _ & _ & _ & K5 & _). split; assumption.
Qed.

Lemma update_cameraOk (c : Camera Q) : cameraOk c -> cameraOk (Camera.update c).
Proof.
  intros ((Z1 & Z2) & (B1 & B2) & _).
  assert (Hz : 0 < zoom c) by lra.
  destruct (update_narrow_view c Hz) as (Hin & Hzm).
  unfold cameraOk. rewrite Hzm, update_xBounds.
  split; [split; assumption|]. split; [split; assumption|].
  assert (Hw : 500 / zoom c <= y (xBounds c) - x (xBounds c)).
  { rewrite B1, B2. apply Qle_shift_div_r; [exact Hz | lra]. }
  destruct (Hin Hw) as [I1 I2]. rewrite B1 in I1. rewrite B2 in I2.
  split; assumption.
Qed.

Lemma menuCamera_cameraOk (c : Camera Q) : cameraOk c -> cameraOk (menuCamera c).
Proof.
  intros (_ & HB & HV). unfold cameraOk.
  split; [|split; assumption].
  cbn. unfold_num. split; [discriminate | vm_compute; discriminate].
Qed.

Lemma play_cameraOk (c : Camera Q) :
  cameraOk c ->
  cameraOk (Camera.computeMatrix
              (set_position CAMERA_POSITION_DEFAULT (set_zoom CAMERA_ZOOM_DEFAULT c))).
Proof.
  intros (_ & HB & _).
  set (c0 := set_position CAMERA_POSITION_DEFAULT (set_zoom CAMERA_ZOOM_DEFAULT c)).
  assert (Hz : ~ zoom c0 == 0) by (vm_compute; discriminate).
  pose proof (computeMatrix_view c0 Hz) as V. cbv zeta in V.
  destruct V as (Hl & Hr & _).
  destruct (computeMatrix_matrix c0) as (_ & _ & Hzm & Hxb).
  unfold cameraOk. rewrite Hl, Hr, Hzm, Hxb.
  split; [split; vm_compute; discriminate|].
  split; [exact HB|].
  split; vm_compute; discriminate.
Qed.

Lemma dispatch_cameraOk (g : Game Q) :
  cameraOk (CAMERA g) -> cameraOk (CAMERA (Player.dispatch g)).
Proof.
  intros Hc. destruct (dispatch_camera_physics g) as [[-> | [[t ->] | ->]] _].
  - exact Hc.
  - apply easeTo_cameraOk; try assumption; vm_compute; discriminate.
  - now apply menuCamera_cameraOk.
Qed.

Lemma lerp_speed (cur tgt : Q) :
  0 <= cur -> cur <= 1 -> (tgt == 0 \/ tgt == 1 # 50 \/ tgt == 1) ->
  0 <= lerp cur tgt TIME_EASING_FACTOR /\ lerp cur tgt TIME_EASING_FACTOR <= 1.
Proof.
  intros C1 C2 T. unfold lerp. unfold_num.
  assert (E : 1 / 10 == 1 # 10) by reflexivity.
  change (inject_Z 1 / inject_Z 10) with (1 / 10). rewrite E.
  destruct T as [T | [T | T]]; rewrite T; split; lra.
Qed.

Lemma updatePhysicsManager_speedsOk ms (g : Game Q) :
  speedsOk (physics g) -> speedsOk (physics (updatePhysicsManager ms g)).
Proof.
  intros ((C1 & C2) & T). unfold speedsOk, updatePhysicsManager. cbn.
  split; [apply lerp_speed; assumption | exact T].
Qed.

Lemma dispatch_speedsOk (g : Game Q) :
  speedsOk (physics g) -> speedsOk (physics (Player.dispatch g)).
Proof.
  intros Hs. destruct (dispatch_camera_physics g) as [_ [-> | [-> | ->]]].
  - exact Hs.
  - split; [split; vm_compute; discriminate | right; right; reflexivity].
  - split; [split; vm_compute; discriminate | left; reflexivity].
Qed.

Definition sane (g : Game Q) : Prop := cameraOk (CAMERA g) /\ speedsOk (physics g).

Lemma update_sane ms (g : Game Q) : sane g -> sane (update ms g).
Proof.
  intros [Hc Hs]. unfold update. destruct (currentScene g).
  - split; [|exact Hs].
    change (CAMERA (updateMenu g)) with
      (Camera.update
         (Camera.easeTo CAMERA_POSITION_DEFAULT CAMERA_ZOOM_DEFAULT
            CAMERA_AIMING_EASING_FACTOR (CAMERA g))).
    apply update_cameraOk, easeTo_cameraOk; try assumption; vm_compute; discriminate.
  - destruct (updateGame_shape_camera ms g)
      as (g1 & f & -> & Hf & Hcam & Hph & _).
    destruct (Player_update_shape g1) as (b & h & ->).
    change (sane (Player.dispatch g1)).
    split.
    + apply dispatch_cameraOk. rewrite Hcam.
      apply update_cameraOk, easeTo_cameraOk; try assumption;
        try (vm_compute; discriminate);
        destruct Hf as [-> | ->]; vm_compute; discriminate.
    + apply dispatch_speedsOk. rewrite Hph.
      now apply updatePhysicsManager_speedsOk.
Qed.

Lemma step_sane fuel e (g g' : Game Q) : step fuel e g = Some g' -> sane g -> sane g'.
Proof.
  destruct e; cbn; intros Hs Hg;
    [injection Hs as <- | injection Hs as <- | injection Hs as <- |
    | injection Hs as <- | injection Hs as <- | injection Hs as <-].
  - exact Hg.
  - destruct Hg as [Hc (Hcur & Ht)].
    unfold onpointerdown, Player.onAim. cbn.
    destruct (playerState (PLAYER g)); split; try assumption; try (split; assumption);
      (split; [exact Hcur | right; left; reflexivity]).
  - destruct Hg as [Hc Hsp].
    unfold onpointerup, Player.onFling. cbn.
    destruct (playerState (PLAYER g)); try (split; assumption).
    cbn. destruct (_ || _); (split; [exact Hc|]);
      (split; [split; vm_compute; discriminate | right; right; reflexivity]).
  - destruct (transitionToGame fuel g) as [g1|] eqn:E; [|discriminate].
    injection Hs as <-. apply transitionToGame_shape in E.
    destruct E as (_ & _ & _ & Hp & _ & _ & _ & Hc).
    destruct Hg as [Gc Gs]. split.
    + change (cameraOk (CAMERA g1)). rewrite Hc. now apply play_cameraOk.
    + change (speedsOk (physics g1)). now rewrite Hp.
  - exact Hg.
  - exact Hg.
  - now apply update_sane.
Qed.

Lemma reachable_sane (g : Game Q) : reachable g -> sane g.
Proof.
  induction 1 as [c s en | fuel e g g' _ IH Hs].
  - unfold start, loadHighestDeath.
    destruct s; (split; [|split; [split; vm_compute; discriminate | right; right; reflexivity]]);
      (split; [split; vm_compute; discriminate|]);
      (split; [split; vm_compute; reflexivity|]);
      split; vm_compute; discriminate.
  - eapply step_sane; eassumption.
Qed.



(** In every state the game reaches, the current time scale is between 0 and
    1 and the target time scale is 0 (tutorial), 0.02 (aiming) or 1; a frame
    of the game scene that lasts [elapsedMS >= 0] milliseconds advances the
    simulation by a time step between 0 and [elapsedMS / 1000]. *)
Theorem time_scale_bounded (g : Game Q) :
  reachable g ->
  (0 <= currentGameSpeed (physics g) /\ currentGameSpeed (physics g) <= 1) /\
  (targetGameSpeed (physics g) == 0 \/ targetGameSpeed (physics g) == 1 # 50 \/
   targetGameSpeed (physics g) == 1) /\
  (forall elapsedMS,
     currentScene g = SCENE_ID.Game -> 0 <= elapsedMS ->
     0 <= timeSpeed (physics (update elapsedMS g)) /\
     timeSpeed (physics (update elapsedMS g)) <= elapsedMS * (1 # 1000)).
Proof.
  intros Hr. destruct (reachable_sane Hr) as [_ ((C1 & C2) & T)].
  split; [split; assumption|]. split; [exact T|].
  intros ms Hs Hms. unfold update. rewrite Hs.
  destruct (updateGame_shape_camera ms g) as (g1 & f & -> & _ & _ & Hph & _).
  destruct (Player_update_shape g1) as (b & h & ->).
  change (timeSpeed (physics (Wave.update
            (set_host h (set_PLAYER (set_body b (PLAYER (Player.dispatch g1)))
                           (Player.dispatch g1))))))
    with (timeSpeed (physics (Player.dispatch g1))).
  destruct (dispatch_keepsPhysics g1) as (_ & _ & -> & _).
  rewrite Hph. unfold updatePhysicsManager. cbn.
  destruct (lerp_speed C1 C2 T) as [L1 L2].
  unfold lerp in L1, L2. unfold_num.
  match goal with |- 0 <= ?e * ms * _ /\ _ => set (s := e) in * end.
  clearbody s.
  assert (E : inject_Z 1 / inject_Z 1000 == 1 # 1000) by reflexivity.
  rewrite E.
  assert (P1 : 0 <= s * ms) by (apply Qmult_le_0_compat; assumption).
  assert (P2 : s * ms <= 1 * ms) by (apply Qmult_le_compat_r; assumption).
  split; lra.
Qed.

Lemma time_scale_bounded_witness :
  let g := after_play in
  currentScene g = SCENE_ID.Game /\
  (0 <= currentGameSpeed (physics g) /\ currentGameSpeed (physics g) <= 1) /\
  (targetGameSpeed (physics g) == 0 \/ targetGameSpeed (physics g) == 1 # 50 \/
   targetGameSpeed (physics g) == 1) /\
  (forall elapsedMS,
     currentScene g = SCENE_ID.Game -> 0 <= elapsedMS ->
     0 <= timeSpeed (physics (update elapsedMS g)) /\
     timeSpeed (physics (update elapsedMS g)) <= elapsedMS * (1 # 1000)).
Proof.
  split; [vm_compute; reflexivity|].
  apply (@time_scale_bounded after_play). exact after_play_reachable.
Defined.

(** ** Recycling the obstacles *)

(** An obstacle lies inside a rectangle. *)
Definition inside (r : PIXI.Rectangle Q) (o : PhysicsObject Q) : Prop :=
  (PIXI.left r <= x (vectorPosition o) /\ x (vectorPosition o) <= PIXI.right r) /\
  (PIXI.top r <= y (vectorPosition o) /\ y (vectorPosition o) <= PIXI.bottom r).

Lemma Orb_respawn_inside (bounds : PIXI.Rectangle Q) (o : PhysicsObject Q) (g : Game Q) :
  unitInterval (entropy (host g)) ->
  0 <= PIXI.width bounds -> 0 <= PIXI.height bounds ->
  let o' := fst (Orb.respawn bounds o g) in
  let g' := snd (Orb.respawn bounds o g) in
  inside bounds o' /\
  (1 # 2 <= PIXI.scale (graphics o') /\ PIXI.scale (graphics o') <= 1) /\
  colliderRadius o' = baseColliderRadius o * PIXI.scale (graphics o') /\
  drawn (host g') = (drawn (host g) + 3)%nat /\
  played (host g') = played (host g).
Proof.
  intros Hu Hw Hh. cbv zeta. unfold Orb.respawn.
  pose proof (@respawn_in_bounds bounds (decimal 5 10) (ofZ 1) o g Hu Hw Hh) as R.
  cbv zeta in R. specialize (R ltac:(vm_compute; discriminate)).
  destruct R as (Rx & Ry & (Rs1 & Rs2) & Rc & _ & _ & Rd & Rp).
  split; [split; assumption|].
  split; [split; [|exact Rs2]|auto].
  apply Qle_trans with (decimal 5 10); [vm_compute; discriminate | exact Rs1].
Qed.

Lemma Spike_respawn_inside (bounds : PIXI.Rectangle Q) (o : PhysicsObject Q) (g : Game Q) :
  unitInterval (entropy (host g)) ->
  0 <= PIXI.width bounds -> 0 <= PIXI.height bounds ->
  let o' := fst (Spike.respawn bounds o g) in
  let g' := snd (Spike.respawn bounds o g) in
  inside bounds o' /\
  (1 # 2 <= PIXI.scale (graphics o') /\ PIXI.scale (graphics o') <= 1) /\
  colliderRadius o' = baseColliderRadius o * PIXI.scale (graphics o') /\
  drawn (host g') = (drawn (host g) + 4)%nat /\
  played (host g') = played (host g).
Proof.
  intros Hu Hw Hh. cbv zeta. unfold Spike.respawn.
  pose proof (@respawn_in_bounds bounds (decimal 5 10) (ofZ 1) o g Hu Hw Hh) as R.
  cbv zeta in R. specialize (R ltac:(vm_compute; discriminate)).
  destruct R as (Rx & Ry & (Rs1 & Rs2) & Rc & _ & _ & Rd & Rp).
  destruct (Obstacle.respawn bounds (decimal 5 10) (ofZ 1) o g) as [o' g1].
  cbn [fst snd] in *. cbn.
  split; [split; assumption|].
  split; [split; [|exact Rs2]|].
  - apply Qle_trans with (decimal 5 10); [vm_compute; discriminate | exact Rs1].
  - repeat split; try assumption. rewrite Rd. lia.
Qed.

(** The update of an obstacle never moves it by physics.  An obstacle that
    is not more than 100 below the wave's top edge is left where it is (only
    its display position is synchronised) and nothing else changes.  An
    obstacle further below is respawned inside the camera's next bound with
    a scale between 0.5 and 1, drawing 3 random values for an orb and 4 for
    a spike, and no sound is played. *)
Theorem obstacle_recycled_into_next_bound (g : Game Q) (o : PhysicsObject Q) :
  unitInterval (entropy (host g)) ->
  0 <= PIXI.width (nextCameraBound (CAMERA g)) ->
  0 <= PIXI.height (nextCameraBound (CAMERA g)) ->
  let limit := y (wave_position (WAVE g)) + 100 in
  let next := nextCameraBound (CAMERA g) in
  (y (vectorPosition o) <= limit ->
   Orb.update o g = (PhysicsObject.updatePosition o, g) /\
   Spike.update o g = (PhysicsObject.updatePosition o, g)) /\
  (limit < y (vectorPosition o) ->
   (inside next (fst (Orb.update o g)) /\
    (1 # 2 <= PIXI.scale (graphics (fst (Orb.update o g))) /\
     PIXI.scale (graphics (fst (Orb.update o g))) <= 1) /\
    drawn (host (snd (Orb.update o g))) = (drawn (host g) + 3)%nat /\
    played (host (snd (Orb.update o g))) = played (host g)) /\
   (inside next (fst (Spike.update o g)) /\
    (1 # 2 <= PIXI.scale (graphics (fst (Spike.update o g))) /\
     PIXI.scale (graphics (fst (Spike.update o g))) <= 1) /\
    drawn (host (snd (Spike.update o g))) = (drawn (host g) + 4)%nat /\
    played (host (snd (Spike.update o g))) = played (host g))).
Proof.
  intros Hu Hw Hh. cbv zeta.
  unfold Orb.update, Spike.update, Obstacle.update.
  change (vectorPosition (PhysicsObject.updatePosition o)) with (vectorPosition o).
  change (@ofZ Q Q_JSNumber 100%Z) with (100 : Q).
  change (@nadd Q Q_JSNumber) with Qplus.
  destruct (nltb _ _) eqn:E.
  - apply Qltb_true in E. split; [intros Hle; lra|]. intros _.
    pose proof (@Orb_respawn_inside (nextCameraBound (CAMERA g))
                  (PhysicsObject.updatePosition o) g Hu Hw Hh) as RO.
    pose proof (@Spike_respawn_inside (nextCameraBound (CAMERA g))
                  (PhysicsObject.updatePosition o) g Hu Hw Hh) as RS.
    cbv zeta in RO, RS.
    destruct RO as (O1 & O2 & _ & O4 & O5). destruct RS as (S1 & S2 & _ & S4 & S5).
    repeat split; try apply O1; try apply O2; try apply S1; try apply S2; assumption.
  - apply Qltb_false in E. split; [intros _; split; reflexivity|]. intros Hlt. lra.
Qed.

Lemma obstacle_recycled_into_next_bound_witness :
  let g := after_play in
  let sunk := set_vectorPosition (Vec 100 500) Orb.new in
  let limit := y (wave_position (WAVE g)) + 100 in
  let next := nextCameraBound (CAMERA g) in
  (limit < y (vectorPosition sunk) /\
   y (vectorPosition (fst (Orb.update sunk g))) <= PIXI.top (boundingRectangle (CAMERA g))) /\
  (y (vectorPosition sunk) <= limit ->
   Orb.update sunk g = (PhysicsObject.updatePosition sunk, g) /\
   Spike.update sunk g = (PhysicsObject.updatePosition sunk, g)) /\
  (limit < y (vectorPosition sunk) ->
   (inside next (fst (Orb.update sunk g)) /\
    (1 # 2 <= PIXI.scale (graphics (fst (Orb.update sunk g))) /\
     PIXI.scale (graphics (fst (Orb.update sunk g))) <= 1) /\
    drawn (host (snd (Orb.update sunk g))) = (drawn (host g) + 3)%nat /\
    played (host (snd (Orb.update sunk g))) = played (host g)) /\
   (inside next (fst (Spike.update sunk g)) /\
    (1 # 2 <= PIXI.scale (graphics (fst (Spike.update sunk g))) /\
     PIXI.scale (graphics (fst (Spike.update sunk g))) <= 1) /\
    drawn (host (snd (Spike.update sunk g))) = (drawn (host g) + 4)%nat /\
    played (host (snd (Spike.update sunk g))) = played (host g))).
Proof.
  split; [split; [vm_compute; reflexivity | vm_compute; discriminate]|].
  apply (@obstacle_recycled_into_next_bound after_play
           (set_vectorPosition (Vec 100 500) Orb.new)).
  - intros n. vm_compute. split; [discriminate | reflexivity].
  - vm_compute; discriminate.
  - vm_compute; discriminate.
Defined.

(** A spike the player overlaps halves and reverses the velocity, takes one
    fling (not below 0), plays the orb cue and then the spike cue, and is
    respawned inside the camera's next bound with a scale between 0.5 and 1,
    drawing 4 random values. *)
Theorem spike_reaction (g : Game Q) (spike : PhysicsObject Q) :
  unitInterval (entropy (host g)) ->
  0 <= PIXI.width (nextCameraBound (CAMERA g)) ->
  0 <= PIXI.height (nextCameraBound (CAMERA g)) ->
  PhysicsObject.isColliding (body (PLAYER g)) spike = true ->
  let v := velocity (body (PLAYER g)) in
  let spike' := fst (Player.hitSpike spike g) in
  let g' := snd (Player.hitSpike spike g) in
  let v' := velocity (body (PLAYER g')) in
  (x v' == - (1 # 2) * x v /\ y v' == - (1 # 2) * y v) /\
  flings (PLAYER g') = Z.max 0 (flings (PLAYER g) - 1) /\
  played (host g') = played (host g) ++ [SFX_ID.Orb; SFX_ID.Spike] /\
  inside (nextCameraBound (CAMERA g)) spike' /\
  (1 # 2 <= PIXI.scale (graphics spike') /\ PIXI.scale (graphics spike') <= 1) /\
  drawn (host g') = (drawn (host g) + 4)%nat /\
  playerState (PLAYER g') = playerState (PLAYER g) /\
  vectorPosition (body (PLAYER g')) = vectorPosition (body (PLAYER g)).
Proof.
  intros Hu Hw Hh Hc. cbv zeta.
  unfold Player.hitSpike. rewrite Hc.
  set (p := Player.setFlingAmount _ _).
  assert (Hv : x (velocity (body p)) == - (1 # 2) * x (velocity (body (PLAYER g))) /\
               y (velocity (body p)) == - (1 # 2) * y (velocity (body (PLAYER g)))).
  { subst p. cbn. unfold_num. split; field. }
  assert (Hfl : flings p = Z.max 0 (flings (PLAYER g) - 1)).
  { subst p. rewrite setFlingAmount_flings. reflexivity. }
  assert (Hst : playerState p = playerState (PLAYER g) /\
                vectorPosition (body p) = vectorPosition (body (PLAYER g)))
    by (subst p; split; reflexivity).
  pose proof (@Spike_respawn_inside (nextCameraBound (CAMERA (set_PLAYER p g)))
                spike (set_PLAYER p g) Hu Hw Hh) as R.
  cbv zeta in R. destruct R as (R1 & R2 & _ & R4 & R5).
  unfold Spike.destroy, Obstacle.destroy.
  pose proof (Spike_respawn_hostOnly (nextCameraBound (CAMERA (set_PLAYER p g)))
                spike (set_PLAYER p g)) as [h Hh'].
  destruct (Spike.respawn _ spike (set_PLAYER p g)) as [spike' g1].
  cbn [fst snd] in *. subst g1. cbn in R4, R5 |- *.
  rewrite R5.
  split; [exact Hv|]. split; [exact Hfl|].
  split; [rewrite <- app_assoc; reflexivity|].
  split; [exact R1|]. split; [exact R2|]. split; [exact R4|]. exact Hst.
Qed.

Lemma spike_reaction_witness :
  let g := on_an_orb in
  let spike := hd Spike.new (SPIKES g) in
  let v := velocity (body (PLAYER g)) in
  let spike' := fst (Player.hitSpike spike g) in
  let g' := snd (Player.hitSpike spike g) in
  let v' := velocity (body (PLAYER g')) in
  (x v' == -5 /\ y v' == 25 /\ flings (PLAYER g') = 4%Z) /\
  (x v' == - (1 # 2) * x v /\ y v' == - (1 # 2) * y v) /\
  flings (PLAYER g') = Z.max 0 (flings (PLAYER g) - 1) /\
  played (host g') = played (host g) ++ [SFX_ID.Orb; SFX_ID.Spike] /\
  inside (nextCameraBound (CAMERA g)) spike' /\
  (1 # 2 <= PIXI.scale (graphics spike') /\ PIXI.scale (graphics spike') <= 1) /\
  drawn (host g') = (drawn (host g) + 4)%nat /\
  playerState (PLAYER g') = playerState (PLAYER g) /\
  vectorPosition (body (PLAYER g')) = vectorPosition (body (PLAYER g)).
Proof.
  split.
  - split; [vm_compute; reflexivity|]. split; vm_compute; reflexivity.
  - apply (@spike_reaction on_an_orb (hd Spike.new (SPIKES on_an_orb))).
    + intros n. vm_compute. split; [discriminate | reflexivity].
    + vm_compute; discriminate.
    + vm_compute; discriminate.
    + vm_compute; reflexivity.
Defined.

(** ** Seeding the obstacles *)

Section Seeding.
Context {num : Type} `{JSNumber num}.
Local Open Scope num_scope.

Lemma Orb_respawn_drawsOnly b o g : drawsOnly g (snd (Orb.respawn b o g)).
Proof. eexists; reflexivity. Qed.

Lemma Spike_respawn_drawsOnly b o g : drawsOnly g (snd (Spike.respawn b o g)).
Proof. eexists; reflexivity. Qed.

(** [o'] was placed by [respawn] with the oracle of [g], and keeps clear of
    the player of [g]. *)
Definition placedClear (respawn : Obstacle.method) (bounds : PIXI.Rectangle num)
    (space : num) (g : Game num) (o' : PhysicsObject num) : Prop :=
  (exists o0 g0,
     entropy (host g0) = entropy (host g) /\ fst (respawn bounds o0 g0) = o') /\
  isColliding (vectorPosition o') (colliderRadius o')
    (vectorPosition (body (PLAYER g))) space = false.

Lemma placedClear_same respawn bounds space g g1 o' :
  entropy (host g1) = entropy (host g) -> PLAYER g1 = PLAYER g ->
  placedClear respawn bounds space g1 o' ->
  placedClear respawn bounds space g o'.
Proof.
  intros He Hp ((o0 & g0 & E0 & E) & C). split.
  - exists o0, g0. split; [congruence | exact E].
  - now rewrite <- Hp.
Qed.

Lemma placedClear_drawsOnly respawn bounds space g g1 o' :
  drawsOnly g g1 -> placedClear respawn bounds space g1 o' ->
  placedClear respawn bounds space g o'.
Proof. intros [n ->]. now apply placedClear_same. Qed.

Lemma respawnClear_placed (respawn : Obstacle.method) :
  (forall b o g, drawsOnly g (snd (respawn b o g))) ->
  forall fuel bounds space o g o' g',
    respawnClear fuel respawn bounds space o g = Some (o', g') ->
    drawsOnly g g' /\ placedClear respawn bounds space g o'.
Proof.
  intros Hr fuel. induction fuel as [|fuel IH]; intros bounds space o g o' g' Hs;
    cbn in Hs; [discriminate|].
  pose proof (Hr bounds o g) as D.
  destruct (respawn bounds o g) as [o1 g1] eqn:E. cbn in D.
  destruct (isColliding _ _ _ _) eqn:C.
  - destruct (IH _ _ _ _ _ _ Hs) as [D2 P2]. split.
    + eapply drawsOnly_trans; eassumption.
    + eapply placedClear_drawsOnly; eassumption.
  - injection Hs as <- <-. split; [exact D|]. split.
    + exists o, g. split; [reflexivity | now rewrite E].
    + destruct D as [n ->]. exact C.
Qed.

Lemma forEachClear_placed (respawn : Obstacle.method) :
  (forall b o g, drawsOnly g (snd (respawn b o g))) ->
  forall fuel bounds space l g l' g',
    forEachClear fuel respawn bounds space l g = Some (l', g') ->
    drawsOnly g g' /\ length l' = length l /\
    Forall (placedClear respawn bounds space g) l'.
Proof.
  intros Hr fuel bounds space l.
  induction l as [|o l IH]; intros g l' g' Hs; cbn in Hs.
  - injection Hs as <- <-. split; [apply drawsOnly_refl | split; [reflexivity | constructor]].
  - destruct (respawnClear fuel respawn bounds space o g) as [[o1 g1]|] eqn:E1;
      [|discriminate].
    destruct (forEachClear fuel respawn bounds space l g1) as [[l2 g2]|] eqn:E2;
      [|discriminate].
    injection Hs as <- <-.
    destruct (respawnClear_placed respawn Hr _ _ _ _ _ E1) as [D1 P1].
    destruct (IH _ _ _ E2) as (D2 & L2 & F2).
    split; [eapply drawsOnly_trans; eassumption|].
    split; [cbn; now rewrite L2|].
    constructor; [exact P1|].
    eapply Forall_impl; [|exact F2].
    intros o' Ho'. eapply placedClear_drawsOnly; eassumption.
Qed.

(** [resetObjects]: when the loops end, every orb and every spike was placed
    by its [respawn] and keeps clear of the player's personal space; the
    lists keep their lengths and only the number of values drawn changes
    besides. *)
Lemma resetObjects_placed fuel bounds g g' :
  resetObjects fuel bounds g = Some g' ->
  let space := colliderRadius (body (PLAYER g)) * ofZ 10 in
  (exists orbs spikes n,
     g' = set_SPIKES spikes (set_ORBS orbs (set_host (set_drawn n (host g)) g))) /\
  length (ORBS g') = length (ORBS g) /\
  length (SPIKES g') = length (SPIKES g) /\
  Forall (placedClear Orb.respawn bounds space g) (ORBS g') /\
  Forall (placedClear Spike.respawn bounds space g) (SPIKES g').
Proof.
  unfold resetObjects. intros Hs. cbv zeta.
  destruct (forEachClear fuel Orb.respawn _ _ (ORBS g) g) as [[orbs g1]|] eqn:E1;
    [|discriminate].
  destruct (forEachClear_placed Orb.respawn Orb_respawn_drawsOnly _ _ _ _ _ E1)
    as ([n1 ->] & L1 & F1).
  destruct (forEachClear fuel Spike.respawn _ _ _ _) as [[spikes g2]|] eqn:E2;
    [|discriminate].
  destruct (forEachClear_placed Spike.respawn Spike_respawn_drawsOnly _ _ _ _ _ E2)
    as ([n2 ->] & L2 & F2).
  injection Hs as <-.
  split; [exists orbs, spikes, n2; reflexivity|].
  split; [exact L1|]. split; [exact L2|]. split; [exact F1|].
  eapply Forall_impl; [|exact F2].
  intros o' Ho'.
  apply (@placedClear_same Spike.respawn bounds _ g
           (set_ORBS orbs (set_host (set_drawn n1 (host g)) g)) o');
    [reflexivity | reflexivity | exact Ho'].
Qed.

End Seeding.

(** Keeps clear of the personal space of the player: ten times its collider *)
Definition keepsClear (p : Player Q) (o : PhysicsObject Q) : Prop :=
  isColliding (vectorPosition o) (colliderRadius o)
    (vectorPosition (body p)) (colliderRadius (body p) * 10) = false.

(** Whenever "Play" completes, the session starts with the player in the
    tutorial at (250, 0), at rest, with 5 flings and no fling force; the view
    is [0, 500] x [-375, 375]; the wave's top is at y = 300; and every orb
    and every spike lies inside the view and keeps clear of the player's
    personal space, a circle of ten times the player's collider radius.  The
    numbers of orbs and spikes do not change. *)
Theorem play_seeds_obstacles_clear (fuel : nat) (g g' : Game Q) :
  unitInterval (entropy (host g)) ->
  transitionToGame fuel g = Some g' ->
  let p := PLAYER g' in
  let view := boundingRectangle (CAMERA g') in
  Forall (fun o => inside view o /\ keepsClear p o) (ORBS g' ++ SPIKES g') /\
  length (ORBS g') = length (ORBS g) /\
  length (SPIKES g') = length (SPIKES g) /\
  (currentScene g' = SCENE_ID.Game /\
   playerState p = PLAYER_STATE.Tutorial /\ flings p = 5%Z /\
   (x (vectorPosition (body p)) == 250 /\ y (vectorPosition (body p)) == 0) /\
   velocity (body p) = Vec 0 0 /\ flingForce p = Vec 0 0) /\
  (PIXI.left view == 0 /\ PIXI.right view == 500 /\
   PIXI.top view == -375 /\ PIXI.bottom view == 375) /\
  y (wave_position (WAVE g')) == 300.
Proof.
  intros Hu Ht. cbv zeta.
  unfold transitionToGame, resetGame in Ht.
  set (c0 := set_position CAMERA_POSITION_DEFAULT
               (set_zoom CAMERA_ZOOM_DEFAULT (CAMERA g))) in *.
  assert (Hz : ~ zoom c0 == 0) by (vm_compute; discriminate).
  pose proof (computeMatrix_view c0 Hz) as V. cbv zeta in V.
  destruct V as (Vl & Vr & Vt & Vb & Vw & Vh & _).
  set (g0 := set_CAMERA (Camera.computeMatrix _) _) in Ht.
  assert (Hcam : CAMERA g0 = Camera.computeMatrix c0) by reflexivity.
  assert (Hpl : PLAYER g0 = Player.reset (PLAYER g)) by reflexivity.
  assert (Hen : entropy (host g0) = entropy (host g)) by reflexivity.
  assert (Ho : ORBS g0 = ORBS g /\ SPIKES g0 = SPIKES g) by (split; reflexivity).
  clearbody g0.
  destruct (resetObjects fuel (boundingRectangle (CAMERA g0)) g0) as [g1|] eqn:E;
    [|discriminate].
  injection Ht as <-.
  pose proof (resetObjects_placed _ _ _ E) as R. cbv zeta in R.
  destruct R as ((orbs & spikes & n & ->) & L1 & L2 & F1 & F2).
  cbn [ORBS SPIKES set_SPIKES set_ORBS set_host] in L1, L2, F1, F2.
  change (PLAYER (switchToScene _ _)) with (PLAYER g0).
  change (CAMERA (switchToScene _ _)) with (CAMERA g0).
  change (ORBS (switchToScene _ _)) with orbs.
  change (SPIKES (switchToScene _ _)) with spikes.
  rewrite Hcam in *.
  set (b := boundingRectangle (Camera.computeMatrix c0)) in *. clearbody b.
  assert (Hw : 0 <= PIXI.width b)
    by (rewrite Vw; vm_compute; discriminate).
  assert (Hh : 0 <= PIXI.height b)
    by (rewrite Vh; vm_compute; discriminate).
  split.
  { apply Forall_app. split.
    - eapply Forall_impl; [|exact F1].
      intros o' ((o0 & g00 & E0 & <-) & C). split; [|exact C].
      apply Orb_respawn_inside; [|exact Hw|exact Hh].
      unfold unitInterval. rewrite E0, Hen. exact Hu.
    - eapply Forall_impl; [|exact F2].
      intros o' ((o0 & g00 & E0 & <-) & C). split; [|exact C].
      apply Spike_respawn_inside; [|exact Hw|exact Hh].
      unfold unitInterval. rewrite E0, Hen. exact Hu. }
  destruct Ho as [Ho1 Ho2].
  split; [now rewrite L1, Ho1|]. split; [now rewrite L2, Ho2|].
  split.
  { rewrite Hpl. repeat split. }
  split.
  { rewrite Vl, Vr, Vt, Vb. repeat split; vm_compute; reflexivity. }
  reflexivity.
Qed.

(** The first session: "Play" right after [start()], with an oracle that
    always answers 1/8. *)
Definition first_play : Game Q :=
  match transitionToGame 3 (start (Vec 0 0) [] (fun _ => 1 # 8)) with
  | Some g => g
  | None => start (Vec 0 0) [] (fun _ => 1 # 8)
  end.

Lemma play_seeds_obstacles_clear_witness :
  let g := start (Vec 0 0) [] (fun _ => 1 # 8) in
  let g' := first_play in
  let p := PLAYER g' in
  let view := boundingRectangle (CAMERA g') in
  (length (ORBS g') = 10%nat /\ length (SPIKES g') = 7%nat) /\
  Forall (fun o => inside view o /\ keepsClear p o) (ORBS g' ++ SPIKES g') /\
  length (ORBS g') = length (ORBS g) /\
  length (SPIKES g') = length (SPIKES g) /\
  (currentScene g' = SCENE_ID.Game /\
   playerState p = PLAYER_STATE.Tutorial /\ flings p = 5%Z /\
   (x (vectorPosition (body p)) == 250 /\ y (vectorPosition (body p)) == 0) /\
   velocity (body p) = Vec 0 0 /\ flingForce p = Vec 0 0) /\
  (PIXI.left view == 0 /\ PIXI.right view == 500 /\
   PIXI.top view == -375 /\ PIXI.bottom view == 375) /\
  y (wave_position (WAVE g')) == 300.
Proof.
  split; [split; vm_compute; reflexivity|].
  apply (@play_seeds_obstacles_clear 3%nat (start (Vec 0 0) [] (fun _ => 1 # 8)) first_play).
  - intros n. vm_compute. split; [discriminate | reflexivity].
  - vm_compute. reflexivity.
Defined.

(** ** The states of the player and the scenes *)

Section StateMachine.
Context {num : Type} `{JSNumber num}.
Local Open Scope num_scope.

Lemma onDeath_scene g : currentScene (Player.onDeath g) = currentScene g.
Proof.
  unfold Player.onDeath, recordDeathHeight.
  match goal with |- context [if ?c then _ else _] => destruct c end; reflexivity.
Qed.

Lemma whenAlive_scene g : currentScene (Player.whenAlive g) = currentScene g.
Proof.
  unfold Player.whenAlive. destruct (Wave.isColliding _ _).
  - apply onDeath_scene.
  - apply checkCollisions_keepsMode.
Qed.

(** The [switch] of [Player.update] changes the scene only when the player
    is dead, and then to the menu. *)
Lemma dispatch_scene g :
  currentScene (Player.dispatch g) = currentScene g \/
  (playerState (PLAYER g) = PLAYER_STATE.Dead /\
   currentScene (Player.dispatch g) = SCENE_ID.Menu).
Proof.
  unfold Player.dispatch. destruct (playerState (PLAYER g)) eqn:E.
  - unfold Player.whenDead. destruct (_ <? _); [right | left]; auto.
  - left. apply whenAlive_scene.
  - left. change (currentScene (Player.whenAlive g) = currentScene g).
    apply whenAlive_scene.
  - left. reflexivity.
Qed.

(** The [switch] of [Player.update] kills the player only from the states
    [Idle] and [Aiming]. *)
Lemma dispatch_death g :
  playerState (PLAYER (Player.dispatch g)) = playerState (PLAYER g) \/
  (playerState (PLAYER (Player.dispatch g)) = PLAYER_STATE.Dead /\
   (playerState (PLAYER g) = PLAYER_STATE.Idle \/
    playerState (PLAYER g) = PLAYER_STATE.Aiming)).
Proof.
  destruct (dispatch_playerState g) as [Hk | Hd]; [left; exact Hk|].
  destruct (playerState (PLAYER g)) eqn:E; auto.
  unfold Player.dispatch in Hd. rewrite E in Hd. cbn in Hd.
  rewrite E in Hd. discriminate.
Qed.

Lemma update_transitions elapsedMS g :
  (playerState (PLAYER (update elapsedMS g)) = playerState (PLAYER g) \/
   (playerState (PLAYER (update elapsedMS g)) = PLAYER_STATE.Dead /\
    (playerState (PLAYER g) = PLAYER_STATE.Idle \/
     playerState (PLAYER g) = PLAYER_STATE.Aiming) /\
    currentScene g = SCENE_ID.Game)) /\
  (currentScene (update elapsedMS g) = currentScene g \/
   (currentScene (update elapsedMS g) = SCENE_ID.Menu /\
    playerState (PLAYER g) = PLAYER_STATE.Dead /\
    currentScene g = SCENE_ID.Game)).
Proof.
  unfold update. destruct (currentScene g) eqn:Hs.
  - split; left; [reflexivity | exact Hs].
  - destruct (updateGame_shape elapsedMS g) as (g1 & -> & Hp & Hsc & _).
    destruct (Player_update_shape g1) as (b & h & ->).
    change (playerState (PLAYER (Wave.update _)))
      with (playerState (PLAYER (Player.dispatch g1))).
    change (currentScene (Wave.update _)) with (currentScene (Player.dispatch g1)).
    rewrite <- Hp. split.
    + destruct (dispatch_death g1) as [Hk | [Hd Hf]]; auto.
    + destruct (dispatch_scene g1) as [Hk | [Hd Hm]].
      * left. rewrite Hk, Hsc. exact Hs.
      * right. auto.
Qed.

(** The transitions of the player's state and of the scene.  A press on the
    canvas starts aiming unless the player is dead; a release ends aiming,
    and does nothing else; "Play" puts the player in the tutorial of the game
    scene; a frame leaves the state or kills a player that is idle or aiming
    in the game scene, and leaves the scene or, when the player is dead in
    the game scene, goes to the menu; nothing else changes either. *)
Theorem player_state_transitions (fuel : nat) (e : Event) (g g' : Game num) :
  step fuel e g = Some g' ->
  let s := playerState (PLAYER g) in
  let s' := playerState (PLAYER g') in
  let scene := currentScene g in
  let scene' := currentScene g' in
  match e with
  | pointerdown _ _ =>
      s' = match s with PLAYER_STATE.Dead => PLAYER_STATE.Dead
                      | _ => PLAYER_STATE.Aiming end /\
      scene' = scene
  | pointerup _ _ =>
      s' = match s with PLAYER_STATE.Aiming => PLAYER_STATE.Idle | _ => s end /\
      scene' = scene
  | clickPlay => s' = PLAYER_STATE.Tutorial /\ scene' = SCENE_ID.Game
  | tick _ =>
      (s' = s \/
       (s' = PLAYER_STATE.Dead /\
        (s = PLAYER_STATE.Idle \/ s = PLAYER_STATE.Aiming) /\
        scene = SCENE_ID.Game)) /\
      (scene' = scene \/
       (scene' = SCENE_ID.Menu /\ s = PLAYER_STATE.Dead /\ scene = SCENE_ID.Game))
  | _ => s' = s /\ scene' = scene
  end.
Proof.
  intros Hs. cbv zeta. destruct e; cbn in Hs.
  - injection Hs as <-. split; reflexivity.
  - injection Hs as <-. unfold onpointerdown. rewrite onAim_playerState. cbn.
    split; [reflexivity|].
    unfold Player.onAim. cbn. destruct (playerState (PLAYER g)); reflexivity.
  - injection Hs as <-. unfold onpointerup.
    match goal with |- context [Player.onFling ?g0] =>
      destruct (onFling_playerState g0) as [-> ->] end.
    cbn. destruct (playerState (PLAYER g)); split; reflexivity.
  - destruct (transitionToGame fuel g) as [g1|] eqn:E; [|discriminate].
    injection Hs as <-. apply transitionToGame_shape in E.
    destruct E as (Hp & Hsc & _). cbn. rewrite Hp. split; [reflexivity | exact Hsc].
  - injection Hs as <-. split; reflexivity.
  - injection Hs as <-. split; reflexivity.
  - injection Hs as <-. apply update_transitions.
Qed.

(** In the menu the player is dead. *)
Definition deadInMenu (g : Game num) : Prop :=
  currentScene g = SCENE_ID.Menu -> playerState (PLAYER g) = PLAYER_STATE.Dead.

Lemma whenDead_PLAYER g : PLAYER (Player.whenDead g) = PLAYER g.
Proof. unfold Player.whenDead. destruct (_ <? _); reflexivity. Qed.

Lemma step_deadInMenu fuel e g g' :
  step fuel e g = Some g' -> deadInMenu g -> deadInMenu g'.
Proof.
  intros Hs Hg. unfold deadInMenu in *.
  destruct e; cbn in Hs;
    [injection Hs as <- | injection Hs as <- | injection Hs as <- |
    | injection Hs as <- | injection Hs as <- | injection Hs as <-].
  - exact Hg.
  - unfold onpointerdown. rewrite onAim_playerState. cbn.
    unfold Player.onAim. cbn.
    destruct (playerState (PLAYER g)) eqn:E; cbn; intros Hm;
      try reflexivity; specialize (Hg Hm); discriminate.
  - unfold onpointerup.
    match goal with |- context [Player.onFling ?g0] =>
      destruct (onFling_playerState g0) as [-> ->] end.
    cbn. intros Hm. specialize (Hg Hm). rewrite Hg. reflexivity.
  - destruct (transitionToGame fuel g) as [g1|] eqn:E; [|discriminate].
    injection Hs as <-. apply transitionToGame_shape in E.
    destruct E as (_ & Hsc & _). cbn. rewrite Hsc. discriminate.
  - exact Hg.
  - exact Hg.
  - destruct (update_transitions elapsedMS g) as [Hp Hsc]. intros Hm.
    destruct Hsc as [Hk | (_ & Hd & _)].
    + rewrite Hk in Hm. specialize (Hg Hm).
      destruct Hp as [Hp | [Hp _]]; [rewrite Hp; exact Hg | exact Hp].
    + destruct Hp as [Hp | [Hp _]]; [rewrite Hp; exact Hd | exact Hp].
Qed.

Lemma reachable_deadInMenu g : reachable g -> deadInMenu g.
Proof.
  induction 1 as [c s en | fuel e g g' _ IH Hs].
  - unfold deadInMenu, start, loadHighestDeath. destruct s; reflexivity.
  - eapply step_deadInMenu; eassumption.
Qed.

(** While the menu is shown, the player is dead and nothing but "Play"
    touches the game: a press, a release, a pointer move, a frame, and the
    other menu items leave the scene, the player, the obstacles, the wave,
    the time scales, the recorded heights and the storage as they are; only
    the other menu items are heard.  In particular a press on the canvas
    does not start aiming. *)
Theorem menu_is_inert (g : Game num) :
  reachable g ->
  currentScene g = SCENE_ID.Menu ->
  playerState (PLAYER g) = PLAYER_STATE.Dead /\
  forall fuel e g',
    step fuel e g = Some g' ->
    e <> clickPlay ->
    currentScene g' = SCENE_ID.Menu /\
    PLAYER g' = PLAYER g /\ ORBS g' = ORBS g /\ SPIKES g' = SPIKES g /\
    WAVE g' = WAVE g /\ physics g' = physics g /\
    lastDeathHeight g' = lastDeathHeight g /\
    highestDeathHeight g' = highestDeathHeight g /\
    localStorage (host g') = localStorage (host g) /\
    played (host g') =
      played (host g) ++
      match e with
      | clickLink => [SFX_ID.Select]
      | overMenuItem => [SFX_ID.Swipe]
      | _ => []
      end.
Proof.
  intros Hr Hm. pose proof (reachable_deadInMenu Hr Hm) as Hd.
  split; [exact Hd|].
  intros fuel e g' Hs Hne. destruct e; cbn in Hs; try (now elim Hne);
    injection Hs as <-.
  - rewrite app_nil_r. repeat split; assumption.
  - unfold onpointerdown, Player.onAim. cbn. rewrite Hd. cbn.
    rewrite app_nil_r. repeat split; assumption.
  - unfold onpointerup, Player.onFling. cbn. rewrite Hd. cbn.
    rewrite app_nil_r. repeat split; assumption.
  - repeat split; assumption.
  - repeat split; assumption.
  - unfold update. rewrite Hm. cbn. rewrite app_nil_r. repeat split; assumption.
Qed.

End StateMachine.

Lemma player_state_transitions_witness :
  let g := after_play in
  let g' := onpointerdown 10 20 g in
  (playerState (PLAYER g) = PLAYER_STATE.Tutorial /\
   playerState (PLAYER g') = PLAYER_STATE.Aiming) /\
  (playerState (PLAYER g') =
     match playerState (PLAYER g) with
     | PLAYER_STATE.Dead => PLAYER_STATE.Dead
     | _ => PLAYER_STATE.Aiming
     end /\
   currentScene g' = currentScene g).
Proof.
  split; [split; vm_compute; reflexivity|].
  apply (@player_state_transitions Q _ 0%nat (pointerdown 10 20) after_play
           (onpointerdown 10 20 after_play)).
  reflexivity.
Defined.

Lemma menu_is_inert_witness :
  let g := start (Vec 0 0) [] (fun _ => 1 # 8) in
  playerState (PLAYER g) = PLAYER_STATE.Dead /\
  forall fuel e g',
    step fuel e g = Some g' ->
    e <> clickPlay ->
    currentScene g' = SCENE_ID.Menu /\
    PLAYER g' = PLAYER g /\ ORBS g' = ORBS g /\ SPIKES g' = SPIKES g /\
    WAVE g' = WAVE g /\ physics g' = physics g /\
    lastDeathHeight g' = lastDeathHeight g /\
    highestDeathHeight g' = highestDeathHeight g /\
    localStorage (host g') = localStorage (host g) /\
    played (host g') =
      played (host g) ++
      match e with
      | clickLink => [SFX_ID.Select]
      | overMenuItem => [SFX_ID.Swipe]
      | _ => []
      end.
Proof.
  apply (@menu_is_inert Q _ (start (Vec 0 0) [] (fun _ => 1 # 8))).
  - apply reachable_start.
  - reflexivity.
Defined.

(** ** The obstacles and their sizes *)

(** The loop [for (const o of list)] keeps a property of the members that
    every round keeps, under an invariant of the rest of the state. *)
Lemma forEach_Forall {num : Type} `{JSNumber num}
    (P : PhysicsObject num -> Prop) (I : Game num -> Prop)
    (body : PhysicsObject num -> Game num -> PhysicsObject num * Game num) :
  (forall o g, I g -> P o -> P (fst (body o g))) ->
  (forall o g, I g -> I (snd (body o g))) ->
  forall l g, I g -> Forall P l ->
    Forall P (fst (forEach body l g)) /\ I (snd (forEach body l g)).
Proof.
  intros HP HI l. induction l as [|o l IH]; intros g Hg Hl; cbn.
  - split; [constructor | exact Hg].
  - inversion Hl as [|? ? Ho Hl']; subst.
    specialize (HP o g Hg Ho). specialize (HI o g Hg).
    destruct (body o g) as [o' g1]. cbn in HP, HI.
    specialize (IH g1 HI Hl'). destruct (forEach body l g1) as [l' g2].
    cbn in *. destruct IH as [IH1 IH2]. split; [constructor; assumption | exact IH2].
Qed.

Section Population.
Variable en : nat -> Q.
Hypothesis en_unit : unitInterval en.

(** An obstacle of base radius [B], scaled by a factor between 0.5 and 1 *)
Definition sized (B : Q) (o : PhysicsObject Q) : Prop :=
  baseColliderRadius o == B /\
  B * (1 # 2) <= colliderRadius o /\ colliderRadius o <= B.

Definition population (g : Game Q) : Prop :=
  entropy (host g) = en /\
  (length (ORBS g) = 10%nat /\ Forall (sized 40) (ORBS g)) /\
  (length (SPIKES g) = 7%nat /\ Forall (sized (45 # 2)) (SPIKES g)) /\
  colliderRadius (body (PLAYER g)) == 10.

Lemma population_ext (g g' : Game Q) :
  entropy (host g') = entropy (host g) ->
  ORBS g' = ORBS g -> SPIKES g' = SPIKES g ->
  colliderRadius (body (PLAYER g')) = colliderRadius (body (PLAYER g)) ->
  population g -> population g'.
Proof. unfold population. intros -> -> -> ->. trivial. Qed.

Lemma respawn_sized (B lo hi : Q) b (o : PhysicsObject Q) (g : Game Q) :
  entropy (host g) = en ->
  0 <= B -> 1 # 2 <= lo -> lo <= hi -> hi <= 1 ->
  baseColliderRadius o == B ->
  sized B (fst (Obstacle.respawn b lo hi o g)).
Proof.
  intros He HB Hlo Hlh Hhi Hb.
  unfold Obstacle.respawn, randomRange2D, randomRange, random, Math_random,
    PhysicsObject.setScale, PhysicsObject.updatePosition, sized.
  cbn. rewrite He.
  destruct (en_unit (S (S (drawn (host g))))) as [C1 C2].
  set (r := en (S (S (drawn (host g))))) in *. clearbody r.
  split; [exact Hb|]. rewrite Hb.
  assert (S1 : 1 # 2 <= r * (hi - lo) + lo) by nra.
  assert (S2 : r * (hi - lo) + lo <= 1) by nra.
  set (s := r * (hi - lo) + lo) in *. clearbody s.
  split; nra.
Qed.

Lemma Orb_respawn_sized (B : Q) b (o : PhysicsObject Q) (g : Game Q) :
  entropy (host g) = en -> 0 <= B -> baseColliderRadius o == B ->
  sized B (fst (Orb.respawn b o g)).
Proof.
  intros He HB Hb. unfold Orb.respawn.
  apply respawn_sized; try assumption; vm_compute; discriminate.
Qed.

Lemma Spike_respawn_sized (B : Q) b (o : PhysicsObject Q) (g : Game Q) :
  entropy (host g) = en -> 0 <= B -> baseColliderRadius o == B ->
  sized B (fst (Spike.respawn b o g)).
Proof.
  intros He HB Hb. unfold Spike.respawn.
  pose proof (@respawn_sized B (decimal 5 10) (ofZ 1) b o g He HB) as R.
  destruct (Obstacle.respawn b (decimal 5 10) (ofZ 1) o g) as [o' g1].
  cbn in *. apply R; try assumption; vm_compute; discriminate.
Qed.

Lemma drawsOnly_entropy (g g' : Game Q) :
  drawsOnly g g' -> entropy (host g') = entropy (host g).
Proof. intros [n ->]. reflexivity. Qed.

(** A round of the four loops over the obstacles *)
Lemma Orb_update_sized B o g :
  entropy (host g) = en -> 0 <= B -> sized B o -> sized B (fst (Orb.update o g)).
Proof.
  intros He HB Hs. unfold Orb.update, Obstacle.update.
  destruct (_ >? _)%num; [|exact Hs].
  apply Orb_respawn_sized; try assumption. apply Hs.
Qed.

Lemma Spike_update_sized B o g :
  entropy (host g) = en -> 0 <= B -> sized B o -> sized B (fst (Spike.update o g)).
Proof.
  intros He HB Hs. unfold Spike.update, Obstacle.update.
  destruct (_ >? _)%num; [|exact Hs].
  apply Spike_respawn_sized; try assumption. apply Hs.
Qed.

Lemma hitOrb_sized B o g :
  entropy (host g) = en -> 0 <= B -> sized B o -> sized B (fst (Player.hitOrb o g)).
Proof.
  intros He HB Hs. unfold Player.hitOrb.
  destruct (PhysicsObject.isColliding _ _); [|exact Hs].
  unfold Orb.destroy, Obstacle.destroy.
  match goal with |- context [Orb.respawn ?b ?o0 ?g0] =>
    pose proof (@Orb_respawn_sized B b o0 g0 He HB (proj1 Hs)) as R;
    destruct (Orb.respawn b o0 g0) as [o' g1]
  end.
  exact R.
Qed.

Lemma hitSpike_sized B o g :
  entropy (host g) = en -> 0 <= B -> sized B o -> sized B (fst (Player.hitSpike o g)).
Proof.
  intros He HB Hs. unfold Player.hitSpike.
  destruct (PhysicsObject.isColliding _ _); [|exact Hs].
  unfold Spike.destroy, Obstacle.destroy.
  match goal with |- context [Spike.respawn ?b ?o0 ?g0] =>
    pose proof (@Spike_respawn_sized B b o0 g0 He HB (proj1 Hs)) as R;
    destruct (Spike.respawn b o0 g0) as [o' g1]
  end.
  exact R.
Qed.

(** What a loop over the obstacles keeps of the rest of the state *)
Definition aside (g g' : Game Q) : Prop :=
  entropy (host g') = en /\
  ORBS g' = ORBS g /\ SPIKES g' = SPIKES g /\
  colliderRadius (body (PLAYER g')) = colliderRadius (body (PLAYER g)).

Lemma Orb_update_aside g0 o g : aside g0 g -> aside g0 (snd (Orb.update o g)).
Proof.
  intros (He & Ho & Hs & Hp).
  destruct (Orb_update_drawsOnly o g) as [n ->]. repeat split; assumption.
Qed.

Lemma Spike_update_aside g0 o g : aside g0 g -> aside g0 (snd (Spike.update o g)).
Proof.
  intros (He & Ho & Hs & Hp).
  destruct (Spike_update_drawsOnly o g) as [n ->]. repeat split; assumption.
Qed.

Lemma hitOrb_aside g0 o g : aside g0 g -> aside g0 (snd (Player.hitOrb o g)).
Proof.
  intros (He & Ho & Hs & Hp).
  destruct (hitOrb_keepsPhysics o g) as (_ & _ & _ & _ & _ & _ & _ & _ & Kr & _ & Ke & _).
  destruct (hitOrb_playerAndHostOnly o g) as (p & h & E).
  unfold aside. rewrite Ke, Kr. rewrite E. repeat split; assumption.
Qed.

Lemma hitSpike_aside g0 o g : aside g0 g -> aside g0 (snd (Player.hitSpike o g)).
Proof.
  intros (He & Ho & Hs & Hp).
  destruct (hitSpike_keepsPhysics o g) as (_ & _ & _ & _ & _ & _ & _ & _ & Kr & _ & Ke & _).
  destruct (hitSpike_playerAndHostOnly o g) as (p & h & E).
  unfold aside. rewrite Ke, Kr. rewrite E. repeat split; assumption.
Qed.

Lemma aside_refl g : entropy (host g) = en -> aside g g.
Proof. intros He. repeat split; assumption. Qed.

(** Both pairs of loops: [body1] over the orbs, then [body2] over the spikes *)
Lemma loops_population
    (body1 body2 : PhysicsObject Q -> Game Q -> PhysicsObject Q * Game Q) :
  (forall B o g, entropy (host g) = en -> 0 <= B -> sized B o ->
     sized B (fst (body1 o g))) ->
  (forall B o g, entropy (host g) = en -> 0 <= B -> sized B o ->
     sized B (fst (body2 o g))) ->
  (forall g0 o g, aside g0 g -> aside g0 (snd (body1 o g))) ->
  (forall g0 o g, aside g0 g -> aside g0 (snd (body2 o g))) ->
  forall g, population g ->
    population
      (let (orbs, g) := forEach body1 (ORBS g) g in
       let g := set_ORBS orbs g in
       let (spikes, g) := forEach body2 (SPIKES g) g in
       set_SPIKES spikes g).
Proof.
  intros S1 S2 A1 A2 g (He & (Lo & Fo) & (Ls & Fs) & Hp).
  pose proof (@forEach_Forall _ _ (sized 40) (aside g) body1) as F1.
  specialize (F1 (fun o g1 Hg Ho => S1 40 o g1 (proj1 Hg) ltac:(discriminate) Ho)).
  specialize (F1 (A1 g) (ORBS g) g (@aside_refl g He) Fo).
  pose proof (forEach_length body1 (ORBS g) g) as L1.
  destruct (forEach body1 (ORBS g) g) as [orbs g1]. cbn [fst snd] in F1, L1.
  destruct F1 as [F1 (He1 & Ho1 & Hs1 & Hp1)].
  cbn [SPIKES set_ORBS]. rewrite Hs1.
  assert (Ag : aside (set_ORBS orbs g1) (set_ORBS orbs g1)) by (apply aside_refl; exact He1).
  pose proof (@forEach_Forall _ _ (sized (45 # 2)) (aside (set_ORBS orbs g1)) body2) as F2.
  specialize (F2 (fun o g2 Hg Ho => S2 (45 # 2) o g2 (proj1 Hg) ltac:(discriminate) Ho)).
  specialize (F2 (A2 (set_ORBS orbs g1)) (SPIKES g) (set_ORBS orbs g1) Ag Fs).
  pose proof (forEach_length body2 (SPIKES g) (set_ORBS orbs g1)) as L2.
  destruct (forEach body2 (SPIKES g) (set_ORBS orbs g1)) as [spikes g2].
  cbn [fst snd] in F2, L2.
  destruct F2 as [F2 (He2 & Ho2 & Hs2 & Hp2)].
  unfold population. cbn [ORBS SPIKES PLAYER host set_SPIKES].
  rewrite Ho2, Hp2. cbn [ORBS PLAYER set_ORBS]. rewrite Hp1.
  split; [exact He2|]. split; [split; [congruence | exact F1]|].
  split; [split; [congruence | exact F2]|]. exact Hp.
Qed.

Lemma checkCollisions_population g :
  population g -> population (Player.checkCollisions g).
Proof.
  apply (loops_population Player.hitOrb Player.hitSpike).
  - intros; now apply hitOrb_sized.
  - intros; now apply hitSpike_sized.
  - intros; now apply hitOrb_aside.
  - intros; now apply hitSpike_aside.
Qed.

Lemma dispatch_population g : population g -> population (Player.dispatch g).
Proof.
  intros Hg.
  assert (Ha : population (Player.whenAlive g)).
  { unfold Player.whenAlive. destruct (Wave.isColliding _ _).
    - revert Hg. apply population_ext;
        unfold Player.onDeath, recordDeathHeight;
        match goal with |- context [if ?c then _ else _] => destruct c end;
        reflexivity.
    - now apply checkCollisions_population. }
  unfold Player.dispatch. destruct (playerState (PLAYER g)).
  - revert Hg. apply population_ext; unfold Player.whenDead;
      destruct (_ <? _)%num; reflexivity.
  - exact Ha.
  - revert Ha. apply population_ext; reflexivity.
  - revert Hg. apply population_ext; reflexivity.
Qed.

Lemma Player_update_population g : population g -> population (Player.update g).
Proof.
  intros Hg. apply dispatch_population in Hg. revert Hg.
  apply population_ext; unfold Player.update, Player.bounceOffWalls;
    destruct (_ <? _)%num; [|destruct (_ >? _)%num| |destruct (_ >? _)%num
                            | |destruct (_ >? _)%num| |destruct (_ >? _)%num];
    reflexivity.
Qed.

Lemma updateObjects_population g : population g -> population (updateObjects g).
Proof.
  intros Hg.
  pose proof (loops_population Orb.update Spike.update
                ltac:(intros; now apply Orb_update_sized)
                ltac:(intros; now apply Spike_update_sized)
                ltac:(intros; now apply Orb_update_aside)
                ltac:(intros; now apply Spike_update_aside) Hg) as L.
  unfold updateObjects. revert L.
  destruct (forEach Orb.update (ORBS g) g) as [orbs g1]. cbv zeta.
  destruct (forEach Spike.update (SPIKES (set_ORBS orbs g1)) (set_ORBS orbs g1))
    as [spikes g2].
  intros L. apply Player_update_population in L. revert L.
  apply population_ext; reflexivity.
Qed.

Lemma update_population ms g : population g -> population (update ms g).
Proof.
  intros Hg. unfold update. destruct (currentScene g).
  - revert Hg. apply population_ext; reflexivity.
  - unfold updateGame. apply updateObjects_population.
    revert Hg. apply population_ext; reflexivity.
Qed.

(** The loops of [resetObjects] *)
Lemma respawnClear_sized (respawn : Obstacle.method) (B : Q) :
  (forall b o g, entropy (host g) = en -> baseColliderRadius o == B ->
     sized B (fst (respawn b o g))) ->
  (forall b o g, drawsOnly g (snd (respawn b o g))) ->
  forall fuel bounds space o g o' g',
    respawnClear fuel respawn bounds space o g = Some (o', g') ->
    entropy (host g) = en -> baseColliderRadius o == B ->
    sized B o' /\ drawsOnly g g'.
Proof.
  intros Hs Hd fuel. induction fuel as [|fuel IH];
    intros bounds space o g o' g' Hr He Hb; cbn [respawnClear] in Hr; [discriminate|].
  specialize (Hs bounds o g He Hb). specialize (Hd bounds o g).
  destruct (respawn bounds o g) as [o1 g1]. cbn [fst snd] in Hs, Hd.
  destruct (isColliding _ _ _ _).
  - destruct (IH _ _ _ _ _ _ Hr) as [I1 I2].
    + rewrite (drawsOnly_entropy Hd). exact He.
    + apply Hs.
    + split; [exact I1 | eapply drawsOnly_trans; eassumption].
  - injection Hr as <- <-. split; assumption.
Qed.

Lemma forEachClear_sized (respawn : Obstacle.method) (B : Q) :
  (forall b o g, entropy (host g) = en -> baseColliderRadius o == B ->
     sized B (fst (respawn b o g))) ->
  (forall b o g, drawsOnly g (snd (respawn b o g))) ->
  forall fuel bounds space l g l' g',
    forEachClear fuel respawn bounds space l g = Some (l', g') ->
    entropy (host g) = en -> Forall (sized B) l ->
    Forall (sized B) l' /\ drawsOnly g g' /\ length l' = length l.
Proof.
  intros Hs Hd fuel bounds space l.
  induction l as [|o l IH]; intros g l' g' Hr He Hl; cbn in Hr.
  - injection Hr as <- <-. split; [constructor|]. split; [apply drawsOnly_refl | reflexivity].
  - apply Forall_cons_iff in Hl. destruct Hl as [Ho Hl'].
    destruct (respawnClear fuel respawn bounds space o g) as [[o1 g1]|] eqn:E1;
      [|discriminate].
    destruct (forEachClear fuel respawn bounds space l g1) as [[l2 g2]|] eqn:E2;
      [|discriminate].
    injection Hr as <- <-.
    destruct (@respawnClear_sized respawn B Hs Hd fuel bounds space o g o1 g1
                E1 He (proj1 Ho)) as [R1 R2].
    destruct (IH _ _ _ E2) as (I1 & I2 & I3).
    + rewrite (drawsOnly_entropy R2). exact He.
    + exact Hl'.
    + split; [constructor; assumption|].
      split; [eapply drawsOnly_trans; eassumption | cbn; now rewrite I3].
Qed.

Lemma resetObjects_population fuel bounds g g' :
  resetObjects fuel bounds g = Some g' -> population g -> population g'.
Proof.
  unfold resetObjects. intros Hr (He & (Lo & Fo) & (Ls & Fs) & Hp).
  destruct (forEachClear fuel Orb.respawn _ _ (ORBS g) g) as [[orbs g1]|] eqn:E1;
    [|discriminate].
  assert (S1 : forall b o g0, entropy (host g0) = en -> baseColliderRadius o == 40 ->
                 sized 40 (fst (Orb.respawn b o g0)))
    by (intros; apply Orb_respawn_sized; [assumption | discriminate | assumption]).
  assert (S2 : forall b o g0, entropy (host g0) = en -> baseColliderRadius o == 45 # 2 ->
                 sized (45 # 2) (fst (Spike.respawn b o g0)))
    by (intros; apply Spike_respawn_sized; [assumption | discriminate | assumption]).
  destruct (@forEachClear_sized Orb.respawn 40 S1 (@Orb_respawn_drawsOnly _ _)
              _ _ _ _ _ _ _ E1 He Fo) as (F1 & [n1 ->] & L1).
  cbn [SPIKES set_ORBS set_host] in Hr.
  destruct (forEachClear fuel Spike.respawn _ _ (SPIKES g) _) as [[spikes g2]|] eqn:E2;
    [|discriminate].
  destruct (@forEachClear_sized Spike.respawn (45 # 2) S2 (@Spike_respawn_drawsOnly _ _)
              _ _ _ _ _ _ _ E2 He Fs) as (F2 & [n2 ->] & L2).
  injection Hr as <-.
  unfold population. cbn.
  split; [exact He|]. split; [split; [congruence | exact F1]|].
  split; [split; [congruence | exact F2]|]. exact Hp.
Qed.

Lemma transitionToGame_population fuel g g' :
  transitionToGame fuel g = Some g' -> population g -> population g'.
Proof.
  unfold transitionToGame, resetGame. intros Hr Hg.
  destruct (resetObjects fuel _ _) as [g1|] eqn:E; [|discriminate].
  injection Hr as <-.
  apply resetObjects_population in E.
  - revert E. apply population_ext; reflexivity.
  - revert Hg. apply population_ext; reflexivity.
Qed.

Lemma step_population fuel e g g' :
  step fuel e g = Some g' -> population g -> population g'.
Proof.
  destruct e; cbn; intros Hs Hg;
    [injection Hs as <- | injection Hs as <- | injection Hs as <- |
    | injection Hs as <- | injection Hs as <- | injection Hs as <-].
  - revert Hg. apply population_ext; reflexivity.
  - revert Hg. apply population_ext; unfold onpointerdown, Player.onAim; cbn;
      destruct (playerState (PLAYER g)); reflexivity.
  - revert Hg. apply population_ext; unfold onpointerup, Player.onFling; cbn;
      destruct (playerState (PLAYER g)); try reflexivity;
      cbn; destruct (_ || _); reflexivity.
  - destruct (transitionToGame fuel g) as [g1|] eqn:E; [|discriminate].
    injection Hs as <-.
    apply (@transitionToGame_population fuel g g1 E) in Hg.
    revert Hg. apply population_ext; reflexivity.
  - revert Hg. apply population_ext; reflexivity.
  - revert Hg. apply population_ext; reflexivity.
  - now apply update_population.
Qed.

End Population.

(** The oracle of [Math.random] is never replaced. *)
Lemma Player_update_entropy {num : Type} `{JSNumber num} (g : Game num) :
  entropy (host (Player.update g)) = entropy (host g).
Proof.
  destruct (dispatch_keepsPhysics g) as (_ & _ & _ & _ & _ & _ & _ & _ & _ & _ & Ke & _).
  rewrite <- Ke.
  unfold Player.update, Player.bounceOffWalls.
  destruct (_ <? _)%num; [|destruct (_ >? _)%num]; reflexivity.
Qed.

Lemma step_entropy {num : Type} `{JSNumber num} fuel e (g g' : Game num) :
  step fuel e g = Some g' -> entropy (host g') = entropy (host g).
Proof.
  destruct e; cbn; intros Hs;
    [injection Hs as <- | injection Hs as <- | injection Hs as <- |
    | injection Hs as <- | injection Hs as <- | injection Hs as <-];
    try reflexivity.
  - unfold onpointerdown, Player.onAim. cbn.
    destruct (playerState (PLAYER g)); reflexivity.
  - unfold onpointerup, Player.onFling. cbn.
    destruct (playerState (PLAYER g)); try reflexivity.
    cbn. destruct (_ || _); reflexivity.
  - destruct (transitionToGame fuel g) as [g1|] eqn:E; [|discriminate].
    injection Hs as <-. unfold transitionToGame, resetGame in E.
    destruct (resetObjects fuel _ _) as [g2|] eqn:E2; [|discriminate].
    injection E as <-.
    destruct (resetObjects_placed _ _ _ E2) as ((orbs & spikes & n & ->) & _).
    reflexivity.
  - unfold update. destruct (currentScene g); [reflexivity|].
    unfold updateGame.
    match goal with |- context [updateObjects ?g0] =>
      destruct (updateObjects_shape_draws g0) as (orbs & spikes & n & _ & _ & ->)
    end.
    change (entropy (host (Wave.update ?g0))) with (entropy (host g0)).
    rewrite Player_update_entropy. reflexivity.
Qed.

Lemma reachable_population (g : Game Q) :
  reachable g ->
  unitInterval (entropy (host g)) -> population (entropy (host g)) g.
Proof.
  induction 1 as [c s en | fuel e g g' _ IH Hs]; intros Hu.
  - unfold population, start, loadHighestDeath.
    destruct s; cbn; (split; [reflexivity|]);
      (split; [split; [reflexivity|]|split; [split; [reflexivity|]|]]);
      try (vm_compute; reflexivity);
      repeat constructor; vm_compute; try reflexivity; discriminate.
  - pose proof (step_entropy _ _ _ Hs) as He. rewrite He in *.
    eapply step_population; eauto.
Qed.

(** In every state the game reaches, with a [Math.random] that answers in
    [0, 1), there are 10 orbs and 7 spikes; the collider of an orb has a
    radius between 20 and 40, that of a spike between 11.25 and 22.5, each
    the base radius (40, 22.5) times the scale drawn at the last respawn;
    the collider of the player has radius 10. *)
Theorem obstacle_population_fixed (g : Game Q) :
  reachable g ->
  unitInterval (entropy (host g)) ->
  (length (ORBS g) = 10%nat /\ length (SPIKES g) = 7%nat) /\
  Forall (fun o => baseColliderRadius o == 40 /\
                   20 <= colliderRadius o /\ colliderRadius o <= 40) (ORBS g) /\
  Forall (fun o => baseColliderRadius o == 45 # 2 /\
                   45 # 4 <= colliderRadius o /\ colliderRadius o <= 45 # 2) (SPIKES g) /\
  colliderRadius (body (PLAYER g)) == 10.
Proof.
  intros Hr Hu.
  destruct (reachable_population Hr Hu) as (_ & (Lo & Fo) & (Ls & Fs) & Hp).
  split; [split; assumption|].
  split; [|split; [|exact Hp]].
  - eapply Forall_impl; [|exact Fo]. intros o (B1 & B2 & B3).
    split; [exact B1|]. split; [|exact B3].
    eapply Qle_trans; [|exact B2]. vm_compute; discriminate.
  - eapply Forall_impl; [|exact Fs]. intros o (B1 & B2 & B3).
    split; [exact B1|]. split; [|exact B3].
    eapply Qle_trans; [|exact B2]. vm_compute; discriminate.
Qed.

Lemma obstacle_population_fixed_witness :
  let g := after_play in
  (length (ORBS g) = 10%nat /\ length (SPIKES g) = 7%nat) /\
  Forall (fun o => baseColliderRadius o == 40 /\
                   20 <= colliderRadius o /\ colliderRadius o <= 40) (ORBS g) /\
  Forall (fun o => baseColliderRadius o == 45 # 2 /\
                   45 # 4 <= colliderRadius o /\ colliderRadius o <= 45 # 2) (SPIKES g) /\
  colliderRadius (body (PLAYER g)) == 10.
Proof.
  apply (@obstacle_population_fixed after_play).
  - exact after_play_reachable.
  - intros n. vm_compute. split; [discriminate | reflexivity].
Defined.

(** ** The loop of [resetObjects] need not end *)

(** With a [Math.random] that keeps answering 1/2, a respawn puts the
    obstacle in the centre of the bounds, at 3/4 of its base size. *)
Lemma Orb_respawn_half (b : PIXI.Rectangle Q) (o : PhysicsObject Q) (g : Game Q) :
  (forall n, entropy (host g) n == 1 # 2) ->
  let o' := fst (Orb.respawn b o g) in
  2 * x (vectorPosition o') == PIXI.left b + PIXI.right b /\
  2 * y (vectorPosition o') == PIXI.top b + PIXI.bottom b /\
  colliderRadius o' == baseColliderRadius o * (3 # 4) /\
  baseColliderRadius o' = baseColliderRadius o.
Proof.
  intros He. cbv zeta.
  unfold Orb.respawn, Obstacle.respawn, randomRange2D, randomRange, random, Math_random,
    PhysicsObject.setScale, PhysicsObject.updatePosition,
    PIXI.left, PIXI.right, PIXI.top, PIXI.bottom.
  cbn.
  rewrite (He (drawn (host g))), (He (S (drawn (host g)))),
    (He (S (S (drawn (host g))))).
  repeat split; try reflexivity; field.
Qed.

Lemma respawnClear_stuck (b : PIXI.Rectangle Q) (space : Q) (fuel : nat) :
  0 < space ->
  forall (o : PhysicsObject Q) (g : Game Q),
    (forall n, entropy (host g) n == 1 # 2) ->
    0 <= baseColliderRadius o ->
    PIXI.left b + PIXI.right b == 2 * x (vectorPosition (body (PLAYER g))) ->
    PIXI.top b + PIXI.bottom b == 2 * y (vectorPosition (body (PLAYER g))) ->
    respawnClear fuel Orb.respawn b space o g = None.
Proof.
  intros Hsp. induction fuel as [|fuel IH]; intros o g He Hb Hx Hy;
    cbn [respawnClear]; [reflexivity|].
  destruct (Orb_respawn_half b o g He) as (Px & Py & Pr & Pb). cbv zeta in *.
  destruct (Orb_respawn_drawsOnly b o g) as [n Hd].
  destruct (Orb.respawn b o g) as [o1 g1]. cbn [fst snd] in *. subst g1.
  cbn [PLAYER set_host].
  assert (Hc : isColliding (vectorPosition o1) (colliderRadius o1)
                 (vectorPosition (body (PLAYER g))) space = true).
  { unfold isColliding, Victor.distanceSq, Victor.lengthSq, Victor.subtract.
    cbn. apply Qltb_true.
    set (dx := x (vectorPosition o1) - x (vectorPosition (body (PLAYER g)))).
    set (dy := y (vectorPosition o1) - y (vectorPosition (body (PLAYER g)))).
    assert (Dx : dx == 0) by (unfold dx; lra).
    assert (Dy : dy == 0) by (unfold dy; lra).
    rewrite Dx, Dy, Pr.
    set (r := baseColliderRadius o) in *. clearbody r. nra. }
  rewrite Hc. apply IH; try assumption.
  - rewrite Pb. exact Hb.
Qed.

(** "Play" with a [Math.random] that keeps answering 1/2: the first orb is put
    on the player again and again, and the [do ... while] of [resetObjects]
    never finds a free place.  No number of rounds is enough, from any state
    the game reaches: the program hangs. *)
Theorem play_hangs_on_constant_random (g : Game Q) (fuel : nat) :
  reachable g ->
  (forall n, entropy (host g) n == 1 # 2) ->
  transitionToGame fuel g = None.
Proof.
  intros Hr He.
  assert (Hu : unitInterval (entropy (host g))).
  { intros n. rewrite (He n). split; [discriminate | reflexivity]. }
  destruct (reachable_population Hr Hu) as (_ & (Lo & Fo) & _ & Hp).
  unfold transitionToGame, resetGame.
  set (c0 := set_position CAMERA_POSITION_DEFAULT
               (set_zoom CAMERA_ZOOM_DEFAULT (CAMERA g))).
  assert (Hz : ~ zoom c0 == 0) by (vm_compute; discriminate).
  pose proof (computeMatrix_view c0 Hz) as V. cbv zeta in V.
  destruct V as (Vl & Vr & Vt & Vb & _).
  set (g0 := set_CAMERA (Camera.computeMatrix _) _).
  change (boundingRectangle (CAMERA g0))
    with (boundingRectangle (Camera.computeMatrix c0)).
  set (b := boundingRectangle (Camera.computeMatrix c0)) in *. clearbody b.
  assert (Hx : PIXI.left b + PIXI.right b == 2 * x (vectorPosition (body (PLAYER g0)))).
  { rewrite Vl, Vr. vm_compute. reflexivity. }
  assert (Hy : PIXI.top b + PIXI.bottom b == 2 * y (vectorPosition (body (PLAYER g0)))).
  { rewrite Vt, Vb. vm_compute. reflexivity. }
  assert (Hsp : 0 < colliderRadius (body (PLAYER g0)) * 10).
  { change (colliderRadius (body (PLAYER g0))) with (colliderRadius (body (PLAYER g))).
    rewrite Hp. reflexivity. }
  assert (Ho : ORBS g0 = ORBS g) by reflexivity.
  assert (He0 : forall n, entropy (host g0) n == 1 # 2) by exact He.
  clearbody g0.
  unfold resetObjects. rewrite Ho.
  destruct (ORBS g) as [|o rest]; [discriminate|].
  apply Forall_cons_iff in Fo. destruct Fo as [(Bo & _) _].
  cbn [forEachClear].
  change (nmul (colliderRadius (body (PLAYER g0))) (ofZ 10))
    with (colliderRadius (body (PLAYER g0)) * 10).
  rewrite (@respawnClear_stuck b _ fuel Hsp o g0 He0); try assumption; [reflexivity|].
  rewrite Bo. discriminate.
Qed.

Lemma play_hangs_on_constant_random_witness :
  transitionToGame 1000 (start (Vec 0 0) [] (fun _ => 1 # 2)) = None /\
  run 1000 [clickPlay] (start (Vec 0 0) [] (fun _ => 1 # 2)) = None.
Proof.
  assert (H : transitionToGame 1000 (start (Vec 0 0) [] (fun _ => 1 # 2)) = None).
  { apply (@play_hangs_on_constant_random (start (Vec 0 0) [] (fun _ => 1 # 2)) 1000%nat).
    - apply reachable_start.
    - intros n. reflexivity. }
  split; [exact H|]. cbn [run step]. rewrite H. reflexivity.
Defined.

(** ** The aiming indicators *)

Section Indicators.
Context {num : Type} `{JSNumber num}.
Local Open Scope num_scope.

Lemma whenAlive_indicators g :
  aimingIndicatorList (PLAYER (Player.whenAlive g)) = aimingIndicatorList (PLAYER g).
Proof.
  unfold Player.whenAlive. destruct (Wave.isColliding _ _).
  - unfold Player.onDeath, recordDeathHeight.
    match goal with |- context [if ?c then _ else _] => destruct c end; reflexivity.
  - apply checkCollisions_keepsMode.
Qed.

Lemma dispatch_indicators g :
  length (aimingIndicatorList (PLAYER (Player.dispatch g))) =
    length (aimingIndicatorList (PLAYER g)).
Proof.
  unfold Player.dispatch. destruct (playerState (PLAYER g)).
  - unfold Player.whenDead. destruct (_ <? _); reflexivity.
  - now rewrite whenAlive_indicators.
  - unfold Player.whenAim, Player.updateAimingIndicator. cbn.
    rewrite length_map, length_seq. now rewrite whenAlive_indicators.
  - reflexivity.
Qed.

Lemma step_indicators fuel e (g g' : Game num) :
  step fuel e g = Some g' ->
  length (aimingIndicatorList (PLAYER g')) = length (aimingIndicatorList (PLAYER g)).
Proof.
  destruct e; cbn; intros Hs;
    [injection Hs as <- | injection Hs as <- | injection Hs as <- |
    | injection Hs as <- | injection Hs as <- | injection Hs as <-];
    try reflexivity.
  - unfold onpointerdown, Player.onAim. cbn.
    destruct (playerState (PLAYER g)); reflexivity.
  - unfold onpointerup, Player.onFling. cbn.
    destruct (playerState (PLAYER g)); try reflexivity.
    cbn. destruct (_ || _); reflexivity.
  - destruct (transitionToGame fuel g) as [g1|] eqn:E; [|discriminate].
    injection Hs as <-. apply transitionToGame_shape in E.
    destruct E as (Hp & _). cbn. rewrite Hp. reflexivity.
  - unfold update. destruct (currentScene g); [reflexivity|].
    destruct (updateGame_shape elapsedMS g) as (g1 & -> & Hp & _).
    destruct (Player_update_shape g1) as (b & h & ->).
    cbn. rewrite <- Hp. apply dispatch_indicators.
Qed.

Lemma reachable_indicators (g : Game num) :
  reachable g -> length (aimingIndicatorList (PLAYER g)) = 5%nat.
Proof.
  induction 1 as [c s en | fuel e g g' _ IH Hs].
  - unfold start, loadHighestDeath. destruct s; reflexivity.
  - rewrite (step_indicators _ _ _ Hs). exact IH.
Qed.

(** The indicators after a frame of the game scene with the player aiming *)
Lemma update_places_indicators elapsedMS (g : Game num) :
  currentScene g = SCENE_ID.Game ->
  playerState (PLAYER g) = PLAYER_STATE.Aiming ->
  aimingIndicatorList (PLAYER (update elapsedMS g)) =
    map (fun i : nat =>
           lerp2D (Vec (ofZ 0) (ofZ 0))
             (Victor.multiplyScalar
                (Victor.subtract (mouseDownCanvasPosition (input g))
                                 (mouseCanvasPosition (input g)))
                (decimal 7 10))
             (INV_TOTAL_AIM_INDICATORS * ofZ (Z.of_nat i + 1)))
        (seq 0 (length (aimingIndicatorList (PLAYER g)))).
Proof.
  intros Hs Ha. unfold update. rewrite Hs.
  destruct (updateGame_shape elapsedMS g) as (g1 & -> & Hp & _ & _ & Hd & Hm & _).
  destruct (Player_update_shape g1) as (b & h & ->).
  unfold Player.dispatch. rewrite Hp, Ha.
  destruct (whenAlive_keepsPhysics g1) as (_ & Hi & _).
  pose proof (whenAlive_indicators g1) as Hl.
  cbn. rewrite Hi, Hd, Hm, Hl, Hp. reflexivity.
Qed.

End Indicators.

(** While the player aims, every frame of the game scene lays the five
    indicators out evenly on the segment from the player (the origin of
    their container) to 0.7 times the drag, press position minus pointer
    position: indicator [i] (from 0) is at [(i + 1) / 5] of it, the last one
    at its end. *)
Theorem aiming_indicators_evenly_spaced (g : Game Q) (elapsedMS : Q) :
  reachable g ->
  currentScene g = SCENE_ID.Game ->
  playerState (PLAYER g) = PLAYER_STATE.Aiming ->
  let drag := Victor.subtract (mouseDownCanvasPosition (input g))
                              (mouseCanvasPosition (input g)) in
  let l := aimingIndicatorList (PLAYER (update elapsedMS g)) in
  length l = 5%nat /\
  (forall i, (i < 5)%nat ->
     x (nth i l (Vec 0 0)) == (7 # 10) * (inject_Z (Z.of_nat i + 1) / 5) * x drag /\
     y (nth i l (Vec 0 0)) == (7 # 10) * (inject_Z (Z.of_nat i + 1) / 5) * y drag) /\
  x (last l (Vec 0 0)) == (7 # 10) * x drag /\
  y (last l (Vec 0 0)) == (7 # 10) * y drag.
Proof.
  intros Hr Hs Ha. cbv zeta.
  rewrite (update_places_indicators elapsedMS g Hs Ha).
  rewrite (reachable_indicators Hr).
  set (drag := Victor.subtract _ _). clearbody drag.
  split; [reflexivity|]. split.
  - intros i Hi.
    do 5 (destruct i as [|i]; [cbn; unfold_num; split; field|]).
    lia.
  - cbn. unfold_num. split; field.
Qed.

Lemma aiming_indicators_evenly_spaced_witness :
  let g := onpointermove 100 40 (onpointerdown 100 100 after_play) in
  let l := aimingIndicatorList (PLAYER (update 16 g)) in
  (x (last l (Vec 0 0)) == 0 /\ y (last l (Vec 0 0)) == 42) /\
  length l = 5%nat /\
  (forall i, (i < 5)%nat ->
     x (nth i l (Vec 0 0)) ==
       (7 # 10) * (inject_Z (Z.of_nat i + 1) / 5) *
       x (Victor.subtract (mouseDownCanvasPosition (input g))
                          (mouseCanvasPosition (input g))) /\
     y (nth i l (Vec 0 0)) ==
       (7 # 10) * (inject_Z (Z.of_nat i + 1) / 5) *
       y (Victor.subtract (mouseDownCanvasPosition (input g))
                          (mouseCanvasPosition (input g)))) /\
  x (last l (Vec 0 0)) ==
    (7 # 10) * x (Victor.subtract (mouseDownCanvasPosition (input g))
                                  (mouseCanvasPosition (input g))) /\
  y (last l (Vec 0 0)) ==
    (7 # 10) * y (Victor.subtract (mouseDownCanvasPosition (input g))
                                  (mouseCanvasPosition (input g))).
Proof.
  split; [split; vm_compute; reflexivity|].
  apply (@aiming_indicators_evenly_spaced
           (onpointermove 100 40 (onpointerdown 100 100 after_play)) 16).
  - eapply reachable_step with (fuel := 0%nat) (e := pointermove 100 40);
      [|reflexivity].
    eapply reachable_step with (fuel := 0%nat) (e := pointerdown 100 100);
      [exact after_play_reachable | reflexivity].
  - vm_compute. reflexivity.
  - vm_compute. reflexivity.
Defined.

(** ** The best height *)

Section Heights.
Local Open Scope Q_scope.

(** What a step may do to the recorded heights: nothing, or record a death. *)
Definition heightsKept (g g' : Game Q) : Prop :=
  lastDeathHeight g' = lastDeathHeight g /\
  highestDeathHeight g' = highestDeathHeight g /\
  localStorage (host g') = localStorage (host g).

Definition deathRecorded (g g' : Game Q) : Prop :=
  (highestDeathHeight g < lastDeathHeight g' /\
   highestDeathHeight g' = lastDeathHeight g' /\
   localStorage (host g') = lastDeathHeight g' :: localStorage (host g)) \/
  (lastDeathHeight g' <= highestDeathHeight g /\
   highestDeathHeight g' = highestDeathHeight g /\
   localStorage (host g') = localStorage (host g)).

Lemma onDeath_heights g : deathRecorded g (Player.onDeath g).
Proof.
  unfold deathRecorded, Player.onDeath, recordDeathHeight.
  match goal with |- context [if ?c then _ else _] => destruct c eqn:E end; cbn in E |- *.
  - apply Qltb_true in E. left. repeat split. exact E.
  - apply Qltb_false in E. right. repeat split. exact E.
Qed.

Lemma dispatch_heights g :
  heightsKept g (Player.dispatch g) \/
  ((playerState (PLAYER g) = PLAYER_STATE.Idle \/
    playerState (PLAYER g) = PLAYER_STATE.Aiming) /\
   playerState (PLAYER (Player.dispatch g)) = PLAYER_STATE.Dead /\
   deathRecorded g (Player.dispatch g)).
Proof.
  assert (Ha : heightsKept g (Player.whenAlive g) \/
               (playerState (PLAYER (Player.whenAlive g)) = PLAYER_STATE.Dead /\
                deathRecorded g (Player.whenAlive g))).
  { unfold Player.whenAlive. destruct (Wave.isColliding _ _).
    - right. split; [apply onDeath_playerState | apply onDeath_heights].
    - left.
      destruct (checkCollisions_keepsMode g)
        as (_ & _ & _ & _ & _ & _ & _ & K1 & K2 & K3).
      repeat split; assumption. }
  unfold Player.dispatch. destruct (playerState (PLAYER g)) eqn:E.
  - left. unfold Player.whenDead. destruct (_ <? _)%num; repeat split.
  - destruct Ha as [Ha | Ha]; [left; exact Ha | right; split; [auto | exact Ha]].
  - destruct Ha as [Ha | Ha]; [left; exact Ha | right; split; [auto | exact Ha]].
  - left. repeat split.
Qed.

Lemma Player_update_host (g : Game Q) :
  lastDeathHeight (Player.update g) = lastDeathHeight (Player.dispatch g) /\
  highestDeathHeight (Player.update g) = highestDeathHeight (Player.dispatch g) /\
  localStorage (host (Player.update g)) = localStorage (host (Player.dispatch g)) /\
  playerState (PLAYER (Player.update g)) = playerState (PLAYER (Player.dispatch g)).
Proof.
  unfold Player.update, Player.bounceOffWalls.
  destruct (_ <? _)%num; [|destruct (_ >? _)%num]; repeat split.
Qed.

Lemma update_heights ms g :
  heightsKept g (update ms g) \/
  (currentScene g = SCENE_ID.Game /\
   (playerState (PLAYER g) = PLAYER_STATE.Idle \/
    playerState (PLAYER g) = PLAYER_STATE.Aiming) /\
   playerState (PLAYER (update ms g)) = PLAYER_STATE.Dead /\
   deathRecorded g (update ms g)).
Proof.
  unfold update. destruct (currentScene g) eqn:Hs.
  - left. repeat split.
  - destruct (updateGame_shape_camera ms g)
      as (g1 & f & -> & _ & _ & _ & Hp & _ & _ & Hl & Hh & Hst & _).
    destruct (Player_update_host g1) as (U1 & U2 & U3 & U4).
    unfold heightsKept, deathRecorded.
    change (lastDeathHeight (Wave.update (Player.update g1)))
      with (lastDeathHeight (Player.update g1)).
    change (highestDeathHeight (Wave.update (Player.update g1)))
      with (highestDeathHeight (Player.update g1)).
    change (host (Wave.update (Player.update g1))) with (host (Player.update g1)).
    change (PLAYER (Wave.update (Player.update g1))) with (PLAYER (Player.update g1)).
    rewrite U1, U2, U3, U4, <- Hl, <- Hh, <- Hst, <- Hp.
    destruct (dispatch_heights g1) as [K | (S & D & R)]; [left; exact K|].
    right. split; [reflexivity|]. split; [exact S|]. split; [exact D | exact R].
Qed.

(** The best height never goes down, and it is written to the storage
    exactly when it goes up.  Only a frame of the game scene in which a
    player that is idle or aiming dies changes the recorded heights: the
    height of that death becomes the last height; when it exceeds the best
    height it also becomes the best height and is stored; otherwise the best
    height and the storage stay.  No other event (pointer, menu, "Play",
    frames of the menu) touches the heights or the storage. *)
Theorem best_height_never_drops (fuel : nat) (e : Event) (g g' : Game Q) :
  step fuel e g = Some g' ->
  highestDeathHeight g <= highestDeathHeight g' /\
  ((lastDeathHeight g' = lastDeathHeight g /\
    highestDeathHeight g' = highestDeathHeight g /\
    localStorage (host g') = localStorage (host g)) \/
   ((exists elapsedMS, e = tick elapsedMS) /\
    currentScene g = SCENE_ID.Game /\
    playerState (PLAYER g') = PLAYER_STATE.Dead /\
    playerState (PLAYER g) <> PLAYER_STATE.Dead /\
    ((highestDeathHeight g < lastDeathHeight g' /\
      highestDeathHeight g' = lastDeathHeight g' /\
      localStorage (host g') = lastDeathHeight g' :: localStorage (host g)) \/
     (lastDeathHeight g' <= highestDeathHeight g /\
      highestDeathHeight g' = highestDeathHeight g /\
      localStorage (host g') = localStorage (host g))))).
Proof.
  intros Hs.
  assert (K : heightsKept g g' \/
              ((exists ms, e = tick ms) /\ currentScene g = SCENE_ID.Game /\
               playerState (PLAYER g') = PLAYER_STATE.Dead /\
               playerState (PLAYER g) <> PLAYER_STATE.Dead /\
               deathRecorded g g')).
  { destruct e; cbn in Hs;
      [injection Hs as <- | injection Hs as <- | injection Hs as <- |
      | injection Hs as <- | injection Hs as <- | injection Hs as <-].
    - left. repeat split.
    - left. unfold onpointerdown, Player.onAim. cbn.
      destruct (playerState (PLAYER g)); repeat split.
    - left. unfold onpointerup, Player.onFling. cbn.
      destruct (playerState (PLAYER g)); try (repeat split; fail).
      cbn. destruct (_ || _); repeat split.
    - destruct (transitionToGame fuel g) as [g1|] eqn:E; [|discriminate].
      injection Hs as <-. left.
      unfold transitionToGame, resetGame in E.
      destruct (resetObjects fuel _ _) as [g2|] eqn:E2; [|discriminate].
      injection E as <-.
      destruct (resetObjects_placed _ _ _ E2) as ((orbs & spikes & n & ->) & _).
      repeat split.
    - left. repeat split.
    - left. repeat split.
    - destruct (update_heights elapsedMS g) as [K | (S & A & D & R)];
        [left; exact K|].
      right. split; [eexists; reflexivity|]. split; [exact S|].
      split; [exact D|]. split; [|exact R].
      destruct A as [-> | ->]; discriminate. }
  destruct K as [(K1 & K2 & K3) | (He & S & D & A & R)].
  - split; [rewrite K2; apply Qle_refl | left; auto].
  - split; [|right; auto].
    destruct R as [(R1 & R2 & _) | (_ & R2 & _)]; rewrite R2.
    + apply Qlt_le_weak. exact R1.
    + apply Qle_refl.
Qed.

End Heights.

(** The state after "Play" and one frame, with the player idle and the wave
    risen above it. *)
Definition caught_by_wave : Game Q :=
  set_WAVE (set_bounds (PIXI.mkRectangle 0 (-50) 500 1500)
              (set_wave_position (Vec 0 (-50)) (WAVE after_play)))
    (set_PLAYER (set_playerState PLAYER_STATE.Idle (PLAYER after_play)) after_play).

Lemma best_height_never_drops_witness :
  let g := caught_by_wave in
  let g' := update 16 g in
  (highestDeathHeight g == 0 /\ lastDeathHeight g' == 100 /\
   localStorage (host g) = [] /\ localStorage (host g') = [lastDeathHeight g']) /\
  highestDeathHeight g <= highestDeathHeight g' /\
  ((lastDeathHeight g' = lastDeathHeight g /\
    highestDeathHeight g' = highestDeathHeight g /\
    localStorage (host g') = localStorage (host g)) \/
   ((exists elapsedMS, tick 16 = tick elapsedMS) /\
    currentScene g = SCENE_ID.Game /\
    playerState (PLAYER g') = PLAYER_STATE.Dead /\
    playerState (PLAYER g) <> PLAYER_STATE.Dead /\
    ((highestDeathHeight g < lastDeathHeight g' /\
      highestDeathHeight g' = lastDeathHeight g' /\
      localStorage (host g') = lastDeathHeight g' :: localStorage (host g)) \/
     (lastDeathHeight g' <= highestDeathHeight g /\
      highestDeathHeight g' = highestDeathHeight g /\
      localStorage (host g') = localStorage (host g))))).
Proof.
  split.
  - split; [vm_compute; reflexivity|]. split; [vm_compute; reflexivity|].
    split; vm_compute; reflexivity.
  - apply (@best_height_never_drops 0%nat (tick 16) caught_by_wave
             (update 16 caught_by_wave)).
    reflexivity.
Defined.

(** ** The wave only rises *)

(** The time step of a frame of the game scene *)
Lemma frame_timeSpeed (g : Game Q) (ms : Q) :
  sane g -> currentScene g = SCENE_ID.Game -> 0 <= ms ->
  exists g1,
    update ms g = Wave.update (Player.update g1) /\
    WAVE g1 = WAVE g /\ PLAYER g1 = PLAYER g /\
    timeSpeed (physics (Player.update g1)) = timeSpeed (physics g1) /\
    WAVE (Player.update g1) = WAVE g1 /\
    0 <= timeSpeed (physics g1) /\ timeSpeed (physics g1) <= ms * (1 # 1000).
Proof.
  intros [_ ((C1 & C2) & T)] Hs Hms. unfold update. rewrite Hs.
  destruct (updateGame_shape_camera ms g) as (g1 & f & -> & _ & _ & Hph & Hp & Hw & _).
  exists g1. split; [reflexivity|]. split; [exact Hw|]. split; [exact Hp|].
  destruct (Player_update_shape g1) as (b & h & E).
  destruct (dispatch_keepsPhysics g1) as (Kw & _ & Kt & _).
  split; [rewrite E; exact Kt|]. split; [rewrite E; exact Kw|].
  rewrite Hph. unfold updatePhysicsManager. cbn.
  destruct (lerp_speed C1 C2 T) as [L1 L2].
  unfold lerp in L1, L2. unfold_num.
  match goal with |- 0 <= ?e * ms * _ /\ _ => set (s := e) in * end.
  clearbody s.
  assert (E1 : inject_Z 1 / inject_Z 1000 == 1 # 1000) by reflexivity.
  rewrite E1.
  assert (P1 : 0 <= s * ms) by (apply Qmult_le_0_compat; assumption).
  assert (P2 : s * ms <= 1 * ms) by (apply Qmult_le_compat_r; assumption).
  split; lra.
Qed.

Lemma Wave_update_y (g : Game Q) :
  let risen := y (wave_position (WAVE g)) - 200 * timeSpeed (physics g) in
  y (wave_position (WAVE (Wave.update g))) =
    match playerState (PLAYER g) with
    | PLAYER_STATE.Aiming => risen
    | _ => Qmin risen (PIXI.bottom (boundingRectangle (CAMERA g)) + 100)
    end.
Proof. cbv zeta. unfold Wave.update. destruct (playerState (PLAYER g)); reflexivity. Qed.

(** In every state the game reaches, a frame that lasts [elapsedMS >= 0]
    milliseconds never moves the top of the wave down (y grows downwards).
    A frame of the menu leaves the wave alone.  A frame of the game scene
    that ends with the player aiming raises it by 200 times the time step,
    at most [elapsedMS / 5]; any other frame of the game scene raises it by
    that much and then pulls it up to 100 below the bottom of the view, if
    it is lower. *)
Theorem wave_only_rises (g : Game Q) (elapsedMS : Q) :
  reachable g ->
  0 <= elapsedMS ->
  let g' := update elapsedMS g in
  let before := y (wave_position (WAVE g)) in
  let after := y (wave_position (WAVE g')) in
  after <= before /\
  (currentScene g = SCENE_ID.Menu -> WAVE g' = WAVE g) /\
  (currentScene g = SCENE_ID.Game ->
   0 <= timeSpeed (physics g') /\ timeSpeed (physics g') <= elapsedMS * (1 # 1000) /\
   (playerState (PLAYER g') = PLAYER_STATE.Aiming ->
    after == before - 200 * timeSpeed (physics g') /\
    before - elapsedMS * (1 # 5) <= after) /\
   (playerState (PLAYER g') <> PLAYER_STATE.Aiming ->
    after == Qmin (before - 200 * timeSpeed (physics g'))
                  (PIXI.bottom (boundingRectangle (CAMERA g')) + 100))).
Proof.
  intros Hr Hms. cbv zeta. pose proof (reachable_sane Hr) as Hsane.
  destruct (currentScene g) eqn:Hs.
  - assert (Hw : WAVE (update elapsedMS g) = WAVE g)
      by (unfold update; rewrite Hs; reflexivity).
    split; [rewrite Hw; apply Qle_refl|].
    split; [intros _; exact Hw | discriminate].
  - destruct (frame_timeSpeed Hsane Hs Hms) as (g1 & -> & Hw & Hp & Ht & Hw1 & T1 & T2).
    pose proof (Wave_update_y (Player.update g1)) as Hy. cbv zeta in Hy.
    change (timeSpeed (physics (Wave.update (Player.update g1))))
      with (timeSpeed (physics (Player.update g1))).
    change (PLAYER (Wave.update (Player.update g1))) with (PLAYER (Player.update g1)).
    change (CAMERA (Wave.update (Player.update g1))) with (CAMERA (Player.update g1)).
    rewrite Hy, Ht, Hw1, Hw.
    set (w := y (wave_position (WAVE g))) in *. clearbody w.
    set (ts := timeSpeed (physics g1)) in *. clearbody ts.
    set (low := PIXI.bottom (boundingRectangle (CAMERA (Player.update g1))) + 100).
    clearbody low.
    pose proof (Q.le_min_l (w - 200 * ts) low) as M.
    split; [|split; [discriminate|]].
    + destruct (playerState (PLAYER (Player.update g1))); lra.
    + intros _. split; [exact T1|]. split; [exact T2|]. split.
      * intros ->. split; [reflexivity | lra].
      * intros Hn. destruct (playerState (PLAYER (Player.update g1)));
          try reflexivity. now elim Hn.
Qed.

Lemma wave_only_rises_witness :
  let g := after_play in
  let g' := update 16 g in
  let before := y (wave_position (WAVE g)) in
  let after := y (wave_position (WAVE g')) in
  (currentScene g = SCENE_ID.Game /\ before == 2968 # 10 /\ after == 2968 # 10) /\
  after <= before /\
  (currentScene g = SCENE_ID.Menu -> WAVE g' = WAVE g) /\
  (currentScene g = SCENE_ID.Game ->
   0 <= timeSpeed (physics g') /\ timeSpeed (physics g') <= 16 * (1 # 1000) /\
   (playerState (PLAYER g') = PLAYER_STATE.Aiming ->
    after == before - 200 * timeSpeed (physics g') /\
    before - 16 * (1 # 5) <= after) /\
   (playerState (PLAYER g') <> PLAYER_STATE.Aiming ->
    after == Qmin (before - 200 * timeSpeed (physics g'))
                  (PIXI.bottom (boundingRectangle (CAMERA g')) + 100))).
Proof.
  split.
  - split; [vm_compute; reflexivity|]. split; vm_compute; reflexivity.
  - apply (@wave_only_rises after_play 16).
    + exact after_play_reachable.
    + discriminate.
Defined.

(** ** The tutorial *)

(** The camera of a frame whose target is straight above or below it, at the
    default zoom, in the middle of the bounds *)
Lemma centred_camera (c : Camera Q) (target : Victor Q) (f : Q) :
  x (position c) == 250 -> zoom c == 1 -> x target == 250 ->
  x (xBounds c) == 0 -> y (xBounds c) == 500 ->
  let c' := Camera.update (Camera.easeTo target CAMERA_ZOOM_DEFAULT f c) in
  x (position c') == 250 /\ zoom c' == 1 /\
  PIXI.left (boundingRectangle c') == 0 /\
  PIXI.right (boundingRectangle c') == 500.
Proof.
  intros Hx Hz Ht B1 B2. cbv zeta.
  destruct (easeTo_step c target CAMERA_ZOOM_DEFAULT f) as (Ex & _ & Ez & _ & _ & _ & Eb).
  cbv zeta in Ex, Ez, Eb.
  set (ce := Camera.easeTo target CAMERA_ZOOM_DEFAULT f c) in *. clearbody ce.
  rewrite Ht, Hx in Ex. rewrite Hz in Ez.
  change CAMERA_ZOOM_DEFAULT with (inject_Z 1) in Ez.
  assert (Cx : x (position ce) == 250) by (ring_simplify in Ex; lra).
  assert (Cz : zoom ce == 1).
  { assert (E1 : inject_Z 1 == 1) by reflexivity. rewrite E1 in Ez.
    ring_simplify in Ez. lra. }
  assert (Hz0 : ~ zoom ce == 0) by (rewrite Cz; discriminate).
  pose proof (computeMatrix_view ce Hz0) as V. cbv zeta in V.
  destruct V as (Vl & Vr & _).
  destruct (computeMatrix_matrix ce) as (_ & Mp & Mz & Mb).
  rewrite Cx, Cz in Vl, Vr.
  assert (Vl' : PIXI.left (boundingRectangle (Camera.computeMatrix ce)) == 0)
    by (rewrite Vl; reflexivity).
  assert (Vr' : PIXI.right (boundingRectangle (Camera.computeMatrix ce)) == 500)
    by (rewrite Vr; reflexivity).
  rewrite (Camera_update_clamped ce).
  set (cm := Camera.computeMatrix ce) in *.
  assert (Hpos : 0 < zoom cm) by (rewrite Mz, Cz; reflexivity).
  assert (Wl : PIXI.left (boundingRectangle cm) == x (position cm) - 250 / zoom cm).
  { rewrite Vl', Mp, Mz, Cx, Cz. reflexivity. }
  assert (Wr : PIXI.right (boundingRectangle cm) == x (position cm) + 250 / zoom cm).
  { rewrite Vr', Mp, Mz, Cx, Cz. reflexivity. }
  pose proof (@clamped_view cm (x (position cm)) (zoom cm) Hpos eq_refl Wl Wr eq_refl) as K.
  cbv zeta in K. destruct K as (_ & _ & _ & K & _).
  rewrite K.
  - rewrite Mp, Mz. repeat split; assumption.
  - rewrite Mb, Eb, B1, Vl'. apply Qle_refl.
  - rewrite Mb, Eb, B2, Vr'. apply Qle_refl.
Qed.

(** In the tutorial the player stands in the middle of the view, which is
    the whole width of the canvas, and has no horizontal velocity. *)
Definition tutorialPose (g : Game Q) : Prop :=
  playerState (PLAYER g) = PLAYER_STATE.Tutorial ->
  (x (vectorPosition (body (PLAYER g))) == 250 /\
   x (velocity (body (PLAYER g))) == 0) /\
  (x (position (CAMERA g)) == 250 /\ zoom (CAMERA g) == 1).

(** [Player.update] in the tutorial, with the player inside the view *)
Lemma Player_update_tutorial (g : Game Q) :
  playerState (PLAYER g) = PLAYER_STATE.Tutorial ->
  (x (vectorPosition (body (PLAYER g))) <? PIXI.left (boundingRectangle (CAMERA g)))%num
    = false ->
  (x (vectorPosition (body (PLAYER g))) >? PIXI.right (boundingRectangle (CAMERA g)))%num
    = false ->
  Player.update g =
    set_PLAYER
      (set_body
         (PhysicsObject.update (timeSpeed (physics g))
            (set_momentOfAcceleration
               (Victor.add (momentOfAcceleration (body (PLAYER g)))
                  (Victor.multiplyScalar GRAVITY (timeSpeed (physics g))))
               (body (PLAYER g))))
         (PLAYER g))
      (Player.whenTutorial g).
Proof.
  intros Ht Hl Hr.
  assert (Hd : Player.dispatch g = Player.whenTutorial g)
    by (unfold Player.dispatch; rewrite Ht; reflexivity).
  unfold Player.update. rewrite Hd. cbv zeta.
  set (g2 := Player.applyGravity (Player.whenTutorial g)).
  assert (Hb : Player.bounceOffWalls g2 = g2).
  { unfold Player.bounceOffWalls.
    change (x (vectorPosition (body (PLAYER g2))))
      with (x (vectorPosition (body (PLAYER g)))).
    change (boundingRectangle (CAMERA g2)) with (boundingRectangle (CAMERA g)).
    rewrite Hl, Hr. reflexivity. }
  rewrite Hb. reflexivity.
Qed.

(** A frame of the tutorial, with its time step [ts] *)
Lemma tutorial_frame (g : Game Q) (ms : Q) :
  sane g -> noPending g -> tutorialPose g ->
  currentScene g = SCENE_ID.Game ->
  playerState (PLAYER g) = PLAYER_STATE.Tutorial ->
  let g' := update ms g in
  let ts := lerp (currentGameSpeed (physics g)) (targetGameSpeed (physics g))
              TIME_EASING_FACTOR * ms * (1 # 1000) in
  let p := body (PLAYER g) in
  let p' := body (PLAYER g') in
  timeSpeed (physics g') == ts /\
  ((x (vectorPosition p') == 250 /\ x (velocity p') == 0) /\
   (x (position (CAMERA g')) == 250 /\ zoom (CAMERA g') == 1)) /\
  y (vectorPosition p') ==
    y (vectorPosition p) + (y (velocity p) + 100000 * ts * ts) * ts /\
  y (velocity p') ==
    (y (velocity p) + 100000 * ts * ts) * (1 - (9 # 10) * ts) /\
  y (wave_position (WAVE g')) ==
    Qmin (y (wave_position (WAVE g)) - 200 * ts)
         (PIXI.bottom (boundingRectangle (CAMERA g')) + 100) /\
  played (host g') = played (host g).
Proof.
  intros [(_ & (B1 & B2) & _) _] Hn Hpose Hs Ht. cbv zeta.
  destruct (Hpose Ht) as ((Px & Vx) & (Cx & Cz)).
  unfold update. rewrite Hs.
  destruct (updateGame_shape_camera ms g)
    as (g1 & f & -> & _ & Hcam & Hph & Hp & Hw & _ & _ & _ & _ & Hpl & _).
  pose proof (@centred_camera (CAMERA g) (vectorPosition (body (PLAYER g))) f
                Cx Cz Px B1 B2) as C. cbv zeta in C.
  rewrite <- Hcam in C. destruct C as (C1 & C2 & C3 & C4).
  assert (Hts : timeSpeed (physics g1) ==
                lerp (currentGameSpeed (physics g)) (targetGameSpeed (physics g))
                  TIME_EASING_FACTOR * ms * (1 # 1000)).
  { rewrite Hph. unfold updatePhysicsManager. cbn. unfold_num. reflexivity. }
  set (ts := lerp _ _ _ * ms * (1 # 1000)) in *. clearbody ts.
  unfold noPending in Hn. rewrite <- Hp in Hn, Px, Vx, Ht |- *. rewrite <- Hw, <- Hpl.
  clear Hcam Hph Hp Hw Hpl Hpose Cx Cz B1 B2.
  assert (Hl : (x (vectorPosition (body (PLAYER g1))) <?
                PIXI.left (boundingRectangle (CAMERA g1)))%num = false).
  { apply Qltb_false. rewrite C3, Px. discriminate. }
  assert (Hr : (x (vectorPosition (body (PLAYER g1))) >?
                PIXI.right (boundingRectangle (CAMERA g1)))%num = false).
  { apply Qltb_false. rewrite C4, Px. discriminate. }
  rewrite (Player_update_tutorial g1 Ht Hl Hr). rewrite Hn.
  assert (E0 : inject_Z 0 == 0) by reflexivity.
  assert (E1 : inject_Z 100000 == 100000) by reflexivity.
  assert (E2 : inject_Z 9 / inject_Z 10 == 9 # 10) by reflexivity.
  split; [exact Hts|]. split; [split; [|split; assumption]|].
  - cbn. unfold_num. rewrite E0, Px, Vx. split; ring.
  - split; [|split; [|split]].
    + cbn. unfold_num. rewrite E0, E1, Hts. ring.
    + cbn. unfold_num. rewrite E0, E1, E2, Hts. ring.
    + unfold Wave.update.
      change (playerState (PLAYER (set_PLAYER _ (Player.whenTutorial g1))))
        with (playerState (PLAYER g1)).
      rewrite Ht. cbn. unfold_num.
      assert (E3 : inject_Z 200 == 200) by reflexivity.
      assert (E4 : inject_Z 100 == 100) by reflexivity.
      rewrite E3, E4, Hts. reflexivity.
    + reflexivity.
Qed.

Lemma step_tutorialPose fuel e (g g' : Game Q) :
  reachable g -> step fuel e g = Some g' -> tutorialPose g -> tutorialPose g'.
Proof.
  intros Hr Hs Hg. unfold tutorialPose in *.
  destruct e; cbn in Hs;
    [injection Hs as <- | injection Hs as <- | injection Hs as <- |
    | injection Hs as <- | injection Hs as <- | injection Hs as <-].
  - exact Hg.
  - unfold onpointerdown. rewrite onAim_playerState. cbn.
    destruct (playerState (PLAYER g)); discriminate.
  - unfold onpointerup, Player.onFling. cbn.
    destruct (playerState (PLAYER g)) eqn:E; cbn;
      try (intros Ht'; first [congruence | apply Hg; reflexivity]).
    destruct (_ || _); cbn; discriminate.
  - destruct (transitionToGame fuel g) as [g1|] eqn:E; [|discriminate].
    injection Hs as <-. apply transitionToGame_shape in E.
    destruct E as (Hp & _ & _ & _ & _ & _ & _ & Hc). intros _.
    cbn [PLAYER CAMERA playSound set_host]. rewrite Hp, Hc.
    destruct (computeMatrix_matrix
                (set_position CAMERA_POSITION_DEFAULT
                   (set_zoom CAMERA_ZOOM_DEFAULT (CAMERA g)))) as (_ & -> & -> & _).
    split; split; vm_compute; reflexivity.
  - exact Hg.
  - exact Hg.
  - intros Ht'.
    assert (Ht : playerState (PLAYER g) = PLAYER_STATE.Tutorial).
    { destruct (update_playerState elapsedMS g) as [Hk | Hd];
        [rewrite <- Hk; exact Ht' | rewrite Hd in Ht'; discriminate]. }
    pose proof (@tutorial_frame g elapsedMS (reachable_sane Hr)
                  (reachable_noPending Hr) Hg (reachable_tutorialInGame Hr Ht) Ht) as F.
    cbv zeta in F. apply F.
Qed.

Lemma reachable_tutorialPose (g : Game Q) : reachable g -> tutorialPose g.
Proof.
  induction 1 as [c s en | fuel e g g' Hr IH Hs].
  - unfold tutorialPose, start, loadHighestDeath. destruct s; discriminate.
  - eapply step_tutorialPose; eassumption.
Qed.

(** The tutorial is frozen from its second frame on.  In a state the game
    reaches with the player in the tutorial, a frame runs with the time step
    [lerp(currentGameSpeed, targetGameSpeed, 0.1) * elapsedMS / 1000]: the
    player falls by [(v + 100000 ts^2) ts] and the wave rises by [200 ts].
    That frame leaves both time scales at 0, so in every later frame of the
    tutorial the time step is 0, and position and velocity of the player and
    the top of the wave stay where they are (the wave is still pulled up to
    100 below the view); no cue is played. *)
Theorem tutorial_is_frozen (g : Game Q) (first next : Q) :
  reachable g ->
  playerState (PLAYER g) = PLAYER_STATE.Tutorial ->
  let g1 := update first g in
  let g2 := update next g1 in
  let ts := lerp (currentGameSpeed (physics g)) (targetGameSpeed (physics g))
              TIME_EASING_FACTOR * first * (1 # 1000) in
  (timeSpeed (physics g1) == ts /\
   y (vectorPosition (body (PLAYER g1))) ==
     y (vectorPosition (body (PLAYER g))) +
     (y (velocity (body (PLAYER g))) + 100000 * ts * ts) * ts /\
   y (wave_position (WAVE g1)) ==
     Qmin (y (wave_position (WAVE g)) - 200 * ts)
          (PIXI.bottom (boundingRectangle (CAMERA g1)) + 100)) /\
  playerState (PLAYER g2) = PLAYER_STATE.Tutorial /\
  timeSpeed (physics g2) == 0 /\
  (x (vectorPosition (body (PLAYER g2))) == x (vectorPosition (body (PLAYER g1))) /\
   y (vectorPosition (body (PLAYER g2))) == y (vectorPosition (body (PLAYER g1)))) /\
  (x (velocity (body (PLAYER g2))) == x (velocity (body (PLAYER g1))) /\
   y (velocity (body (PLAYER g2))) == y (velocity (body (PLAYER g1)))) /\
  y (wave_position (WAVE g2)) ==
    Qmin (y (wave_position (WAVE g1)))
         (PIXI.bottom (boundingRectangle (CAMERA g2)) + 100) /\
  played (host g2) = played (host g).
Proof.
  intros Hr Ht. cbv zeta.
  pose proof (reachable_tutorialInGame Hr Ht) as Hs.
  pose proof (@tutorial_frame g first (reachable_sane Hr) (reachable_noPending Hr)
                (reachable_tutorialPose Hr) Hs Ht) as F1.
  cbv zeta in F1. destruct F1 as (T1 & ((Px1 & V1) & _) & Y1 & _ & W1 & S1).
  destruct (update_in_tutorial first g Ht Hs) as (Ht1 & Hs1 & Hc1 & Hg1).
  assert (Hr1 : reachable (update first g))
    by (eapply reachable_step with (fuel := 0%nat) (e := tick first); [exact Hr | reflexivity]).
  pose proof (@tutorial_frame (update first g) next (reachable_sane Hr1)
                (reachable_noPending Hr1) (reachable_tutorialPose Hr1) Hs1 Ht1) as F2.
  cbv zeta in F2. rewrite Hc1, Hg1 in F2.
  destruct F2 as (T2 & ((Px2 & V2) & _) & Y2 & U2 & W2 & S2).
  destruct (update_in_tutorial next (update first g) Ht1 Hs1) as (Ht2 & _).
  assert (Z : lerp (ofZ 0) (ofZ 0) TIME_EASING_FACTOR * next * (1 # 1000) == 0)
    by (unfold lerp; unfold_num; ring).
  rewrite Z in T2, Y2, U2, W2.
  split; [split; [exact T1 | split; [exact Y1 | exact W1]]|].
  split; [exact Ht2|]. split; [exact T2|].
  split; [split; [rewrite Px2, Px1; reflexivity | rewrite Y2; ring]|].
  split; [split; [rewrite V2, V1; reflexivity | rewrite U2; ring]|].
  split; [|rewrite S2; exact S1].
  rewrite W2.
  assert (E : y (wave_position (WAVE (update first g))) - 200 * 0 ==
              y (wave_position (WAVE (update first g)))) by ring.
  rewrite E. reflexivity.
Qed.

Lemma tutorial_is_frozen_witness :
  let g := playSound SFX_ID.Select first_play in
  let g1 := update 16 g in
  let g2 := update 16 g1 in
  let ts := lerp (currentGameSpeed (physics g)) (targetGameSpeed (physics g))
              TIME_EASING_FACTOR * 16 * (1 # 1000) in
  (ts == 2 # 125 /\ y (vectorPosition (body (PLAYER g1))) == 256 # 625 /\
   y (wave_position (WAVE g1)) == 2968 # 10) /\
  (timeSpeed (physics g1) == ts /\
   y (vectorPosition (body (PLAYER g1))) ==
     y (vectorPosition (body (PLAYER g))) +
     (y (velocity (body (PLAYER g))) + 100000 * ts * ts) * ts /\
   y (wave_position (WAVE g1)) ==
     Qmin (y (wave_position (WAVE g)) - 200 * ts)
          (PIXI.bottom (boundingRectangle (CAMERA g1)) + 100)) /\
  playerState (PLAYER g2) = PLAYER_STATE.Tutorial /\
  timeSpeed (physics g2) == 0 /\
  (x (vectorPosition (body (PLAYER g2))) == x (vectorPosition (body (PLAYER g1))) /\
   y (vectorPosition (body (PLAYER g2))) == y (vectorPosition (body (PLAYER g1)))) /\
  (x (velocity (body (PLAYER g2))) == x (velocity (body (PLAYER g1))) /\
   y (velocity (body (PLAYER g2))) == y (velocity (body (PLAYER g1)))) /\
  y (wave_position (WAVE g2)) ==
    Qmin (y (wave_position (WAVE g1)))
         (PIXI.bottom (boundingRectangle (CAMERA g2)) + 100) /\
  played (host g2) = played (host g).
Proof.
  split.
  - split; [vm_compute; reflexivity|]. split; vm_compute; reflexivity.
  - apply (@tutorial_is_frozen (playSound SFX_ID.Select first_play) 16 16).
    + eapply reachable_step with (fuel := 3%nat) (e := clickPlay);
        [apply (reachable_start (Vec 0 0) [] (fun _ => 1 # 8)) | vm_compute; reflexivity].
    + vm_compute. reflexivity.
Defined.

(** ** The collider of the wave after "Play" *)

Section StaleCollider.
Context {num : Type} `{JSNumber num}.
Local Open Scope num_scope.

Lemma onDeath_lastDeathHeight (g : Game num) :
  lastDeathHeight (Player.onDeath g) =
    nceil (y (vectorPosition (body (PLAYER g))) * - decimal 1 10) + ofZ 100.
Proof.
  unfold Player.onDeath, recordDeathHeight.
  match goal with |- context [if ?c then _ else _] => destruct c end; reflexivity.
Qed.

(** [reset()] moves the wave, not its collider: "Play" puts the top of the
    wave 300 below the player and leaves the collider where the last
    session left it, until the first frame of the game scene moves it.  A
    press on the canvas before that frame starts aiming, and the frame then
    tests the player against the old collider: when that contains the
    starting point (250, 0), as it does when the last session ended with
    the wave above the starting line, the player dies in the first frame
    of the new session, at height 100. *)
Theorem press_before_first_frame_dies (fuel : nat) (g g' : Game num)
    (clientX clientY elapsedMS : num) :
  Wave.isColliding (WAVE g) CAMERA_POSITION_DEFAULT = true ->
  run fuel [clickPlay; pointerdown clientX clientY; tick elapsedMS] g = Some g' ->
  (exists g1,
     step fuel clickPlay g = Some g1 /\
     bounds (WAVE g1) = bounds (WAVE g) /\
     wave_position (WAVE g1) = Vec (ofZ 0) (y CAMERA_POSITION_DEFAULT + ofZ 300) /\
     vectorPosition (body (PLAYER g1)) = CAMERA_POSITION_DEFAULT /\
     playerState (PLAYER g1) = PLAYER_STATE.Tutorial) /\
  playerState (PLAYER g') = PLAYER_STATE.Dead /\
  currentScene g' = SCENE_ID.Game /\
  lastDeathHeight g' = nceil (ofZ 0 * - decimal 1 10) + ofZ 100.
Proof.
  intros Hc Hr. cbn [run] in Hr.
  destruct (step fuel clickPlay g) as [g1|] eqn:E1; [|discriminate].
  cbn [step] in Hr. injection Hr as <-.
  cbn [step] in E1.
  destruct (transitionToGame fuel g) as [g0|] eqn:E0; [|discriminate].
  injection E1 as <-. apply transitionToGame_shape in E0.
  destruct E0 as (Hp & Hsc & Hw & _).
  split.
  { eexists. split; [reflexivity|]. cbn [WAVE PLAYER playSound set_host].
    rewrite Hw, Hp. repeat split. }
  set (g2 := onpointerdown clientX clientY (playSound SFX_ID.Select g0)).
  assert (Ha : playerState (PLAYER g2) = PLAYER_STATE.Aiming).
  { unfold g2, onpointerdown. rewrite onAim_playerState. cbn. rewrite Hp. reflexivity. }
  assert (Hs2 : currentScene g2 = SCENE_ID.Game).
  { unfold g2, onpointerdown, Player.onAim. cbn. rewrite Hp. cbn. exact Hsc. }
  assert (Hw2 : WAVE g2 = Wave.reset (WAVE g)).
  { unfold g2, onpointerdown, Player.onAim. cbn. rewrite Hp. cbn. exact Hw. }
  assert (Hp2 : vectorPosition (body (PLAYER g2)) = CAMERA_POSITION_DEFAULT).
  { unfold g2, onpointerdown, Player.onAim. cbn. rewrite Hp. reflexivity. }
  clearbody g2. unfold update. rewrite Hs2.
  destruct (updateGame_shape elapsedMS g2) as (g3 & -> & Hp3 & Hsc3 & Hw3 & _).
  destruct (Player_update_shape g3) as (b & h & ->).
  change (playerState (PLAYER (Wave.update _)))
    with (playerState (PLAYER (Player.dispatch g3))).
  change (currentScene (Wave.update _)) with (currentScene (Player.dispatch g3)).
  change (lastDeathHeight (Wave.update _)) with (lastDeathHeight (Player.dispatch g3)).
  assert (Hd : Player.dispatch g3 = Player.whenAim (Player.onDeath g3)).
  { unfold Player.dispatch. rewrite Hp3, Ha. unfold Player.whenAlive.
    rewrite Hw3, Hw2, Hp3, Hp2.
    change (Wave.isColliding (Wave.reset (WAVE g)) CAMERA_POSITION_DEFAULT)
      with (Wave.isColliding (WAVE g) CAMERA_POSITION_DEFAULT).
    rewrite Hc. reflexivity. }
  rewrite Hd.
  change (playerState (PLAYER (Player.whenAim ?g0)))
    with (playerState (PLAYER g0)).
  change (currentScene (Player.whenAim ?g0)) with (currentScene g0).
  change (lastDeathHeight (Player.whenAim ?g0)) with (lastDeathHeight g0).
  rewrite onDeath_playerState, onDeath_scene, onDeath_lastDeathHeight.
  rewrite Hsc3, Hs2, Hp3, Hp2. repeat split.
Qed.

End StaleCollider.

(** A session in binary64: "Play", one fling straight up, then frames of
    16 ms until the wave has caught the player, above the starting line,
    and the menu is back. *)
Definition one_fling : list (@Event float) :=
  ([clickPlay; pointerdown 250 400; pointermove 250 700; tick 16;
    pointerup 250 700] ++ repeat (tick 16) 150)%float.

Definition back_in_menu : Game float :=
  match run 3 one_fling (start (Vec 0 0)%float [] (fun _ => 0.125%float)) with
  | Some g => g
  | None => start (Vec 0 0)%float [] (fun _ => 0.125%float)
  end.

Definition second_session : Game float :=
  match run 3 [clickPlay; pointerdown 250 400; tick 16]%float back_in_menu with
  | Some g => g
  | None => back_in_menu
  end.

Lemma press_before_first_frame_dies_witness :
  (reachable back_in_menu /\
   currentScene back_in_menu = SCENE_ID.Menu /\
   lastDeathHeight back_in_menu = 113%float /\
   played (host second_session) =
     [SFX_ID.Select; SFX_ID.Aim; SFX_ID.Fling; SFX_ID.Death;
      SFX_ID.Select; SFX_ID.Aim; SFX_ID.Death]) /\
  (exists g1,
     step 3 clickPlay back_in_menu = Some g1 /\
     bounds (WAVE g1) = bounds (WAVE back_in_menu) /\
     wave_position (WAVE g1) = Vec (ofZ 0) (y CAMERA_POSITION_DEFAULT + ofZ 300)%num /\
     vectorPosition (body (PLAYER g1)) = CAMERA_POSITION_DEFAULT /\
     playerState (PLAYER g1) = PLAYER_STATE.Tutorial) /\
  playerState (PLAYER second_session) = PLAYER_STATE.Dead /\
  currentScene second_session = SCENE_ID.Game /\
  lastDeathHeight second_session = (nceil (ofZ 0 * - decimal 1 10) + ofZ 100)%num.
Proof.
  split.
  - split.
    + apply (@run_reachable float _ 3%nat one_fling
               (start (Vec 0 0)%float [] (fun _ => 0.125%float)) back_in_menu).
      * apply reachable_start.
      * vm_compute. reflexivity.
    + split; [vm_compute; reflexivity|]. split; vm_compute; reflexivity.
  - apply (@press_before_first_frame_dies float _ 3%nat back_in_menu second_session
             250%float 400%float 16%float).
    + vm_compute. reflexivity.
    + vm_compute. reflexivity.
Defined.

(** ** Back to the menu *)

Lemma Camera_update_y {num : Type} `{JSNumber num} (c : Camera num) :
  y (position (Camera.update c)) = y (position c).
Proof.
  rewrite Camera_update_clamped. unfold clamped.
  destruct (_ <? _)%num; [|destruct (_ >? _)%num]; reflexivity.
Qed.

(** A frame of the menu, with the camera above or below its home *)
Lemma menu_frame (g : Game Q) (ms : Q) :
  currentScene g = SCENE_ID.Menu ->
  x (position (CAMERA g)) == 250 -> zoom (CAMERA g) == 1 ->
  x (xBounds (CAMERA g)) == 0 -> y (xBounds (CAMERA g)) == 500 ->
  let g' := update ms g in
  currentScene g' = SCENE_ID.Menu /\
  x (position (CAMERA g')) == 250 /\ zoom (CAMERA g') == 1 /\
  x (xBounds (CAMERA g')) == 0 /\ y (xBounds (CAMERA g')) == 500 /\
  y (position (CAMERA g')) == (19 # 20) * y (position (CAMERA g)).
Proof.
  intros Hs Cx Cz B1 B2. cbv zeta. unfold update. rewrite Hs.
  change (currentScene (updateMenu g)) with (currentScene g).
  change (CAMERA (updateMenu g))
    with (Camera.update
            (Camera.easeTo CAMERA_POSITION_DEFAULT CAMERA_ZOOM_DEFAULT
               CAMERA_AIMING_EASING_FACTOR (CAMERA g))).
  assert (Ht : x (@CAMERA_POSITION_DEFAULT Q _) == 250) by (vm_compute; reflexivity).
  pose proof (@centred_camera (CAMERA g) CAMERA_POSITION_DEFAULT
                CAMERA_AIMING_EASING_FACTOR Cx Cz Ht B1 B2) as C.
  cbv zeta in C. destruct C as (C1 & C2 & _).
  rewrite update_xBounds, Camera_update_y.
  destruct (easeTo_step (CAMERA g) CAMERA_POSITION_DEFAULT CAMERA_ZOOM_DEFAULT
              CAMERA_AIMING_EASING_FACTOR) as (_ & Ey & _ & _ & _ & _ & Eb).
  cbv zeta in Ey, Eb. rewrite Eb.
  split; [exact Hs|]. split; [exact C1|]. split; [exact C2|].
  split; [exact B1|]. split; [exact B2|].
  set (ye := y (position (Camera.easeTo _ _ _ _))) in *. clearbody ye.
  assert (E1 : y (@CAMERA_POSITION_DEFAULT Q _) == 0) by reflexivity.
  assert (E2 : @CAMERA_AIMING_EASING_FACTOR Q _ == 1 # 20) by reflexivity.
  rewrite E1, E2 in Ey. lra.
Qed.

Lemma menu_frames (frames : list Q) :
  forall g : Game Q,
    currentScene g = SCENE_ID.Menu ->
    x (position (CAMERA g)) == 250 -> zoom (CAMERA g) == 1 ->
    x (xBounds (CAMERA g)) == 0 -> y (xBounds (CAMERA g)) == 500 ->
    let g' := fold_left (fun g ms => update ms g) frames g in
    currentScene g' = SCENE_ID.Menu /\
    x (position (CAMERA g')) == 250 /\ zoom (CAMERA g') == 1 /\
    y (position (CAMERA g')) ==
      Qpow (19 # 20) (length frames) * y (position (CAMERA g)).
Proof.
  induction frames as [|ms frames IH]; intros g Hs Cx Cz B1 B2; cbn [fold_left length Qpow].
  - split; [exact Hs|]. split; [exact Cx|]. split; [exact Cz|]. ring.
  - destruct (@menu_frame g ms Hs Cx Cz B1 B2) as (Hs' & Cx' & Cz' & B1' & B2' & Cy').
    destruct (IH (update ms g) Hs' Cx' Cz' B1' B2') as (I1 & I2 & I3 & I4).
    split; [exact I1|]. split; [exact I2|]. split; [exact I3|].
    rewrite I4, Cy'. ring.
Qed.

(** A frame of the game scene with the player dead *)
Lemma dead_frame {num : Type} `{JSNumber num} (g : Game num) (ms : num) :
  currentScene g = SCENE_ID.Game ->
  playerState (PLAYER g) = PLAYER_STATE.Dead ->
  exists g1,
    boundingRectangle (CAMERA (update ms g)) = boundingRectangle (CAMERA g1) /\
    xBounds (CAMERA g1) = xBounds (CAMERA g) /\
    currentScene g1 = SCENE_ID.Game /\
    (currentScene (update ms g), CAMERA (update ms g)) =
      if (y (wave_position (WAVE g)) <? PIXI.top (boundingRectangle (CAMERA g1)))%num
      then (SCENE_ID.Menu, CAMERA (transitionToMenu g1))
      else (SCENE_ID.Game, CAMERA g1).
Proof.
  intros Hs Hd. unfold update. rewrite Hs.
  destruct (updateGame_shape ms g) as (g1 & -> & Hp & Hsc & Hw & _ & _ & _ & _ & _ & _ & Hb).
  exists g1.
  destruct (Player_update_shape g1) as (b & h & ->).
  destruct (dispatch_keepsPhysics g1) as (_ & _ & _ & Kb & _).
  split; [exact Kb|]. split; [exact Hb|]. split; [now rewrite Hsc|].
  change (currentScene (Wave.update _)) with (currentScene (Player.dispatch g1)).
  change (CAMERA (Wave.update _)) with (CAMERA (Player.dispatch g1)).
  unfold Player.dispatch. rewrite Hp, Hd. unfold Player.whenDead. rewrite Hw.
  destruct (_ <? _)%num; [reflexivity|]. now rewrite Hsc, Hs.
Qed.

(** A dead player is shown until the top of the wave has passed the top of
    the view: the frame that finds the wave (as the frame before left it)
    above the top of the view it has just computed switches to the menu,
    with the camera 1000 above its home, at (250, -1000) and zoom 1; every
    other frame stays in the game scene.  In the menu each frame moves the
    camera a twentieth of the way home: after [n] frames it is at
    [-1000 * 0.95^n], still at x = 250 and zoom 1. *)
Theorem dead_player_returns_to_menu (g : Game Q) (elapsedMS : Q) (frames : list Q) :
  reachable g ->
  currentScene g = SCENE_ID.Game ->
  playerState (PLAYER g) = PLAYER_STATE.Dead ->
  let g1 := update elapsedMS g in
  let top := PIXI.top (boundingRectangle (CAMERA g1)) in
  let gn := fold_left (fun g ms => update ms g) frames g1 in
  (top <= y (wave_position (WAVE g)) ->
   currentScene g1 = SCENE_ID.Game /\ playerState (PLAYER g1) = PLAYER_STATE.Dead) /\
  (y (wave_position (WAVE g)) < top ->
   (currentScene g1 = SCENE_ID.Menu /\
    x (position (CAMERA g1)) == 250 /\ y (position (CAMERA g1)) == -1000 /\
    zoom (CAMERA g1) == 1) /\
   (currentScene gn = SCENE_ID.Menu /\
    x (position (CAMERA gn)) == 250 /\
    y (position (CAMERA gn)) == -1000 * Qpow (19 # 20) (length frames) /\
    zoom (CAMERA gn) == 1)).
Proof.
  intros Hr Hs Hd. cbv zeta.
  destruct (reachable_sane Hr) as [(_ & (B1 & B2) & _) _].
  destruct (@dead_frame Q _ g elapsedMS Hs Hd) as (g0 & Hb & Hx & Hs0 & E).
  rewrite Hb.
  assert (Hp : playerState (PLAYER (update elapsedMS g)) = PLAYER_STATE.Dead).
  { destruct (update_playerState elapsedMS g) as [-> | ->]; [exact Hd | reflexivity]. }
  destruct (y (wave_position (WAVE g)) <? PIXI.top (boundingRectangle (CAMERA g0)))%num
    eqn:C; injection E as E1 E2.
  - apply Qltb_true in C. split; [intros Hn; lra|]. intros _.
    assert (M : x (position (CAMERA (update elapsedMS g))) == 250 /\
                y (position (CAMERA (update elapsedMS g))) == -1000 /\
                zoom (CAMERA (update elapsedMS g)) == 1 /\
                xBounds (CAMERA (update elapsedMS g)) = xBounds (CAMERA g)).
    { rewrite E2. split; [vm_compute; reflexivity|]. split; [vm_compute; reflexivity|].
      split; [vm_compute; reflexivity | exact Hx]. }
    destruct M as (M1 & M2 & M3 & M4).
    split; [split; [exact E1 | split; [exact M1 | split; [exact M2 | exact M3]]]|].
    destruct (@menu_frames frames (update elapsedMS g) E1 M1 M3) as (F1 & F2 & F3 & F4).
    + rewrite M4. exact B1.
    + rewrite M4. exact B2.
    + split; [exact F1|]. split; [exact F2|]. split; [|exact F3].
      rewrite F4, M2. ring.
  - apply Qltb_false in C. split; [intros _; split; assumption|]. intros Hn. lra.
Qed.

(** A session: "Play", a press and a release on the spot (the fling is
    cancelled), a frame of 300 ms in which the player falls below the top of
    the wave, and the frame in which it dies. *)
Definition dead_in_game : Game Q :=
  match run 3 [clickPlay; pointerdown 100 100; pointerup 100 100; tick 300; tick 16]
          (start (Vec 0 0) [] (fun _ => 1 # 8)) with
  | Some g => g
  | None => start (Vec 0 0) [] (fun _ => 1 # 8)
  end.

Lemma dead_player_returns_to_menu_witness :
  let g := dead_in_game in
  let g1 := update 16 g in
  let top := PIXI.top (boundingRectangle (CAMERA g1)) in
  let gn := fold_left (fun g ms => update ms g) [16; 16] g1 in
  (playerState (PLAYER g) = PLAYER_STATE.Dead /\ lastDeathHeight g == 56) /\
  (top <= y (wave_position (WAVE g)) ->
   currentScene g1 = SCENE_ID.Game /\ playerState (PLAYER g1) = PLAYER_STATE.Dead) /\
  (y (wave_position (WAVE g)) < top ->
   (currentScene g1 = SCENE_ID.Menu /\
    x (position (CAMERA g1)) == 250 /\ y (position (CAMERA g1)) == -1000 /\
    zoom (CAMERA g1) == 1) /\
   (currentScene gn = SCENE_ID.Menu /\
    x (position (CAMERA gn)) == 250 /\
    y (position (CAMERA gn)) == -1000 * Qpow (19 # 20) (length [16; 16]) /\
    zoom (CAMERA gn) == 1)).
Proof.
  split; [split; vm_compute; reflexivity|].
  apply (@dead_player_returns_to_menu dead_in_game 16 [16; 16]).
  - apply (@run_reachable Q _ 3%nat
             [clickPlay; pointerdown 100 100; pointerup 100 100; tick 300; tick 16]
             (start (Vec 0 0) [] (fun _ => 1 # 8)) dead_in_game).
    + apply reachable_start.
    + vm_compute. reflexivity.
  - vm_compute. reflexivity.
  - vm_compute. reflexivity.
Defined.
